(** * CacheGPT: the request-serving pipeline

    A shallow embedding of the Python sources of the caching proxy
    ([app/services/cache_service.py], [app/routers/proxy.py],
    [app/services/subscription_service.py], [app/utils/feature_gates.py],
    [app/middleware/usage_middleware.py]) together with the properties
    of the pipeline that are stated about it.

    Conventions of the embedding.
    - A Python [str] is a [string]; every character stands for the code
      point of the same number (code points below 256).
    - A Python [int] is a [Z].
    - A Python [float] is a rational [Q]: the properties below only
      compare floats with zero and add zeros, where rounding plays no
      part.
    - A call that may raise returns a sum or an option; a [try]/[except]
      is a [match] on it.
    - Database tables are lists of rows.  The outcome of talking to a
      collaborator (database fault, embedding service, upstream model,
      clock) is an explicit input of the function that talks to it. *)

From Stdlib Require Import ZArith QArith Qround List String Ascii Bool Lia.
From Stdlib Require Import DecimalString DecimalZ DecimalN.
From stdpp Require Import gmap strings list sorting.
Import ListNotations.

Local Open Scope string_scope.
Local Open Scope Z_scope.

(** ** SHA-256 ([hashlib.sha256], FIPS 180-4) *)

Module Sha256.

Definition w32 : Z := 2 ^ 32.
Definition add32 (x y : Z) : Z := (x + y) mod w32.
Definition rotr (n x : Z) : Z :=
  Z.lor (Z.shiftr x n) ((Z.shiftl x (32 - n)) mod w32).
Definition shr (n x : Z) : Z := Z.shiftr x n.
Definition not32 (x : Z) : Z := w32 - 1 - x.

Definition Ch (x y z : Z) : Z := Z.lxor (Z.land x y) (Z.land (not32 x) z).
Definition Maj (x y z : Z) : Z :=
  Z.lxor (Z.lxor (Z.land x y) (Z.land x z)) (Z.land y z).
Definition Sigma0 (x : Z) : Z := Z.lxor (Z.lxor (rotr 2 x) (rotr 13 x)) (rotr 22 x).
Definition Sigma1 (x : Z) : Z := Z.lxor (Z.lxor (rotr 6 x) (rotr 11 x)) (rotr 25 x).
Definition sigma0 (x : Z) : Z := Z.lxor (Z.lxor (rotr 7 x) (rotr 18 x)) (shr 3 x).
Definition sigma1 (x : Z) : Z := Z.lxor (Z.lxor (rotr 17 x) (rotr 19 x)) (shr 10 x).

(** The round constants are the first 32 bits of the fractional parts
    of the cube roots of the first 64 primes; the initial hash value is
    made the same way from the square roots of the first 8 primes. *)
Definition is_prime (n : Z) : bool :=
  (1 <? n) && List.forallb (fun d => negb (n mod d =? 0) || (n <=? d))
                (List.map Z.of_nat (List.seq 2 18)).

Definition primes : list Z :=
  List.filter is_prime (List.map Z.of_nat (List.seq 2 310)).

(** The integer cube root by bisection: [lo ^ 3 <= n < hi ^ 3]. *)
Fixpoint cube_root (fuel : nat) (lo hi n : Z) : Z :=
  match fuel with
  | O => lo
  | S fuel' =>
      if hi - lo <=? 1 then lo
      else
        let mid := (lo + hi) / 2 in
        if mid * mid * mid <=? n then cube_root fuel' mid hi n
        else cube_root fuel' lo mid n
  end.

Definition K : list Z :=
  Eval vm_compute in
    List.map (fun p => cube_root 64 0 (2 ^ 36) (p * 2 ^ 96) mod w32) primes.

Definition H0 : list Z :=
  Eval vm_compute in
    List.map (fun p => Z.sqrt (p * 2 ^ 64) mod w32) (List.firstn 8 primes).

(** Padding: the byte 0x80, zero bytes up to 56 modulo 64, then the bit
    length as a big-endian 64-bit integer. *)
Fixpoint be_bytes (n : nat) (x : Z) : list Z :=
  match n with
  | O => []
  | S n' => (Z.shiftr x (8 * Z.of_nat n')) mod 256 :: be_bytes n' x
  end.

Definition pad (msg : list Z) : list Z :=
  let len := Z.of_nat (List.length msg) in
  let zeros := Z.to_nat ((55 - len) mod 64) in
  msg ++ [0x80] ++ List.repeat 0 zeros ++ be_bytes 8 (8 * len).

Fixpoint be_words (n : nat) (bs : list Z) : list Z :=
  match n, bs with
  | S n', b0 :: b1 :: b2 :: b3 :: rest =>
      (b0 * 16777216 + b1 * 65536 + b2 * 256 + b3) :: be_words n' rest
  | _, _ => []
  end.

(** The message schedule, most recent word first: [ws] holds
    W(t-1), W(t-2), ... *)
Fixpoint schedule (n : nat) (ws : list Z) : list Z :=
  match n with
  | O => ws
  | S n' =>
      let wt := add32 (add32 (sigma1 (nth 1 ws 0)) (nth 6 ws 0))
                      (add32 (sigma0 (nth 14 ws 0)) (nth 15 ws 0)) in
      schedule n' (wt :: ws)
  end.

Record regs := Regs { ra : Z; rb : Z; rc : Z; rd : Z; re : Z; rf : Z; rg : Z; rh : Z }.

Definition round (r : regs) (kw : Z * Z) : regs :=
  let t1 := add32 (add32 (add32 (rh r) (Sigma1 (re r))) (Ch (re r) (rf r) (rg r)))
                  (add32 (fst kw) (snd kw)) in
  let t2 := add32 (Sigma0 (ra r)) (Maj (ra r) (rb r) (rc r)) in
  Regs (add32 t1 t2) (ra r) (rb r) (rc r) (add32 (rd r) t1) (re r) (rf r) (rg r).

Definition compress (h : regs) (block : list Z) : regs :=
  let w := List.rev (schedule 48 (List.rev (be_words 16 block))) in
  let r := List.fold_left round (List.combine K w) h in
  Regs (add32 (ra h) (ra r)) (add32 (rb h) (rb r)) (add32 (rc h) (rc r))
       (add32 (rd h) (rd r)) (add32 (re h) (re r)) (add32 (rf h) (rf r))
       (add32 (rg h) (rg r)) (add32 (rh h) (rh r)).

Fixpoint blocks (n : nat) (h : regs) (bs : list Z) : regs :=
  match n with
  | O => h
  | S n' => blocks n' (compress h (List.firstn 64 bs)) (List.skipn 64 bs)
  end.

Definition init : regs :=
  Regs (nth 0 H0 0) (nth 1 H0 0) (nth 2 H0 0) (nth 3 H0 0)
       (nth 4 H0 0) (nth 5 H0 0) (nth 6 H0 0) (nth 7 H0 0).

Definition digest (msg : list Z) : list Z :=
  let p := pad msg in
  let r := blocks (Nat.div (List.length p) 64) init p in
  List.flat_map (be_bytes 4)
    [ra r; rb r; rc r; rd r; re r; rf r; rg r; rh r].

Definition hex_digit (d : Z) : ascii :=
  ascii_of_N (Z.to_N (if d <? 10 then 48 + d else 87 + d)).

Fixpoint hex (bs : list Z) : string :=
  match bs with
  | [] => EmptyString
  | b :: rest => String (hex_digit (b / 16)) (String (hex_digit (b mod 16)) (hex rest))
  end.

(** [s.encode()]: on the ASCII-only output of [json.dumps] UTF-8 is one
    byte a character. *)
Fixpoint encode (s : string) : list Z :=
  match s with
  | EmptyString => []
  | String c rest => Z.of_N (N_of_ascii c) :: encode rest
  end.

(** [hashlib.sha256(s.encode()).hexdigest()] *)
Definition hexdigest (s : string) : string := hex (digest (encode s)).

End Sha256.

(** ** [json.dumps] on the shapes the proxy serialises *)

Module Json.

Definition chr (n : Z) : ascii := ascii_of_N (Z.to_N n).
Definition ord (c : ascii) : Z := Z.of_N (N_of_ascii c).
Definition str1 (n : Z) : string := String (chr n) EmptyString.

Definition backslash : Z := 92.
Definition quote : Z := 34.

Definition hex4 (n : Z) : string :=
  String (Sha256.hex_digit ((n / 4096) mod 16))
    (String (Sha256.hex_digit ((n / 256) mod 16))
      (String (Sha256.hex_digit ((n / 16) mod 16))
        (String (Sha256.hex_digit (n mod 16)) EmptyString))).

(** [py_encode_basestring_ascii], the escaping of [ensure_ascii=True]:
    the two-character escapes, and a [u]-escape for every other
    character outside the printable range from space to tilde. *)
Definition escape_char (c : ascii) : string :=
  let n := ord c in
  if n =? quote then String (chr backslash) (str1 quote)
  else if n =? backslash then String (chr backslash) (str1 backslash)
  else if n =? 10 then String (chr backslash) "n"
  else if n =? 13 then String (chr backslash) "r"
  else if n =? 9 then String (chr backslash) "t"
  else if n =? 8 then String (chr backslash) "b"
  else if n =? 12 then String (chr backslash) "f"
  else if (n <? 32) || (126 <? n) then String (chr backslash) (String "u" (hex4 n))
  else String c EmptyString.

Fixpoint escape (s : string) : string :=
  match s with
  | EmptyString => EmptyString
  | String c rest => (escape_char c ++ escape rest)%string
  end.

Definition dumps_str (s : string) : string :=
  (str1 quote ++ escape s ++ str1 quote)%string.

(** [", ".join(parts)] *)
Fixpoint join (parts : list string) : string :=
  match parts with
  | [] => EmptyString
  | [p] => p
  | p :: rest => (p ++ ", " ++ join rest)%string
  end.

(** A message is a [Dict[str, str]]: its items in insertion order. *)
Definition dict : Type := list (string * string).

(** The order of [sorted(dct.items())]: tuples compare by their first
    components, then by their second ones; strings compare by code
    point. *)
Definition item_leb (x y : string * string) : bool :=
  match String.compare (fst x) (fst y) with
  | Lt => true
  | Eq => String.leb (snd x) (snd y)
  | Gt => false
  end.

Definition item_le (x y : string * string) : Prop := item_leb x y = true.

#[global] Instance item_le_dec x y : Decision (item_le x y).
Proof. unfold item_le. apply _. Defined.

Definition sort_items (d : dict) : dict := merge_sort item_le d.

Definition dumps_item (kv : string * string) : string :=
  (dumps_str (fst kv) ++ ": " ++ dumps_str (snd kv))%string.

Definition dumps_dict (sort_keys : bool) (d : dict) : string :=
  ("{" ++ join (List.map dumps_item (if sort_keys then sort_items d else d)) ++ "}")%string.

Definition dumps_list (sort_keys : bool) (l : list dict) : string :=
  ("[" ++ join (List.map (dumps_dict sort_keys) l) ++ "]")%string.

(** [json.dumps({"messages": messages, "model": model}, sort_keys=True)];
    the two outer keys are already in order. *)
Definition dumps_normalized (messages : list dict) (model : string) : string :=
  ("{" ++ join [ (dumps_str "messages" ++ ": " ++ dumps_list true messages)%string;
                 (dumps_str "model" ++ ": " ++ dumps_str model)%string ] ++ "}")%string.

End Json.

(** ** The database client

    [table(...).select(...).eq(...).single().execute()] answers with one
    row.  The sources test [result.data] for emptiness and guard the
    call with [try]/[except], so they are written for three outcomes
    of a read. *)

Module Db.

Inductive Result (A : Type) : Type :=
| Raised            (* the call raised *)
| NoData            (* [result.data] is empty *)
| Data (a : A).
Arguments Raised {A}.
Arguments NoData {A}.
Arguments Data {A} a.

(** [.single()] over the rows a filter selects; [fault] is a failure
    of the backend itself.  The request asks for exactly one row: no
    row, like more than one, is an error the client raises, so a
    [.single()] read never comes back with empty data. *)
Definition single {A : Type} (fault : bool) (rows : list A) : Result A :=
  if fault then Raised
  else match rows with
       | [r] => Data r
       | _ => Raised
       end.

End Db.

(** ** [app/models/cache.py], [app/models/api.py] *)

Module CacheEntry.
Record t := Make {
  id : Z;                       (* primary key, drawn by the database *)
  user_id : string;
  query_hash : string;
  query_text : string;
  query_embedding : list Q;     (* kept as the vector; stored as its text *)
  response_text : string;
  model_used : string;
  tokens_saved : Z;
  cost_saved : Q;
  expires_at : Z;
  hit_count : Z
}.
Definition with_hit_count (n : Z) (e : t) : t :=
  Make (id e) (user_id e) (query_hash e) (query_text e) (query_embedding e)
       (response_text e) (model_used e) (tokens_saved e) (cost_saved e)
       (expires_at e) n.
End CacheEntry.

Module CacheSearchResult.
Record t := Make {
  id : Z;
  query_text : string;
  response_text : string;
  similarity : Q;
  hit_count : Z;
  model_used : string
}.
End CacheSearchResult.

(** A row of [usage_logs], as [log_usage] writes it. *)
Module UsageLog.
Record t := Make {
  user_id : string;
  api_key_id : option string;
  cache_hit : bool;
  tokens_used : Z;
  cost : Q;
  model_used : string;
  response_time_ms : Z
}.
End UsageLog.

Module ChatCompletionRequest.
Record t := Make {
  messages : list Json.dict;
  model : string;
  max_tokens : option Z;
  temperature : option Q;
  stream : bool
}.
End ChatCompletionRequest.

Module Usage.
Record t := Make { prompt_tokens : Z; completion_tokens : Z; total_tokens : Z }.
End Usage.

Module ChatCompletionResponse.
Record t := Make {
  choices : list string;        (* the [content] of each choice's message *)
  cached : bool;
  cache_type : option string;
  similarity : option Q;
  usage : option Usage.t
}.
End ChatCompletionResponse.

(** What [llm_service.call_openai] returns: one choice, whose message
    has the [content], and the token counts. *)
Module LlmResponse.
Record t := Make { content : string; usage : Usage.t }.
Definition choices (r : t) : list string := [content r].
End LlmResponse.

(** [fastapi.HTTPException].  The [detail] is kept where it is
    structured; a text ([str(e)], a fixed sentence) is [Message]. *)
Inductive Detail : Type :=
| Message
| MonthlyLimit (current_usage : Z) (limit : option Z)
| FeatureUpgrade (feature : string).

Record HTTPException := { status_code : Z; detail : Detail }.

(** The two tables the proxy works on. *)
Record Database := {
  cache_entries : list CacheEntry.t;
  usage_logs : list UsageLog.t
}.

Definition empty_database : Database :=
  {| cache_entries := []; usage_logs := [] |}.

(** What the collaborators answer while one request is served. *)
Record World := {
  now : Z;                                  (* [datetime.now()], in seconds *)
  response_time : Z;                        (* [int((time.time() - start_time) * 1000)] *)
  exact_select_fault : bool;                (* the select of [get_exact_match] raises *)
  hit_select_fault : bool;                  (* the select of [update_hit_count] raises *)
  hit_update_fault : bool;                  (* the update of [update_hit_count] raises *)
  log_insert_fault : bool;                  (* the insert of [log_usage] raises *)
  lookup_embedding : option (list Q);       (* [generate_embedding] in the semantic lookup *)
  match_cache_entries :                     (* the similarity search of the store *)
    list Q -> Q -> Z -> string -> Db.Result (list CacheSearchResult.t);
  call_openai : option LlmResponse.t;       (* [None]: the upstream call raises *)
  store_embedding : option (list Q);        (* [generate_embedding] in the store *)
  store_insert_fault : bool                 (* the insert of [store_cache_entry] raises *)
}.

(** ** [app/services/cache_service.py] *)

Module CacheService.

Definition generate_query_hash (messages : list Json.dict) (model : string) : string :=
  let query_string := Json.dumps_normalized messages model in
  Sha256.hexdigest query_string.

Definition matches (query_hash user_id : string) (e : CacheEntry.t) : bool :=
  String.eqb (CacheEntry.query_hash e) query_hash
  && String.eqb (CacheEntry.user_id e) user_id.

Definition get_exact_match (w : World) (db : Database)
    (query_hash user_id : string) : option CacheEntry.t :=
  match Db.single (exact_select_fault w)
          (List.filter (matches query_hash user_id) (cache_entries db)) with
  | Db.Data e => Some e
  | Db.NoData => None
  | Db.Raised => None           (* except: "No exact match found" *)
  end.

Definition get_semantic_matches (w : World) (query_text user_id : string)
    (threshold : Q) : list CacheSearchResult.t :=
  match lookup_embedding w with
  | None => []                  (* except: "Semantic search failed" *)
  | Some embedding =>
      match match_cache_entries w embedding threshold 5 user_id with
      | Db.Data rows => rows
      | Db.NoData => []
      | Db.Raised => []
      end
  end.

(** The key the database gives a new row: one no row has yet. *)
Definition fresh_id (rows : list CacheEntry.t) : Z :=
  1 + List.fold_right Z.max 0 (List.map CacheEntry.id rows).

(** [inl tt] stands for the exception the function re-raises.  The
    columns the insert leaves out get the value the database gives
    them: a new key, and the hit count 0 of the [CacheEntry] model. *)
Definition store_cache_entry (w : World) (db : Database)
    (user_id query_hash query_text response_text model : string)
    (tokens_used : Z) (cost : Q) : Database * (unit + CacheEntry.t) :=
  match store_embedding w with
  | None => (db, inl tt)
  | Some embedding =>
      if store_insert_fault w then (db, inl tt)
      else
        let cache_entry :=
          CacheEntry.Make (fresh_id (cache_entries db)) user_id query_hash
            query_text embedding response_text model tokens_used cost
            (now w + 24 * 3600) 0 in
        ({| cache_entries := cache_entries db ++ [cache_entry];
            usage_logs := usage_logs db |}, inr cache_entry)
  end.

Definition has_id (cache_id : Z) (e : CacheEntry.t) : bool :=
  CacheEntry.id e =? cache_id.

Definition update_hit_count (w : World) (db : Database) (cache_id : Z) : Database :=
  match Db.single (hit_select_fault w)
          (List.filter (has_id cache_id) (cache_entries db)) with
  | Db.Raised => db             (* except: "Failed to update hit count" *)
  | current =>
      let new_count :=
        match current with
        | Db.Data e => CacheEntry.hit_count e + 1
        | _ => 1
        end in
      if hit_update_fault w then db
      else
        {| cache_entries :=
             List.map (fun e => if has_id cache_id e
                                then CacheEntry.with_hit_count new_count e
                                else e) (cache_entries db);
           usage_logs := usage_logs db |}
  end.

Definition log_usage (w : World) (db : Database) (user_id : string)
    (api_key_id : option string) (cache_hit : bool) (tokens_used : Z)
    (cost : Q) (model : string) (response_time_ms : Z) : Database :=
  if log_insert_fault w then db (* except: "Failed to log usage" *)
  else
    let usage_log :=
      UsageLog.Make user_id api_key_id cache_hit tokens_used cost model
        response_time_ms in
    {| cache_entries := cache_entries db;
       usage_logs := usage_logs db ++ [usage_log] |}.

End CacheService.

(** ** [app/routers/proxy.py] *)

Module Proxy.

Import CacheService.

Definition internal_error : HTTPException := {| status_code := 500; detail := Message |}.
Definition bad_request : HTTPException := {| status_code := 400; detail := Message |}.

(** The rate of the cost estimate, [0.002 / 1000] a token.  The costs
    are floats in the code and are read here as rationals: what is
    proved of them is where a cost comes from and that it is 0 for a
    hit, never the value of a rounded product or sum. *)
Definition cost_per_token : Q := (2 # 1000) / (1000 # 1).

Definition chat_completions (w : World) (db : Database)
    (request : ChatCompletionRequest.t) (user_id : string)
    : Database * (HTTPException + ChatCompletionResponse.t) :=
  let messages := ChatCompletionRequest.messages request in
  let model := ChatCompletionRequest.model request in
  let query_hash := generate_query_hash messages model in
  let query_text := Json.dumps_list false messages in
  match get_exact_match w db query_hash user_id with
  | Some exact_match =>
      let db := update_hit_count w db (CacheEntry.id exact_match) in
      let db := log_usage w db user_id None true 0 0%Q model (response_time w) in
      (db, inr (ChatCompletionResponse.Make
                  [CacheEntry.response_text exact_match]
                  true (Some "exact") None None))
  | None =>
      match get_semantic_matches w query_text user_id (85 # 100) with
      | best_match :: _ =>
          let db := update_hit_count w db (CacheSearchResult.id best_match) in
          let db := log_usage w db user_id None true 0 0%Q model (response_time w) in
          (db, inr (ChatCompletionResponse.Make
                      [CacheSearchResult.response_text best_match]
                      true (Some "semantic")
                      (Some (CacheSearchResult.similarity best_match)) None))
      | [] =>
          if String.prefix "gpt" model then
            match call_openai w with
            | None => (db, inl internal_error)
            | Some llm_response =>
                let response_text := LlmResponse.content llm_response in
                let tokens_used := Usage.total_tokens (LlmResponse.usage llm_response) in
                let cost := (inject_Z tokens_used * cost_per_token)%Q in
                match store_cache_entry w db user_id query_hash query_text
                        response_text model tokens_used cost with
                | (db, inl _) => (db, inl internal_error)
                | (db, inr _) =>
                    let db := log_usage w db user_id None false tokens_used cost
                                model (response_time w) in
                    (db, inr (ChatCompletionResponse.Make
                                (LlmResponse.choices llm_response) false None None
                                (Some (LlmResponse.usage llm_response))))
                end
            end
          else if String.prefix "claude" model then
            (db, inl internal_error)     (* [call_anthropic] raises NotImplementedError *)
          else (db, inl bad_request)
      end
  end.

(** The answer of [GET /v1/cache/stats]. *)
Module CacheStats.
Record t := Make {
  total_requests : Z;
  cache_hits : Z;
  cache_hit_rate : Q;
  total_cost_saved : Q;
  total_tokens_saved : Z
}.
End CacheStats.

Definition sum_Z (l : list Z) : Z := List.fold_left Z.add l 0.
Definition sum_Q (l : list Q) : Q := List.fold_left Qplus l 0%Q.

(** [select_fault]: the select over [usage_logs] raises.  The rate is
    a float in the code, the quotient rounded; it is read here as the
    quotient, of which only the guard against division by 0 and the
    bounds 0 and 1, which the rounding keeps, are used. *)
Definition get_cache_stats (select_fault : bool) (db : Database) (user_id : string)
    : HTTPException + CacheStats.t :=
  if select_fault then inl internal_error
  else
    let logs := List.filter (fun l => String.eqb (UsageLog.user_id l) user_id)
                  (usage_logs db) in
    let hits := List.filter UsageLog.cache_hit logs in
    let total_requests := Z.of_nat (List.length logs) in
    let cache_hits := Z.of_nat (List.length hits) in
    let cache_hit_rate :=
      if 0 <? total_requests
      then (inject_Z cache_hits / inject_Z total_requests)%Q
      else 0%Q in
    let total_cost_saved := sum_Q (List.map UsageLog.cost hits) in
    let total_tokens_saved := sum_Z (List.map UsageLog.tokens_used hits) in
    inr (CacheStats.Make total_requests cache_hits cache_hit_rate
           total_cost_saved total_tokens_saved).

End Proxy.

(** ** [app/services/subscription_service.py] *)

(** The plan a subscription is joined with, a dictionary: a key that is
    missing or null is [None]; a flag is kept by its truth value. *)
Module Plan.
Record t := Make {
  name : option string;
  monthly_requests : option Z;
  max_api_keys : option Z;
  similarity_threshold_custom : bool;
  advanced_analytics : bool;
  priority_support : bool;
  sso_integration : bool;
  white_label : bool;
  ab_testing : bool;
  webhooks : bool;
  features : gmap string bool   (* each named feature: is its value other than [False]? *)
}.
(** The dictionary [{}]. *)
Definition empty : t :=
  Make None None None false false false false false false false ∅.
End Plan.

Module Subscription.
Record t := Make {
  status : string;
  subscription_plans : option Plan.t   (* [None]: the row was read without the join *)
}.
(** [subscription.get("subscription_plans", {})] *)
Definition plan (s : t) : Plan.t := default Plan.empty (subscription_plans s).
End Subscription.

(** A row of [monthly_usage]. *)
Module MonthlyUsage.
Record t := Make {
  id : Z;
  user_id : string;
  month_year : string;
  requests_used : Z;
  cache_hits : Z;
  cache_misses : Z;
  tokens_saved : Z;
  cost_saved : Q
}.
End MonthlyUsage.

(** The dictionary [check_usage_limits] answers with. *)
Module UsageStatus.
Record t := Make {
  within_limits : bool;
  current_usage : Z;
  monthly_limit : option Z;
  overage : Z;
  plan_name : string
}.
End UsageStatus.

(** What the store answers to the subscription service. *)
Record SubscriptionWorld := {
  current_month : string;                          (* [datetime.now().strftime("%Y-%m")] *)
  select_subscription : Db.Result Subscription.t;  (* the subscription joined with its plan *)
  select_free_plan : Db.Result Plan.t;
  select_existing : Db.Result string;              (* the bare row; its [status] *)
  insert_subscription_fault : bool;
  select_usage_fault : bool;
  write_usage_fault : bool;
  select_user_feature :                            (* the [enabled] column of a user feature *)
    string -> string -> Db.Result bool
}.

Module SubscriptionService.

(** The last resort of [assign_free_plan]. *)
Definition minimal_free_plan : Subscription.t :=
  Subscription.Make "active"
    (Some (Plan.Make (Some "free") (Some 1000) (Some 1)
             false false false false false false false ∅)).

(** The effect of the insert on the table of subscriptions is not
    followed; the function is read for the subscription it returns. *)
Definition assign_free_plan (w : SubscriptionWorld) (user_id : string) : Subscription.t :=
  match select_free_plan w with
  | Db.Raised => minimal_free_plan
  | Db.NoData => minimal_free_plan     (* raise Exception("Free plan not found in database") *)
  | Db.Data free_plan =>
      match select_existing w with
      | Db.Raised => minimal_free_plan
      | Db.Data status => Subscription.Make status None
      | Db.NoData =>
          if insert_subscription_fault w then minimal_free_plan
          else Subscription.Make "active" (Some free_plan)
      end
  end.

Definition get_user_subscription (w : SubscriptionWorld) (user_id : string) : Subscription.t :=
  match select_subscription w with
  | Db.Data subscription => subscription
  | Db.NoData => assign_free_plan w user_id
  | Db.Raised => assign_free_plan w user_id   (* "Return free plan as fallback" *)
  end.

Definition usage_row (user_id month : string) (r : MonthlyUsage.t) : bool :=
  String.eqb (MonthlyUsage.user_id r) user_id
  && String.eqb (MonthlyUsage.month_year r) month.

Definition check_usage_limits (w : SubscriptionWorld) (monthly_usage : list MonthlyUsage.t)
    (user_id : string) : UsageStatus.t :=
  let subscription := get_user_subscription w user_id in
  let plan := Subscription.plan subscription in
  match Db.single (select_usage_fault w)
          (List.filter (usage_row user_id (current_month w)) monthly_usage) with
  | Db.Raised =>
      (* "Default to within limits on error" *)
      UsageStatus.Make true 0 (Some 1000) 0 "free"
  | usage_result =>
      let current_usage :=
        match usage_result with
        | Db.Data r => MonthlyUsage.requests_used r
        | _ => 0
        end in
      let monthly_limit := Plan.monthly_requests plan in
      UsageStatus.Make
        (match monthly_limit with
         | None => true
         | Some limit => current_usage <? limit
         end)
        current_usage
        monthly_limit
        (match monthly_limit with
         | Some limit => if limit =? 0 then 0 else Z.max 0 (current_usage - limit)
         | None => 0
         end)
        (default "free" (Plan.name plan))
  end.

(** [increment_usage(self, user_id, requests_count=1, cache_hit=False)] *)
Definition increment_usage (w : SubscriptionWorld) (monthly_usage : list MonthlyUsage.t)
    (user_id : string) (requests_count : Z) (cache_hit : bool) : list MonthlyUsage.t :=
  match Db.single (select_usage_fault w)
          (List.filter (usage_row user_id (current_month w)) monthly_usage) with
  | Db.Raised => monthly_usage  (* except: "Error incrementing usage" *)
  | Db.Data existing =>
      if write_usage_fault w then monthly_usage
      else
        List.map
          (fun r =>
             if MonthlyUsage.id r =? MonthlyUsage.id existing then
               MonthlyUsage.Make (MonthlyUsage.id r) (MonthlyUsage.user_id r)
                 (MonthlyUsage.month_year r)
                 (MonthlyUsage.requests_used existing + requests_count)
                 (if cache_hit then MonthlyUsage.cache_hits existing + 1
                  else MonthlyUsage.cache_hits r)
                 (if cache_hit then MonthlyUsage.cache_misses r
                  else MonthlyUsage.cache_misses existing + 1)
                 (MonthlyUsage.tokens_saved r) (MonthlyUsage.cost_saved r)
             else r)
          monthly_usage
  | Db.NoData =>               (* [else]: a read of a single row never gets here *)
      if write_usage_fault w then monthly_usage
      else
        monthly_usage ++
        [MonthlyUsage.Make
           (1 + List.fold_right Z.max 0 (List.map MonthlyUsage.id monthly_usage))
           user_id (current_month w) requests_count
           (if cache_hit then 1 else 0) (if cache_hit then 0 else 1) 0 0%Q]
  end.

Definition has_feature (w : SubscriptionWorld) (user_id feature_name : string) : bool :=
  let subscription := get_user_subscription w user_id in
  let plan := Subscription.plan subscription in
  if String.eqb feature_name "custom_similarity" then Plan.similarity_threshold_custom plan
  else if String.eqb feature_name "advanced_analytics" then Plan.advanced_analytics plan
  else if String.eqb feature_name "priority_support" then Plan.priority_support plan
  else if String.eqb feature_name "sso" then Plan.sso_integration plan
  else if String.eqb feature_name "white_label" then Plan.white_label plan
  else if String.eqb feature_name "ab_testing" then Plan.ab_testing plan
  else if String.eqb feature_name "webhooks" then Plan.webhooks plan
  else
    match Plan.features plan !! feature_name with
    | Some not_false => not_false
    | None =>
        match select_user_feature w user_id feature_name with
        | Db.Data enabled => enabled
        | Db.NoData => false
        | Db.Raised => false     (* except: "Error checking feature access" *)
        end
    end.

End SubscriptionService.

(** ** [app/utils/feature_gates.py] *)

Module FeatureGates.

Import SubscriptionService.

(** The dictionary [check_usage_limit] returns when it admits. *)
Module Admission.
Record t := Make { allow : bool; overage : bool; overage_amount : option Z }.
End Admission.

(** [if not user_id]: no user, or the empty string. *)
Definition no_user (user_id : option string) : bool :=
  match user_id with
  | None => true
  | Some u => String.eqb u EmptyString
  end.

Definition check_usage_limit (w : SubscriptionWorld) (monthly_usage : list MonthlyUsage.t)
    (user_id : string) : HTTPException + Admission.t :=
  let usage_status := check_usage_limits w monthly_usage user_id in
  if negb (UsageStatus.within_limits usage_status) then
    (* "For free tier, block the request" *)
    if String.eqb (UsageStatus.plan_name usage_status) "free" then
      inl {| status_code := 429;
             detail := MonthlyLimit (UsageStatus.current_usage usage_status)
                         (UsageStatus.monthly_limit usage_status) |}
    else
      (* "For paid tiers, allow overage but track it" *)
      inr (Admission.Make true true (Some (UsageStatus.overage usage_status)))
  else inr (Admission.Make true false None).

(** The wrapper of [requires_feature(feature_name)], up to the call of
    the function it guards: [None] when that call is reached. *)
Definition requires_feature (feature_name : string) (w : SubscriptionWorld)
    (user_id : option string) : option HTTPException :=
  match user_id with
  | None => Some {| status_code := 401; detail := Message |}
  | Some u =>
      if String.eqb u EmptyString then Some {| status_code := 401; detail := Message |}
      else if negb (has_feature w u feature_name)
      then Some {| status_code := 403; detail := FeatureUpgrade feature_name |}
      else None
  end.

End FeatureGates.

(** ** Python built-ins the rate limiter leans on *)

Module Py.

(** [str(n)] for an [int]. *)
Definition str (n : Z) : string := DecimalString.NilZero.string_of_int (Z.to_int n).

(** [s.split(":")] *)
Fixpoint split_colon (s : string) : list string :=
  match s with
  | EmptyString => [EmptyString]
  | String c rest =>
      if Ascii.eqb c ":" then EmptyString :: split_colon rest
      else match split_colon rest with
           | [] => [String c EmptyString]
           | part :: parts => String c part :: parts
           end
  end.

(** White space as [int] strips it. *)
Definition is_space (c : ascii) : bool :=
  let n := Json.ord c in
  ((9 <=? n) && (n <=? 13)) || (n =? 32) || (n =? 133) || (n =? 160).

Definition is_digit (c : ascii) : bool :=
  let n := Json.ord c in (48 <=? n) && (n <=? 57).

Fixpoint lstrip (s : string) : string :=
  match s with
  | EmptyString => EmptyString
  | String c rest => if is_space c then lstrip rest else s
  end.

Fixpoint rstrip (s : string) : string :=
  match s with
  | EmptyString => EmptyString
  | String c rest =>
      match rstrip rest with
      | EmptyString => if is_space c then EmptyString else String c EmptyString
      | rest' => String c rest'
      end
  end.

(** The digits of a numeral in which single underscores may separate
    digits; [None] when there is no digit, or an underscore is not
    between two digits, or another character occurs. *)
Fixpoint ungroup (after_digit : bool) (s : string) : option string :=
  match s with
  | EmptyString => if after_digit then Some EmptyString else None
  | String c rest =>
      if is_digit c then option_map (String c) (ungroup true rest)
      else if Ascii.eqb c "_" && after_digit then ungroup false rest
      else None
  end.

(** [int(s)] for a [str]; [None] is [ValueError]. *)
Definition int (s : string) : option Z :=
  let s := rstrip (lstrip s) in
  let '(negative, s) :=
    match s with
    | String c rest =>
        if Ascii.eqb c "-" then (true, rest)
        else if Ascii.eqb c "+" then (false, rest)
        else (false, s)
    | EmptyString => (false, s)
    end in
  match ungroup false s with
  | None => None
  | Some digits =>
      match DecimalString.NilEmpty.uint_of_string digits with
      | None => None
      | Some d => Some (if negative then - Z.of_uint d else Z.of_uint d)
      end
  end.

End Py.

(** ** [app/middleware/usage_middleware.py] *)

(** What a middleware does with a request: hand it on with
    [call_next], or answer itself with a [JSONResponse]. *)
Inductive Response : Type :=
| CallNext
| JSONResponse (status : Z) (code : string) (headers : list (string * string)).

Module RateLimitMiddleware.

(** "Rate limits per minute by plan" *)
Definition rate_limits : gmap string Z :=
  list_to_map [("free", 10); ("startup", 100); ("business", 500); ("enterprise", -1)].

Definition excluded_paths : list string :=
  ["/"; "/health"; "/docs"; "/openapi.json"; "/api/auth/login"; "/api/auth/register"].

(** [int(k.split(":")[1])]; [None] is [IndexError] or [ValueError]. *)
Definition minute_of_key (k : string) : option Z :=
  match Py.split_colon k !! 1%nat with
  | None => None
  | Some part => Py.int part
  end.

(** The list comprehension over [self.request_counts.keys()]. *)
Fixpoint keys_to_remove (keys : list string) (current_minute : Z) : option (list string) :=
  match keys with
  | [] => Some []
  | k :: rest =>
      match minute_of_key k with
      | None => None
      | Some minute =>
          match keys_to_remove rest current_minute with
          | None => None
          | Some ks => Some (if minute <? current_minute - 1 then k :: ks else ks)
          end
      end
  end.

Definition keys (request_counts : gmap string Z) : list string :=
  (map_to_list request_counts).*1.

(** [details] is what [subscription_service.get_subscription_details]
    gives: the name of the plan, nothing, or an exception; the service
    of this repository has no such method, see [Limiter] below.
    [time] is [time.time()]. *)
Definition _check_rate_limit (details : Db.Result string) (time : Q)
    (request_counts : gmap string Z) (user_id : string) : gmap string Z * bool :=
  match details with
  | Db.Raised => (request_counts, true)     (* "Allow on error" *)
  | Db.NoData => (request_counts, true)     (* "Allow if no subscription found" *)
  | Db.Data plan_name =>
      let rate_limit := default 10 (rate_limits !! plan_name) in
      if rate_limit =? -1 then (request_counts, true)
      else
        let current_minute := Qfloor (time / 60) in
        let key := (user_id ++ ":" ++ Py.str current_minute)%string in
        let current_count := default 0 (request_counts !! key) in
        if rate_limit <=? current_count then (request_counts, false)
        else
          let request_counts := <[key := current_count + 1]> request_counts in
          match keys_to_remove (keys request_counts) current_minute with
          | None => (request_counts, true)  (* the comprehension raised: "Allow on error" *)
          | Some ks => (foldr delete request_counts ks, true)
          end
  end.

(** [user_id] is what [_get_user_info] found for the request. *)
Definition dispatch (details : Db.Result string) (time : Q)
    (request_counts : gmap string Z) (path : string) (user_id : option string)
    : gmap string Z * Response :=
  if bool_decide (path ∈ excluded_paths) then (request_counts, CallNext)
  else if negb (String.prefix "/api/" path) then (request_counts, CallNext)
  else if FeatureGates.no_user user_id then (request_counts, CallNext)
  else
    let '(request_counts, can_proceed) :=
      _check_rate_limit details time request_counts (default EmptyString user_id) in
    if can_proceed then (request_counts, CallNext)
    else (request_counts,
          JSONResponse 429 "RATE_LIMIT_EXCEEDED" [("Retry-After", "60")]).

End RateLimitMiddleware.

Module FeatureGateMiddleware.

(** "Define which endpoints require which features" *)
Definition feature_requirements : list (string * string) :=
  [ ("/api/analytics/advanced", "advanced_analytics");
    ("/api/models/custom", "custom_models");
    ("/api/teams", "team_collaboration");
    ("/api/cache/advanced", "advanced_caching") ].

Definition required_feature (path : string) : option string :=
  snd <$> List.find (fun pf => String.prefix (fst pf) path) feature_requirements.

Definition dispatch (w : SubscriptionWorld) (path : string) (user_id : option string)
    : Response :=
  match required_feature path with
  | None => CallNext
  | Some feature =>
      if FeatureGates.no_user user_id then JSONResponse 401 EmptyString []
      else if negb (SubscriptionService.has_feature w (default EmptyString user_id) feature)
      then JSONResponse 403 "FEATURE_NOT_AVAILABLE" []
      else CallNext
  end.

End FeatureGateMiddleware.

Module UsageTrackingMiddleware.

(** A keyword argument of a call. *)
Inductive value : Type :=
| Str (s : string)
| Int (n : Z)
| Bool (b : bool)
| Float (x : Q).

Definition kwargs : Type := list (string * value).

Fixpoint get (name : string) (kw : kwargs) : option value :=
  match kw with
  | [] => None
  | (k, v) :: rest => if String.eqb k name then Some v else get name rest
  end.

(** Binding the keywords to the parameters
    [(user_id, requests_count=1, cache_hit=False)] of
    [SubscriptionService.increment_usage].  [None] is the [TypeError]
    of a keyword that names no parameter, or of a missing [user_id].
    The callers pass values of the annotated types only. *)
Definition bind_increment_usage (kw : kwargs) : option (string * Z * bool) :=
  if forallb (fun kv => bool_decide (fst kv ∈ ["user_id"; "requests_count"; "cache_hit"])) kw
  then
    match get "user_id" kw with
    | Some (Str user_id) =>
        let requests_count :=
          match get "requests_count" kw with Some (Int n) => n | _ => 1 end in
        let cache_hit :=
          match get "cache_hit" kw with Some (Bool b) => b | _ => false end in
        Some (user_id, requests_count, cache_hit)
    | _ => None
    end
  else None.

(** The call of [subscription_service.increment_usage] with the
    keywords [kw]. *)
Definition call_increment_usage (w : SubscriptionWorld)
    (monthly_usage : list MonthlyUsage.t) (kw : kwargs)
    : option (list MonthlyUsage.t) :=
  match bind_increment_usage kw with
  | None => None
  | Some (user_id, requests_count, cache_hit) =>
      Some (SubscriptionService.increment_usage w monthly_usage user_id
              requests_count cache_hit)
  end.

(** A row [_log_detailed_usage] writes to [usage_logs]. *)
Module UsageData.
Record t := Make {
  user_id : string;
  api_key_id : option string;
  cache_hit : bool;
  tokens_used : Z;
  cost : Q;
  response_time_ms : Z;
  status_code : Z
}.
End UsageData.

Record Tables := {
  monthly_usage : list MonthlyUsage.t;
  detailed_logs : list UsageData.t
}.

(** [insert_fault]: the import or the insert raises. *)
Definition _log_detailed_usage (insert_fault : bool) (tables : Tables)
    (user_id : string) (api_key_id : option string) (is_cache_hit : bool)
    (tokens_saved : Z) (cost_saved : Q) (response_time_ms status_code : Z) : Tables :=
  if insert_fault then tables      (* except: "Error logging detailed usage" *)
  else
    let usage_data :=
      UsageData.Make user_id api_key_id is_cache_hit
        (if is_cache_hit then 0 else tokens_saved)
        (if is_cache_hit then 0%Q else cost_saved)
        response_time_ms status_code in
    {| monthly_usage := monthly_usage tables;
       detailed_logs := detailed_logs tables ++ [usage_data] |}.

Definition _track_usage (w : SubscriptionWorld) (insert_fault : bool) (tables : Tables)
    (user_id : string) (api_key_id : option string) (is_cache_hit : bool)
    (tokens_saved : Z) (cost_saved : Q) (response_time_ms status_code : Z) : Tables :=
  let kw :=
    if is_cache_hit then
      [("user_id", Str user_id); ("is_cache_hit", Bool true);
       ("tokens_saved", Int tokens_saved); ("cost_saved", Float cost_saved)]
    else
      [("user_id", Str user_id); ("is_cache_hit", Bool false)] in
  match call_increment_usage w (monthly_usage tables) kw with
  | None => tables                 (* except: "Error tracking usage for user" *)
  | Some monthly_usage' =>
      _log_detailed_usage insert_fault
        {| monthly_usage := monthly_usage'; detailed_logs := detailed_logs tables |}
        user_id api_key_id is_cache_hit tokens_saved cost_saved
        response_time_ms status_code
  end.

End UsageTrackingMiddleware.

(** ** [app/utils/feature_gates.py]: plans and keys *)

(** The [detail] of the exceptions the plan gate and the key
    endpoints raise, and what leaves a handler. *)
Inductive GateDetail : Type :=
| Text
| PlanUpgrade (current_plan required_plan : string)
| KeyLimit (plan_name : string) (limit : option Z).

Record GateException := { gate_status : Z; gate_detail : GateDetail }.

Inductive Outcome (A : Type) : Type :=
| Raise (e : GateException)   (* an [HTTPException] *)
| Crash                       (* any other exception leaves the handler *)
| Return (a : A).
Arguments Raise {A} e.
Arguments Crash {A}.
Arguments Return {A} a.

Definition authentication_required : GateException :=
  {| gate_status := 401; gate_detail := Text |}.

Module RequiresPlan.

Import SubscriptionService.

Definition plan_hierarchy : gmap string Z :=
  list_to_map [("free", 0); ("startup", 1); ("business", 2); ("enterprise", 3)].

(** [subscription.get("subscription_plans", {}).get("name", "free")] *)
Definition user_plan (subscription : Subscription.t) : string :=
  default "free" (Plan.name (Subscription.plan subscription)).

(** The wrapper of [requires_plan(min_plan)], up to the call of the
    function it guards: [None] when that call is reached. *)
Definition requires_plan (min_plan : string) (w : SubscriptionWorld)
    (user_id : option string) : option GateException :=
  if FeatureGates.no_user user_id then Some authentication_required
  else
    let subscription := get_user_subscription w (default EmptyString user_id) in
    let user_plan := user_plan subscription in
    if default 0 (plan_hierarchy !! user_plan) <? default 999 (plan_hierarchy !! min_plan)
    then Some {| gate_status := 403; gate_detail := PlanUpgrade user_plan min_plan |}
    else None.

End RequiresPlan.

(** A row of [api_keys], the [ApiKey] of [app/models/auth.py]. *)
Module ApiKey.
Record t := Make {
  id : string;
  user_id : string;
  key_name : string;
  api_key : string;
  is_active : bool
}.
Definition deactivate (k : t) : t :=
  Make (id k) (user_id k) (key_name k) (api_key k) false.
End ApiKey.

(** What the store and the system answer to the key endpoints. *)
Record KeyWorld := {
  count_keys_fault : bool;     (* the select of [can_create_api_key] raises *)
  import_fault : bool;         (* [from database.supabase_client import ...] raises *)
  token_urlsafe : string;      (* [secrets.token_urlsafe(32)] *)
  new_key_id : string;         (* the key the database gives the new row *)
  insert_key_fault : bool;     (* the client or the insert raises *)
  list_keys_fault : bool;      (* the client or the select raises *)
  update_key_fault : bool      (* the client or the update raises *)
}.

Module ApiKeys.

Import SubscriptionService.

(** [.eq("user_id", user_id).eq("is_active", True)] *)
Definition active_key (user_id : string) (k : ApiKey.t) : bool :=
  String.eqb (ApiKey.user_id k) user_id && ApiKey.is_active k.

(** [plan.get("max_api_keys", 1)].  A plan that was read carries the
    column, so [None] is its null there; the dictionary [{}] of a
    subscription read without its plan has no such key. *)
Definition max_api_keys (subscription : Subscription.t) : option Z :=
  match Subscription.subscription_plans subscription with
  | None => Some 1
  | Some plan => Plan.max_api_keys plan
  end.

(** [SubscriptionService.can_create_api_key] *)
Definition can_create_api_key (w : SubscriptionWorld) (kw : KeyWorld)
    (api_keys : list ApiKey.t) (user_id : string) : bool :=
  let subscription := get_user_subscription w user_id in
  if count_keys_fault kw then false      (* except: "Error checking API key limit" *)
  else
    let current_count :=
      Z.of_nat (List.length (List.filter (active_key user_id) api_keys)) in
    match max_api_keys subscription with
    | None => true
    | Some max_keys => current_count <? max_keys
    end.

(** [feature_gates.check_api_key_limit]; [None]: it returns [True]. *)
Definition check_api_key_limit (w : SubscriptionWorld) (kw : KeyWorld)
    (api_keys : list ApiKey.t) (user_id : string) : option GateException :=
  if negb (can_create_api_key w kw api_keys user_id) then
    let subscription := get_user_subscription w user_id in
    Some {| gate_status := 403;
            gate_detail := KeyLimit (RequiresPlan.user_plan subscription)
                             (max_api_keys subscription) |}
  else None.

(** ** [app/routers/subscription.py] *)

Definition server_error : GateException := {| gate_status := 500; gate_detail := Text |}.
Definition not_found : GateException := {| gate_status := 404; gate_detail := Text |}.

(** [POST /api-keys]; the answer carries the new key. *)
Definition create_api_key (w : SubscriptionWorld) (kw : KeyWorld)
    (api_keys : list ApiKey.t) (user_id : option string) (key_name : string)
    : list ApiKey.t * Outcome string :=
  if FeatureGates.no_user user_id then (api_keys, Raise authentication_required)
  else
    let user_id := default EmptyString user_id in
    match check_api_key_limit w kw api_keys user_id with
    | Some e => (api_keys, Raise e)
    | None =>
        if import_fault kw then (api_keys, Crash)
        else if insert_key_fault kw then (api_keys, Raise server_error)
        else
          let api_key := ("sk-" ++ token_urlsafe kw)%string in
          ((api_keys ++ [ApiKey.Make (new_key_id kw) user_id key_name api_key true])%list,
           Return api_key)
    end.

(** [key["api_key"][:8] + "..." + key["api_key"][-4:] if key["api_key"] else None] *)
Definition mask (api_key : string) : option string :=
  if String.eqb api_key EmptyString then None
  else Some (String.substring 0 8 api_key ++ "..."
             ++ String.substring (String.length api_key - 4) 4 api_key)%string.

(** [GET /api-keys]: the rows of the user, each with its key masked. *)
Definition list_api_keys (kw : KeyWorld) (api_keys : list ApiKey.t)
    (user_id : option string) : Outcome (list (ApiKey.t * option string)) :=
  if FeatureGates.no_user user_id then Raise authentication_required
  else if import_fault kw then Crash
  else if list_keys_fault kw then Raise server_error
  else
    Return (List.map (fun k => (k, mask (ApiKey.api_key k)))
              (List.filter
                 (fun k => String.eqb (ApiKey.user_id k) (default EmptyString user_id))
                 api_keys)).

(** [.eq("id", key_id).eq("user_id", user_id)] *)
Definition own_key (key_id user_id : string) (k : ApiKey.t) : bool :=
  String.eqb (ApiKey.id k) key_id && String.eqb (ApiKey.user_id k) user_id.

(** [DELETE /api-keys/{key_id}] *)
Definition delete_api_key (kw : KeyWorld) (api_keys : list ApiKey.t)
    (key_id : string) (user_id : option string) : list ApiKey.t * Outcome unit :=
  if FeatureGates.no_user user_id then (api_keys, Raise authentication_required)
  else if import_fault kw then (api_keys, Crash)
  else if update_key_fault kw then (api_keys, Raise server_error)
  else
    let user_id := default EmptyString user_id in
    if existsb (own_key key_id user_id) api_keys then
      (List.map (fun k => if own_key key_id user_id k then ApiKey.deactivate k else k)
         api_keys,
       Return tt)
    else (api_keys, Raise not_found).

End ApiKeys.

(** ** [app/routers/proxy.py]: the owner of a request *)

Module Auth.

(** [s.replace("Bearer ", "")]: every occurrence, found from the left,
    is taken out; [skip] counts the characters of an occurrence still
    to be dropped. *)
Fixpoint remove_bearer (skip : nat) (s : string) : string :=
  match s with
  | EmptyString => EmptyString
  | String c rest =>
      match skip with
      | S k => remove_bearer k rest
      | O =>
          if String.prefix "Bearer " s then remove_bearer 6 rest
          else String c (remove_bearer 0 rest)
      end
  end.

Definition test_user_id : string := "00000000-0000-0000-0000-000000000000".

(** [.eq("api_key", api_key).eq("is_active", True)] *)
Definition presented (api_key : string) (k : ApiKey.t) : bool :=
  String.eqb (ApiKey.api_key k) api_key && ApiKey.is_active k.

(** [lookup_fault]: the select raises.  The [user_id] of a row is a
    UUID, as the [ApiKey] model has it. *)
Definition get_user_from_api_key (lookup_fault : bool) (api_keys : list ApiKey.t)
    (authorization : option string) : HTTPException + string :=
  if FeatureGates.no_user authorization then inr test_user_id
  else
    let api_key := remove_bearer 0 (default EmptyString authorization) in
    match Db.single lookup_fault (List.filter (presented api_key) api_keys) with
    | Db.NoData =>               (* [if not result.data]: not what [.single()] answers *)
        inl {| status_code := 401; detail := Message |}
    | Db.Data row => inr (ApiKey.user_id row)
    | Db.Raised => inr test_user_id     (* "API key validation failed, using test user" *)
    end.

End Auth.

(** ** [UsageTrackingMiddleware.dispatch] *)

Module UsageTracking.

Import UsageTrackingMiddleware.

Definition excluded_paths : list string :=
  ["/"; "/health"; "/docs"; "/openapi.json"; "/api/auth/login"; "/api/auth/register";
   "/api/auth/refresh"; "/api/subscriptions/plans"; "/api/subscriptions/webhook"].

(** Iterating over the dictionary [check_usage_limits] answers with
    gives its keys, in the order of the literal. *)
Definition iterate (status : UsageStatus.t) : list string :=
  ["within_limits"; "current_usage"; "monthly_limit"; "overage"; "plan_name"].

(** [a, b = items]; [None] is the [ValueError] of an iterable that has
    not exactly two items. *)
Definition unpack_pair {A : Type} (items : list A) : option (A * A) :=
  match items with
  | [a; b] => Some (a, b)
  | _ => None
  end.

(** The response of the wrapped application, read through its
    headers.  [cost_saved] is what [float] makes of its header, [None]
    its [ValueError]. *)
Record Served := {
  served_status : Z;
  x_cache_hit : option string;
  x_tokens_saved : option string;
  cost_saved : option Q
}.

(** What the middleware answers: its own 429, or what [call_next]
    gave, response or exception, at the last of its [calls]. *)
Inductive Answer : Type :=
| UsageLimitExceeded (message : string)
| Next (calls : nat).

(** What remains of [dispatch] once [call_next] has answered inside
    the [try]. *)
Definition after_call_next (w : SubscriptionWorld) (insert_fault : bool)
    (tables : Tables) (user_id api_key_id : option string)
    (call_next : Outcome Served) (response_time_ms : Z) : Tables * Answer :=
  match call_next with
  | Raise _ => (tables, Next 1)          (* except HTTPException: raise *)
  | Crash => (tables, Next 2)            (* "Continue with request even if tracking fails" *)
  | Return response =>
      let is_cache_hit :=
        match x_cache_hit response with
        | Some v => String.eqb v "true"
        | None => false
        end in
      match match x_tokens_saved response with
            | Some v => Py.int v
            | None => Some 0
            end, cost_saved response with
      | Some tokens_saved, Some cost_saved =>
          if FeatureGates.no_user user_id then (tables, Next 1)
          else
            (_track_usage w insert_fault tables (default EmptyString user_id)
               api_key_id is_cache_hit tokens_saved cost_saved response_time_ms
               (served_status response),
             Next 1)
      | _, _ => (tables, Next 2)
      end
  end.

(** [user_id] and [api_key_id] are what [_get_user_info] found. *)
Definition dispatch (w : SubscriptionWorld) (insert_fault : bool) (tables : Tables)
    (path method : string) (user_id api_key_id : option string)
    (call_next : Outcome Served) (response_time_ms : Z) : Tables * Answer :=
  if bool_decide (path ∈ excluded_paths) then (tables, Next 1)
  else if negb (String.prefix "/api/" path) then (tables, Next 1)
  else if String.eqb method "OPTIONS" then (tables, Next 1)
  else if FeatureGates.no_user user_id then
    after_call_next w insert_fault tables user_id api_key_id call_next response_time_ms
  else
    let status :=
      SubscriptionService.check_usage_limits w (monthly_usage tables)
        (default EmptyString user_id) in
    match unpack_pair (iterate status) with
    | None => (tables, Next 1)           (* ValueError, caught by [except Exception] *)
    | Some (can_proceed, limit_message) =>
        if String.eqb can_proceed EmptyString
        then (tables, UsageLimitExceeded limit_message)
        else
          after_call_next w insert_fault tables user_id api_key_id call_next
            response_time_ms
    end.

End UsageTracking.

(** ** [upgrade_plan] and [POST /subscription/upgrade] *)

(** A row of [subscription_plans], and one of [user_subscriptions];
    the dates of the period are not followed. *)
Module PlanRow.
Record t := Make { id : Z; plan : Plan.t }.
End PlanRow.

Module SubscriptionRow.
Record t := Make {
  user_id : string;
  plan_id : Z;
  status : string;
  stripe_subscription_id : option string
}.
End SubscriptionRow.

Module Upgrade.

(** [.eq("name", plan_name)] *)
Definition named (plan_name : string) (p : PlanRow.t) : bool :=
  match Plan.name (PlanRow.plan p) with
  | Some name => String.eqb name plan_name
  | None => false
  end.

(** [if stripe_subscription_id]: given, and not the empty string. *)
Definition given (stripe_subscription_id : option string) : bool :=
  negb (FeatureGates.no_user stripe_subscription_id).

(** The update of [upgrade_plan], as a function of a row. *)
Definition moved (user_id : string) (new_plan : PlanRow.t)
    (stripe_subscription_id : option string) (r : SubscriptionRow.t)
    : SubscriptionRow.t :=
  if String.eqb (SubscriptionRow.user_id r) user_id then
    SubscriptionRow.Make (SubscriptionRow.user_id r) (PlanRow.id new_plan) "active"
      (if given stripe_subscription_id then stripe_subscription_id
       else SubscriptionRow.stripe_subscription_id r)
  else r.

(** [SubscriptionService.upgrade_plan]; [None] is the exception it
    raises again.  It answers with the first row it updated and the
    plan. *)
Definition upgrade_plan (select_fault update_fault : bool) (plans : list PlanRow.t)
    (subscriptions : list SubscriptionRow.t) (user_id plan_name : string)
    (stripe_subscription_id : option string)
    : list SubscriptionRow.t * option (SubscriptionRow.t * Plan.t) :=
  match Db.single select_fault (List.filter (named plan_name) plans) with
  | Db.Raised => (subscriptions, None)
  | Db.NoData => (subscriptions, None)    (* raise Exception("Plan ... not found") *)
  | Db.Data new_plan =>
      if update_fault then (subscriptions, None)
      else
        let subscriptions' :=
          List.map (moved user_id new_plan stripe_subscription_id) subscriptions in
        match List.filter
                (fun r => String.eqb (SubscriptionRow.user_id r) user_id)
                subscriptions' with
        | [] => (subscriptions', None)    (* [result.data[0]]: IndexError *)
        | updated :: _ => (subscriptions', Some (updated, PlanRow.plan new_plan))
        end
  end.

(** [create_upgrade_session] of [app/routers/subscription.py] *)
Definition create_upgrade_session (select_fault update_fault : bool)
    (plans : list PlanRow.t) (subscriptions : list SubscriptionRow.t)
    (user_id : option string) (plan_name : string)
    : list SubscriptionRow.t * Outcome (SubscriptionRow.t * Plan.t) :=
  if FeatureGates.no_user user_id then (subscriptions, Raise authentication_required)
  else if negb (bool_decide (plan_name ∈ ["startup"; "business"; "enterprise"]))
  then (subscriptions, Raise {| gate_status := 400; gate_detail := Text |})
  else
    match upgrade_plan select_fault update_fault plans subscriptions
            (default EmptyString user_id) plan_name None with
    | (subscriptions, Some updated) => (subscriptions, Return updated)
    | (subscriptions, None) =>
        (subscriptions, Raise {| gate_status := 500; gate_detail := Text |})
    end.

End Upgrade.

(** ** The rate limiter as the service stands *)

Module Limiter.

(** [subscription_service.get_subscription_details(user_id)]:
    [SubscriptionService] has no method of that name, so the call
    raises [AttributeError], whoever the user is. *)
Definition get_subscription_details (user_id : string) : Db.Result string :=
  Db.Raised.

(** [RateLimitMiddleware.dispatch] on the service of
    [app/services/subscription_service.py]. *)
Definition dispatch (time : Q) (request_counts : gmap string Z) (path : string)
    (user_id : option string) : gmap string Z * Response :=
  RateLimitMiddleware.dispatch
    (get_subscription_details (default EmptyString user_id)) time request_counts
    path user_id.

(** Requests, each with the reading of the clock, its path and its
    user, one after the other on the one table of counters. *)
Fixpoint serve (requests : list (Q * string * option string))
    (request_counts : gmap string Z) : gmap string Z * list Response :=
  match requests with
  | [] => (request_counts, [])
  | (time, path, user_id) :: rest =>
      let '(request_counts, response) := dispatch time request_counts path user_id in
      let '(request_counts, responses) := serve rest request_counts in
      (request_counts, response :: responses)
  end.

End Limiter.

(** * Properties *)

(** ** SHA-256 agrees with the test vectors of FIPS 180-4 *)

Example hexdigest_abc :
  Sha256.hexdigest "abc"
  = "ba7816bf8f01cfea414140de5dae2223b00361a396177a9cb410ff61f20015ad".
Proof. vm_compute. reflexivity. Qed.

Example hexdigest_two_blocks :
  Sha256.hexdigest "abcdbcdecdefdefgefghfghighijhijkijkljklmklmnlmnomnopnopq"
  = "248d6a61d20638b8e5c026930c3e6039a33ce45964ff2167f6ecedd419db06c1".
Proof. vm_compute. reflexivity. Qed.

(** ** The order of dictionary items *)

Section ItemOrder.

Lemma ascii_compare_refl (c : ascii) : Ascii.compare c c = Eq.
Proof. unfold Ascii.compare. apply N.compare_refl. Qed.

Lemma ascii_compare_lt_trans (a b c : ascii) :
  Ascii.compare a b = Lt -> Ascii.compare b c = Lt -> Ascii.compare a c = Lt.
Proof.
  unfold Ascii.compare. rewrite !N.compare_lt_iff. apply N.lt_trans.
Qed.

Lemma string_compare_refl (s : string) : String.compare s s = Eq.
Proof.
  induction s as [|c s IH]; simpl; [reflexivity|].
  now rewrite ascii_compare_refl.
Qed.

Lemma string_compare_lt_trans (a b c : string) :
  String.compare a b = Lt -> String.compare b c = Lt -> String.compare a c = Lt.
Proof.
  revert b c. induction a as [|x a IH]; intros [|y b] [|z c]; simpl; try easy.
  destruct (Ascii.compare x y) eqn:Exy; try easy;
    destruct (Ascii.compare y z) eqn:Eyz; try easy; intros Hab Hbc.
  - apply Ascii.compare_eq_iff in Exy, Eyz. subst.
    rewrite ascii_compare_refl. eauto.
  - apply Ascii.compare_eq_iff in Exy. subst. now rewrite Eyz.
  - apply Ascii.compare_eq_iff in Eyz. subst. now rewrite Exy.
  - now rewrite (ascii_compare_lt_trans _ _ _ Exy Eyz).
Qed.

Lemma string_leb_trans (a b c : string) :
  String.leb a b = true -> String.leb b c = true -> String.leb a c = true.
Proof.
  unfold String.leb.
  destruct (String.compare a b) eqn:Eab; try easy;
    destruct (String.compare b c) eqn:Ebc; try easy; intros _ _.
  - apply String.compare_eq_iff in Eab, Ebc. subst.
    now rewrite string_compare_refl.
  - apply String.compare_eq_iff in Eab. subst. now rewrite Ebc.
  - apply String.compare_eq_iff in Ebc. subst. now rewrite Eab.
  - now rewrite (string_compare_lt_trans _ _ _ Eab Ebc).
Qed.

#[global] Instance item_le_trans : Transitive Json.item_le.
Proof.
  intros [k1 v1] [k2 v2] [k3 v3]. unfold Json.item_le, Json.item_leb. simpl.
  destruct (String.compare k1 k2) eqn:E12; try easy;
    destruct (String.compare k2 k3) eqn:E23; try easy; intros H12 H23.
  - apply String.compare_eq_iff in E12, E23. subst.
    rewrite string_compare_refl. eauto using string_leb_trans.
  - apply String.compare_eq_iff in E12. subst. now rewrite E23.
  - apply String.compare_eq_iff in E23. subst. now rewrite E12.
  - now rewrite (string_compare_lt_trans _ _ _ E12 E23).
Qed.

#[global] Instance item_le_antisym : AntiSymm (=) Json.item_le.
Proof.
  intros [k1 v1] [k2 v2]. unfold Json.item_le, Json.item_leb. simpl.
  rewrite (String.compare_antisym k2 k1).
  destruct (String.compare k1 k2) eqn:E12; simpl; try easy.
  apply String.compare_eq_iff in E12. subst.
  intros H1 H2. f_equal. now apply String.leb_antisym.
Qed.

#[global] Instance item_le_total : Total Json.item_le.
Proof.
  intros [k1 v1] [k2 v2]. unfold Json.item_le, Json.item_leb. simpl.
  rewrite (String.compare_antisym k2 k1).
  destruct (String.compare k1 k2) eqn:E12; simpl; auto.
  apply String.leb_total.
Qed.

End ItemOrder.

(** ** The cache key *)

Lemma sort_items_Permutation (d1 d2 : Json.dict) :
  d1 ≡ₚ d2 -> Json.sort_items d1 = Json.sort_items d2.
Proof.
  intros Hp. unfold Json.sort_items.
  apply (Sorted_unique Json.item_le); try apply Sorted_merge_sort; try apply _.
  now rewrite !merge_sort_Permutation.
Qed.

Lemma dumps_list_Permutation (l1 l2 : list Json.dict) :
  Forall2 Permutation l1 l2 -> Json.dumps_list true l1 = Json.dumps_list true l2.
Proof.
  intros H. unfold Json.dumps_list.
  assert (Hmap : List.map (Json.dumps_dict true) l1 = List.map (Json.dumps_dict true) l2).
  { induction H as [|d1 d2 l1 l2 Hd _ IH]; simpl; [reflexivity|].
    rewrite IH. f_equal. unfold Json.dumps_dict.
    now rewrite (sort_items_Permutation _ _ Hd). }
  now rewrite Hmap.
Qed.

(** Two messages in either order: the witnesses of order sensitivity. *)
Definition question : Json.dict := [("role", "user"); ("content", "What is a cache?")].
Definition answer : Json.dict := [("role", "assistant"); ("content", "A store of answers.")].

(** C7.  [generate_query_hash] is a function of the request that does
    not see the order of the keys inside a message: requests whose
    message lists agree position by position up to the order of the
    items of each message, with the same model, get the same SHA-256
    key.  The order of the messages is kept: two lists that are
    permutations of each other can get different keys. *)
Theorem generate_query_hash_canonical :
  (forall (messages1 messages2 : list Json.dict) (model : string),
      Forall2 Permutation messages1 messages2 ->
      CacheService.generate_query_hash messages1 model
      = CacheService.generate_query_hash messages2 model)
  /\ (exists (messages1 messages2 : list Json.dict) (model : string),
         messages1 ≡ₚ messages2
         /\ CacheService.generate_query_hash messages1 model
            <> CacheService.generate_query_hash messages2 model).
Proof.
  split.
  - intros messages1 messages2 model H.
    unfold CacheService.generate_query_hash, Json.dumps_normalized.
    now rewrite (dumps_list_Permutation _ _ H).
  - exists [question; answer], [answer; question], "gpt-3.5-turbo".
    split; [apply Permutation_swap|].
    vm_compute. discriminate.
Qed.

Lemma generate_query_hash_canonical_witness :
  CacheService.generate_query_hash
    [[("role", "user"); ("content", "hi")]] "gpt-3.5-turbo"
  = CacheService.generate_query_hash
      [[("content", "hi"); ("role", "user")]] "gpt-3.5-turbo".
Proof.
  apply (proj1 generate_query_hash_canonical).
  constructor; [apply Permutation_swap | constructor].
Defined.


(** ** The table of cache entries *)

Section CacheTable.

Import CacheService.

(** The invariant of the data model: keys are distinct, and an owner has
    at most one entry under a hash. *)
Definition unique_ids (entries : list CacheEntry.t) : Prop :=
  NoDup (List.map CacheEntry.id entries).

Definition unique_per_owner (entries : list CacheEntry.t) : Prop :=
  forall query_hash user_id : string,
    (List.length (List.filter (matches query_hash user_id) entries) <= 1)%nat.

Definition well_formed (db : Database) : Prop :=
  unique_ids (cache_entries db) /\ unique_per_owner (cache_entries db).

(** The hit count of the entry with key [cache_id]. *)
Definition hit_count_of (db : Database) (cache_id : Z) : option Z :=
  match List.filter (has_id cache_id) (cache_entries db) with
  | [e] => Some (CacheEntry.hit_count e)
  | _ => None
  end.

(** What the update of [update_hit_count] does to a row. *)
Definition touch (new_count cache_id : Z) (e : CacheEntry.t) : CacheEntry.t :=
  if has_id cache_id e then CacheEntry.with_hit_count new_count e else e.

Lemma touch_id n c e : CacheEntry.id (touch n c e) = CacheEntry.id e.
Proof. unfold touch. now destruct (has_id c e). Qed.

Lemma touch_matches n c h u e : matches h u (touch n c e) = matches h u e.
Proof. unfold touch. now destruct (has_id c e). Qed.

Lemma touch_has_id n c c' e : has_id c' (touch n c e) = has_id c' e.
Proof. unfold has_id. now rewrite touch_id. Qed.

Lemma touch_response_text n c e :
  CacheEntry.response_text (touch n c e) = CacheEntry.response_text e.
Proof. unfold touch. now destruct (has_id c e). Qed.

Lemma filter_map_commute {A : Type} (p : A -> bool) (g : A -> A) (l : list A) :
  (forall x, p (g x) = p x) ->
  List.filter p (List.map g l) = List.map g (List.filter p l).
Proof.
  intros Hp. induction l as [|x l IH]; simpl; [reflexivity|].
  rewrite Hp. destruct (p x); simpl; now rewrite IH.
Qed.

Lemma map_touch_ids n c entries :
  List.map CacheEntry.id (List.map (touch n c) entries) = List.map CacheEntry.id entries.
Proof.
  rewrite List.map_map. apply List.map_ext. intros e. apply touch_id.
Qed.

Lemma touch_well_formed n c entries :
  unique_ids entries /\ unique_per_owner entries ->
  unique_ids (List.map (touch n c) entries)
  /\ unique_per_owner (List.map (touch n c) entries).
Proof.
  intros [Hid Hown]. split.
  - unfold unique_ids. now rewrite map_touch_ids.
  - intros h u. rewrite filter_map_commute by (intros; apply touch_matches).
    rewrite List.length_map. apply Hown.
Qed.

(** [update_hit_count] leaves the table alone or touches one key. *)
Lemma update_hit_count_entries w db cache_id :
  usage_logs (update_hit_count w db cache_id) = usage_logs db
  /\ (cache_entries (update_hit_count w db cache_id) = cache_entries db
      \/ exists n, cache_entries (update_hit_count w db cache_id)
                   = List.map (touch n cache_id) (cache_entries db)).
Proof.
  unfold update_hit_count.
  destruct (Db.single _ _); destruct (hit_update_fault w); simpl; eauto.
Qed.

Lemma update_hit_count_well_formed w db cache_id :
  well_formed db -> well_formed (update_hit_count w db cache_id).
Proof.
  intros H. unfold well_formed.
  destruct (update_hit_count_entries w db cache_id) as [_ [-> | [n ->]]]; [exact H|].
  now apply touch_well_formed.
Qed.

Lemma log_usage_entries w db u k hit t c m r :
  cache_entries (log_usage w db u k hit t c m r) = cache_entries db.
Proof. unfold log_usage. now destruct (log_insert_fault w). Qed.

Lemma log_usage_well_formed w db u k hit t c m r :
  well_formed db -> well_formed (log_usage w db u k hit t c m r).
Proof. unfold well_formed. now rewrite log_usage_entries. Qed.

Lemma fold_max_ge (ids : list Z) (x : Z) :
  In x ids -> x <= List.fold_right Z.max 0 ids.
Proof.
  induction ids as [|y ids IH]; simpl; [easy|].
  intros [-> | Hin]; [lia|]. specialize (IH Hin). lia.
Qed.

Lemma fresh_id_fresh (entries : list CacheEntry.t) :
  ~ In (fresh_id entries) (List.map CacheEntry.id entries).
Proof.
  unfold fresh_id. intros Hin. apply fold_max_ge in Hin. lia.
Qed.

(** A successful store appends one row, under a new key. *)
Lemma store_cache_entry_inr w db u h q r m t c db' e :
  store_cache_entry w db u h q r m t c = (db', inr e) ->
  cache_entries db' = (cache_entries db ++ [e])%list
  /\ usage_logs db' = usage_logs db
  /\ CacheEntry.id e = fresh_id (cache_entries db)
  /\ CacheEntry.user_id e = u /\ CacheEntry.query_hash e = h
  /\ CacheEntry.response_text e = r /\ CacheEntry.model_used e = m
  /\ CacheEntry.hit_count e = 0.
Proof.
  unfold store_cache_entry.
  destruct (store_embedding w); [|discriminate].
  destruct (store_insert_fault w); [discriminate|].
  intros [= <- <-]. simpl. tauto.
Qed.

Lemma store_cache_entry_inl w db u h q r m t c db' x :
  store_cache_entry w db u h q r m t c = (db', inl x) -> db' = db.
Proof.
  unfold store_cache_entry.
  destruct (store_embedding w); [|now intros [= <-]].
  destruct (store_insert_fault w); [now intros [= <-]|discriminate].
Qed.

Lemma matches_refl h u e :
  CacheEntry.query_hash e = h -> CacheEntry.user_id e = u -> matches h u e = true.
Proof. intros <- <-. unfold matches. now rewrite !String.eqb_refl. Qed.

Lemma matches_inv h u e :
  matches h u e = true -> CacheEntry.query_hash e = h /\ CacheEntry.user_id e = u.
Proof.
  unfold matches. rewrite andb_true_iff, !String.eqb_eq. tauto.
Qed.

Lemma store_well_formed w db u h q r m t c db' e :
  well_formed db ->
  List.filter (matches h u) (cache_entries db) = [] ->
  store_cache_entry w db u h q r m t c = (db', inr e) ->
  well_formed db'.
Proof.
  intros [Hid Hown] Hnone Hstore.
  apply store_cache_entry_inr in Hstore
    as (Hent & _ & Hfresh & Hu & Hh & _).
  unfold well_formed. rewrite Hent. split.
  - unfold unique_ids. rewrite List.map_app. simpl.
    apply NoDup_app. split; [exact Hid|]. split.
    + intros x Hx Hx'. apply list_elem_of_In in Hx.
      apply list_elem_of_singleton in Hx'. subst x. rewrite Hfresh in Hx.
      now apply fresh_id_fresh in Hx.
    + apply NoDup_singleton.
  - intros h' u'. rewrite List.filter_app, List.length_app. simpl.
    destruct (matches h' u' e) eqn:Em; simpl.
    + apply matches_inv in Em as [Eh Eu].
      assert (h' = h) as -> by congruence. assert (u' = u) as -> by congruence.
      rewrite Hnone. simpl. lia.
    + specialize (Hown h' u'). lia.
Qed.

(** With distinct keys, the select by key finds the row. *)
Lemma filter_has_id_unique entries e :
  unique_ids entries -> In e entries ->
  List.filter (has_id (CacheEntry.id e)) entries = [e].
Proof.
  unfold unique_ids. induction entries as [|x entries IH]; simpl; [easy|].
  intros Hnd Hin. apply NoDup_cons in Hnd as [Hx Hnd].
  assert (Hnone : forall l, ~ CacheEntry.id e ∈ List.map CacheEntry.id l ->
                            List.filter (has_id (CacheEntry.id e)) l = []).
  { induction l as [|y l IHl]; simpl; [easy|]. intros Hy.
    rewrite not_elem_of_cons in Hy. destruct Hy as [Hne Hy].
    unfold has_id at 1. destruct (Z.eqb_spec (CacheEntry.id y) (CacheEntry.id e)); [congruence|].
    now apply IHl. }
  destruct Hin as [-> | Hin].
  - unfold has_id at 1. rewrite Z.eqb_refl. f_equal. now apply Hnone.
  - unfold has_id at 1.
    destruct (Z.eqb_spec (CacheEntry.id x) (CacheEntry.id e)) as [Heq|Hne].
    + exfalso. apply Hx. rewrite Heq. apply list_elem_of_In.
      now apply List.in_map.
    + now apply IH.
Qed.

End CacheTable.

(** ** The pipeline on the cache *)

Section Pipeline.

Import CacheService Proxy.

Definition query_hash_of (request : ChatCompletionRequest.t) : string :=
  generate_query_hash (ChatCompletionRequest.messages request)
    (ChatCompletionRequest.model request).

Lemma get_exact_match_Some w db h u e :
  get_exact_match w db h u = Some e <->
  exact_select_fault w = false
  /\ List.filter (matches h u) (cache_entries db) = [e].
Proof.
  unfold get_exact_match, Db.single.
  destruct (exact_select_fault w); [intuition discriminate|].
  destruct (List.filter (matches h u) (cache_entries db)) as [|x [|y l]];
    split; try (intuition discriminate).
  - intros [= ->]. auto.
  - intros [_ [= ->]]. reflexivity.
Qed.

Lemma get_exact_match_None w db h u :
  exact_select_fault w = false -> unique_per_owner (cache_entries db) ->
  get_exact_match w db h u = None ->
  List.filter (matches h u) (cache_entries db) = [].
Proof.
  intros Hf Hown. specialize (Hown h u). unfold get_exact_match, Db.single.
  rewrite Hf.
  destruct (List.filter (matches h u) (cache_entries db)) as [|x [|y l]];
    simpl in *; try easy; lia.
Qed.

(** A request that finds its entry is answered from it, and the entry
    counts one more hit. *)
Lemma exact_hit_step w db request user_id e :
  unique_ids (cache_entries db) ->
  exact_select_fault w = false -> hit_select_fault w = false ->
  hit_update_fault w = false ->
  List.filter (matches (query_hash_of request) user_id) (cache_entries db) = [e] ->
  exists db',
    chat_completions w db request user_id
    = (db', inr (ChatCompletionResponse.Make [CacheEntry.response_text e]
                   true (Some "exact") None None))
    /\ hit_count_of db' (CacheEntry.id e) = Some (CacheEntry.hit_count e + 1).
Proof.
  intros Hid Hf Hs Hu Hfilter.
  assert (Hget : get_exact_match w db (query_hash_of request) user_id = Some e)
    by now apply get_exact_match_Some.
  unfold chat_completions. fold (query_hash_of request). rewrite Hget.
  eexists. split; [reflexivity|].
  assert (Hin : In e (cache_entries db)).
  { eapply proj1. apply List.filter_In. rewrite Hfilter. now left. }
  unfold hit_count_of. rewrite log_usage_entries.
  unfold update_hit_count, Db.single. rewrite Hs, Hu.
  rewrite (filter_has_id_unique _ _ Hid Hin). simpl.
  rewrite filter_map_commute
    by (intros x; apply (touch_has_id _ _ (CacheEntry.id e) x)).
  rewrite (filter_has_id_unique _ _ Hid Hin). simpl.
  unfold has_id. now rewrite Z.eqb_refl.
Qed.

(** After a request was served from its own entry or from upstream, the
    table is still well formed and holds the entry of the request. *)
Lemma served_and_cached w db request user_id db' r :
  well_formed db -> exact_select_fault w = false ->
  chat_completions w db request user_id = (db', inr r) ->
  ChatCompletionResponse.cache_type r <> Some "semantic" ->
  well_formed db'
  /\ exists e,
       List.filter (matches (query_hash_of request) user_id) (cache_entries db') = [e].
Proof.
  intros Hwf Hf. unfold chat_completions. fold (query_hash_of request).
  destruct (get_exact_match w db (query_hash_of request) user_id) as [e0|] eqn:Hget.
  - intros [= <- <-] _. split.
    + now apply log_usage_well_formed, update_hit_count_well_formed.
    + apply get_exact_match_Some in Hget as [_ Hfilter].
      rewrite log_usage_entries.
      destruct (update_hit_count_entries w db (CacheEntry.id e0)) as [_ [-> | [n ->]]].
      * eauto.
      * rewrite filter_map_commute by (intros; apply touch_matches).
        rewrite Hfilter. simpl. eauto.
  - apply get_exact_match_None in Hget; [|assumption|apply Hwf].
    destruct (get_semantic_matches w _ user_id _) as [|best rest].
    + destruct (String.prefix "gpt" _).
      * destruct (call_openai w) as [llm|]; [|discriminate].
        destruct (store_cache_entry w db user_id (query_hash_of request) _ _ _ _ _)
          as [db1 [x|e]] eqn:Hstore; [discriminate|].
        intros [= <- <-] _. split.
        -- apply log_usage_well_formed. eapply store_well_formed; eauto.
        -- rewrite log_usage_entries.
           apply store_cache_entry_inr in Hstore as (-> & _ & _ & Hu & Hh & _).
           rewrite List.filter_app, Hget. simpl.
           rewrite (matches_refl _ _ _ Hh Hu). eauto.
      * destruct (String.prefix "claude" _); discriminate.
    + intros [= <- <-] Hsem. now contradiction Hsem.
Qed.

(** One request after the other, each from some owner in some world. *)
Definition serve (db : Database)
    (requests : list (World * ChatCompletionRequest.t * string)) : Database :=
  List.fold_left
    (fun db '(w, request, user_id) => fst (chat_completions w db request user_id))
    requests db.

(** Serving a request keeps the table well formed, as long as the
    exact lookup reaches the table. *)
Lemma chat_completions_well_formed w db request user_id :
  exact_select_fault w = false -> well_formed db ->
  well_formed (fst (chat_completions w db request user_id)).
Proof.
  intros Hf Hwf. unfold chat_completions. fold (query_hash_of request).
  destruct (get_exact_match w db (query_hash_of request) user_id) as [e0|] eqn:Hget;
    simpl.
  { now apply log_usage_well_formed, update_hit_count_well_formed. }
  apply get_exact_match_None in Hget; [|assumption|apply Hwf].
  destruct (get_semantic_matches w _ user_id _) as [|best rest]; simpl.
  2: { now apply log_usage_well_formed, update_hit_count_well_formed. }
  destruct (String.prefix "gpt" _).
  - destruct (call_openai w) as [llm|]; [|exact Hwf].
    destruct (store_cache_entry w db user_id (query_hash_of request) _ _ _ _ _)
      as [db1 [x|e]] eqn:Hstore; simpl.
    + apply store_cache_entry_inl in Hstore. now subst db1.
    + apply log_usage_well_formed. eapply store_well_formed; eauto.
  - now destruct (String.prefix "claude" _).
Qed.

Lemma serve_well_formed requests db :
  Forall (fun wru => exact_select_fault (fst (fst wru)) = false) requests ->
  well_formed db -> well_formed (serve db requests).
Proof.
  unfold serve. intros Hall. revert db.
  induction Hall as [|[[w request] user_id] requests Hw _ IH]; intros db Hwf; simpl.
  - exact Hwf.
  - apply IH. now apply chat_completions_well_formed.
Qed.

(** C1.  On a well-formed table and without a fault of the store while
    the entry is read and updated: once a request has been served
    from upstream and stored, or from its own entry, the same request
    of the same owner is next answered with [cached = true] and
    [cache_type = "exact"] from that entry, and the entry's
    [hit_count] is one more than before this second request. *)
Theorem repeated_request_hits_exact
    (w1 w2 : World) (db db1 : Database) (request : ChatCompletionRequest.t)
    (user_id : string) (r1 : ChatCompletionResponse.t) :
  well_formed db ->
  exact_select_fault w1 = false ->
  chat_completions w1 db request user_id = (db1, inr r1) ->
  ChatCompletionResponse.cache_type r1 <> Some "semantic" ->
  exact_select_fault w2 = false ->
  hit_select_fault w2 = false ->
  hit_update_fault w2 = false ->
  exists (e : CacheEntry.t) (db2 : Database) (r2 : ChatCompletionResponse.t),
    get_exact_match w2 db1 (query_hash_of request) user_id = Some e
    /\ chat_completions w2 db1 request user_id = (db2, inr r2)
    /\ ChatCompletionResponse.cached r2 = true
    /\ ChatCompletionResponse.cache_type r2 = Some "exact"
    /\ ChatCompletionResponse.choices r2 = [CacheEntry.response_text e]
    /\ hit_count_of db1 (CacheEntry.id e) = Some (CacheEntry.hit_count e)
    /\ hit_count_of db2 (CacheEntry.id e) = Some (CacheEntry.hit_count e + 1).
Proof.
  intros Hwf Hf1 Hrun Hsem Hf2 Hs2 Hu2.
  destruct (served_and_cached _ _ _ _ _ _ Hwf Hf1 Hrun Hsem) as [[Hid1 Hown1] [e He]].
  destruct (exact_hit_step w2 db1 request user_id e Hid1 Hf2 Hs2 Hu2 He)
    as (db2 & Hrun2 & Hcount).
  eexists e, db2, _. split; [now apply get_exact_match_Some|].
  split; [exact Hrun2|]. repeat split; try assumption.
  unfold hit_count_of.
  assert (Hin : In e (cache_entries db1)).
  { eapply proj1. apply List.filter_In. rewrite He. now left. }
  now rewrite (filter_has_id_unique _ _ Hid1 Hin).
Qed.

(** C6.  When the owner has no entry under the hash, a store that
    succeeds followed by an exact lookup that reaches the table returns
    an entry with the stored response text and model. *)
Theorem store_then_exact_lookup
    (w w' : World) (db db' : Database)
    (user_id query_hash query_text response_text model : string)
    (tokens_used : Z) (cost : Q) (stored : CacheEntry.t) :
  List.filter (matches query_hash user_id) (cache_entries db) = [] ->
  store_cache_entry w db user_id query_hash query_text response_text model
    tokens_used cost = (db', inr stored) ->
  exact_select_fault w' = false ->
  exists e : CacheEntry.t,
    get_exact_match w' db' query_hash user_id = Some e
    /\ CacheEntry.response_text e = response_text
    /\ CacheEntry.model_used e = model.
Proof.
  intros Hnone Hstore Hf.
  apply store_cache_entry_inr in Hstore as (Hent & _ & _ & Hu & Hh & Hr & Hm & _).
  exists stored. split; [|now split].
  apply get_exact_match_Some. split; [exact Hf|].
  rewrite Hent, List.filter_app, Hnone. simpl.
  now rewrite (matches_refl _ _ _ Hh Hu).
Qed.

End Pipeline.

(** ** Failures of the collaborators *)

Section Failures.

Import CacheService Proxy.

(** A request, and worlds in which it is served. *)
Definition hello : ChatCompletionRequest.t :=
  ChatCompletionRequest.Make [[("role", "user"); ("content", "Hello")]]
    "gpt-3.5-turbo" None (Some 1%Q) false.

Definition upstream_answer : LlmResponse.t :=
  LlmResponse.Make "Hi there" (Usage.Make 9 3 12).

(** Every collaborator answers; the similarity search finds nothing. *)
Definition quiet_world : World :=
  {| now := 1700000000; response_time := 40;
     exact_select_fault := false; hit_select_fault := false;
     hit_update_fault := false; log_insert_fault := false;
     lookup_embedding := Some [1%Q; 0%Q];
     match_cache_entries := fun _ _ _ _ => Db.Data [];
     call_openai := Some upstream_answer;
     store_embedding := Some [1%Q; 0%Q];
     store_insert_fault := false |}.

(** The insert of the store raises. *)
Definition store_down : World :=
  {| now := 1700000000; response_time := 40;
     exact_select_fault := false; hit_select_fault := false;
     hit_update_fault := false; log_insert_fault := false;
     lookup_embedding := Some [1%Q; 0%Q];
     match_cache_entries := fun _ _ _ _ => Db.Data [];
     call_openai := Some upstream_answer;
     store_embedding := Some [1%Q; 0%Q];
     store_insert_fault := true |}.

(** The embedding service raises at every call. *)
Definition embedding_down : World :=
  {| now := 1700000000; response_time := 40;
     exact_select_fault := false; hit_select_fault := false;
     hit_update_fault := false; log_insert_fault := false;
     lookup_embedding := None;
     match_cache_entries := fun _ _ _ _ => Db.Data [];
     call_openai := Some upstream_answer;
     store_embedding := None;
     store_insert_fault := false |}.

(** The store fails: the embedding, or the insert. *)
Definition store_fails (w : World) : Prop :=
  store_embedding w = None \/ store_insert_fault w = true.

Lemma store_fails_inl w db u h q r m t c :
  store_fails w -> store_cache_entry w db u h q r m t c = (db, inl tt).
Proof.
  unfold store_cache_entry. intros [-> | Hf]; [reflexivity|].
  rewrite Hf. now destruct (store_embedding w).
Qed.

(** The miss path up to the store. *)
Lemma chat_completions_miss w db request user_id llm :
  get_exact_match w db (query_hash_of request) user_id = None ->
  get_semantic_matches w
    (Json.dumps_list false (ChatCompletionRequest.messages request)) user_id
    (85 # 100) = [] ->
  String.prefix "gpt" (ChatCompletionRequest.model request) = true ->
  call_openai w = Some llm ->
  chat_completions w db request user_id
  = match store_cache_entry w db user_id (query_hash_of request)
            (Json.dumps_list false (ChatCompletionRequest.messages request))
            (LlmResponse.content llm) (ChatCompletionRequest.model request)
            (Usage.total_tokens (LlmResponse.usage llm))
            (inject_Z (Usage.total_tokens (LlmResponse.usage llm)) * cost_per_token)%Q with
    | (db', inl _) => (db', inl internal_error)
    | (db', inr _) =>
        (log_usage w db' user_id None false
           (Usage.total_tokens (LlmResponse.usage llm))
           (inject_Z (Usage.total_tokens (LlmResponse.usage llm)) * cost_per_token)%Q
           (ChatCompletionRequest.model request) (response_time w),
         inr (ChatCompletionResponse.Make (LlmResponse.choices llm) false None None
                (Some (LlmResponse.usage llm))))
    end.
Proof.
  intros Hget Hsem Hgpt Hllm. unfold chat_completions.
  fold (query_hash_of request). now rewrite Hget, Hsem, Hgpt, Hllm.
Qed.

(** C3, as the code has it.  A store that fails after the upstream
    call succeeded is re-raised by [store_cache_entry] and turned into
    status 500 by [chat_completions]: the upstream response is not
    returned, and nothing is stored or logged. *)
Theorem store_failure_is_internal_error
    (w : World) (db : Database) (request : ChatCompletionRequest.t)
    (user_id : string) (llm : LlmResponse.t) :
  get_exact_match w db (query_hash_of request) user_id = None ->
  get_semantic_matches w
    (Json.dumps_list false (ChatCompletionRequest.messages request)) user_id
    (85 # 100) = [] ->
  String.prefix "gpt" (ChatCompletionRequest.model request) = true ->
  call_openai w = Some llm ->
  store_fails w ->
  chat_completions w db request user_id = (db, inl internal_error).
Proof.
  intros Hget Hsem Hgpt Hllm Hfail.
  rewrite (chat_completions_miss _ _ _ _ _ Hget Hsem Hgpt Hllm).
  now rewrite store_fails_inl.
Qed.

(** C3 does not hold as stated: upstream answers, the insert of the
    store raises, and the caller gets status 500 instead of the
    answer. *)
Lemma store_failure_loses_upstream_response :
  call_openai store_down = Some upstream_answer
  /\ store_fails store_down
  /\ chat_completions store_down empty_database hello "owner-1"
     = (empty_database, inl internal_error).
Proof.
  split; [reflexivity|]. split; [now right|]. vm_compute. reflexivity.
Qed.

(** C8, as the code has it.  When the embedding cannot be generated in
    the semantic lookup, [get_semantic_matches] returns the empty list
    and a request without an exact match goes on as a miss.  The miss
    path generates the embedding once more to store the answer: when
    that succeeds and the insert does, the upstream answer is returned;
    when it fails again the request ends with status 500. *)
Theorem embedding_failure_degrades_lookup_only
    (w : World) (db : Database) (request : ChatCompletionRequest.t)
    (user_id : string) (llm : LlmResponse.t) :
  lookup_embedding w = None ->
  get_exact_match w db (query_hash_of request) user_id = None ->
  String.prefix "gpt" (ChatCompletionRequest.model request) = true ->
  call_openai w = Some llm ->
  (forall (query_text : string) (threshold : Q),
      get_semantic_matches w query_text user_id threshold = [])
  /\ (store_embedding w <> None -> store_insert_fault w = false ->
      exists db',
        chat_completions w db request user_id
        = (db', inr (ChatCompletionResponse.Make (LlmResponse.choices llm) false
                       None None (Some (LlmResponse.usage llm)))))
  /\ (store_embedding w = None ->
      chat_completions w db request user_id = (db, inl internal_error)).
Proof.
  intros Hemb Hget Hgpt Hllm.
  assert (Hsem : forall q t, get_semantic_matches w q user_id t = []).
  { intros q t. unfold get_semantic_matches. now rewrite Hemb. }
  split; [exact Hsem|]. split.
  - intros Hstore Hins.
    rewrite (chat_completions_miss _ _ _ _ _ Hget (Hsem _ _) Hgpt Hllm).
    unfold store_cache_entry. destruct (store_embedding w); [|congruence].
    rewrite Hins. eauto.
  - intros Hstore.
    rewrite (chat_completions_miss _ _ _ _ _ Hget (Hsem _ _) Hgpt Hllm).
    rewrite store_fails_inl; [reflexivity|now left].
Qed.

(** C8 does not hold as stated: with the embedding service down the
    lookup degrades to no match, upstream answers, and the request
    still ends with status 500, raised by the embedding of the store. *)
Lemma embedding_failure_fails_request :
  lookup_embedding embedding_down = None
  /\ get_semantic_matches embedding_down
       (Json.dumps_list false (ChatCompletionRequest.messages hello)) "owner-1"
       (85 # 100) = []
  /\ call_openai embedding_down = Some upstream_answer
  /\ chat_completions embedding_down empty_database hello "owner-1"
     = (empty_database, inl internal_error).
Proof.
  repeat split; vm_compute; reflexivity.
Qed.

End Failures.

(** ** The usage log and the statistics *)

Section Stats.

Import CacheService Proxy.

(** A row logged for a hit carries no tokens and no cost. *)
Definition hit_is_free (l : UsageLog.t) : Prop :=
  UsageLog.cache_hit l = true ->
  UsageLog.tokens_used l = 0 /\ UsageLog.cost l = 0%Q.

Lemma update_hit_count_logs w db c :
  usage_logs (update_hit_count w db c) = usage_logs db.
Proof. apply update_hit_count_entries. Qed.

Lemma log_usage_hit_is_free w db u k hit t c m r :
  (hit = true -> t = 0 /\ c = 0%Q) ->
  Forall hit_is_free (usage_logs db) ->
  Forall hit_is_free (usage_logs (log_usage w db u k hit t c m r)).
Proof.
  intros Hnew Hold. unfold log_usage. destruct (log_insert_fault w); [exact Hold|].
  simpl. apply Forall_app. split; [exact Hold|].
  constructor; [|constructor]. exact Hnew.
Qed.

Lemma chat_completions_hit_is_free w db request user_id :
  Forall hit_is_free (usage_logs db) ->
  Forall hit_is_free (usage_logs (fst (chat_completions w db request user_id))).
Proof.
  intros H. unfold chat_completions.
  destruct (get_exact_match w db _ user_id) as [e|]; simpl.
  { apply log_usage_hit_is_free; [auto|]. now rewrite update_hit_count_logs. }
  destruct (get_semantic_matches w _ user_id _) as [|best rest]; simpl.
  2: { apply log_usage_hit_is_free; [auto|]. now rewrite update_hit_count_logs. }
  destruct (String.prefix "gpt" _).
  - destruct (call_openai w) as [llm|]; [|exact H].
    destruct (store_cache_entry w db user_id _ _ _ _ _ _) as [db1 [x|e]] eqn:Hstore.
    + apply store_cache_entry_inl in Hstore. now subst db1.
    + apply store_cache_entry_inr in Hstore as (_ & Hlogs & _). simpl.
      apply log_usage_hit_is_free; [discriminate|]. now rewrite Hlogs.
  - now destruct (String.prefix "claude" _).
Qed.

Lemma serve_hit_is_free requests db :
  Forall hit_is_free (usage_logs db) ->
  Forall hit_is_free (usage_logs (serve db requests)).
Proof.
  unfold serve. revert db.
  induction requests as [|[[w request] user_id] requests IH]; intros db H; simpl.
  - exact H.
  - apply IH. now apply chat_completions_hit_is_free.
Qed.

Lemma sum_Z_free (logs : list UsageLog.t) :
  Forall hit_is_free logs ->
  sum_Z (List.map UsageLog.tokens_used (List.filter UsageLog.cache_hit logs)) = 0.
Proof.
  unfold sum_Z. induction 1 as [|l logs Hl _ IH]; simpl; [reflexivity|].
  destruct (UsageLog.cache_hit l) eqn:Ehit; [|exact IH].
  destruct (Hl Ehit) as [Ht _]. simpl. now rewrite Ht.
Qed.

Lemma sum_Q_free (logs : list UsageLog.t) :
  Forall hit_is_free logs ->
  sum_Q (List.map UsageLog.cost (List.filter UsageLog.cache_hit logs)) = 0%Q.
Proof.
  unfold sum_Q. induction 1 as [|l logs Hl _ IH]; simpl; [reflexivity|].
  destruct (UsageLog.cache_hit l) eqn:Ehit; [|exact IH].
  destruct (Hl Ehit) as [_ Hc]. simpl. now rewrite Hc.
Qed.

Lemma Forall_filter_bool {A : Type} (P : A -> Prop) (p : A -> bool) (l : list A) :
  Forall P l -> Forall P (List.filter p l).
Proof.
  induction 1 as [|x l Hx _ IH]; simpl; [constructor|].
  destruct (p x); [now constructor|exact IH].
Qed.

(** C10.  Whatever requests were served since the log was empty: every
    row logged for a cache hit has [tokens_used = 0] and [cost = 0.0];
    so the statistics of every owner report [total_tokens_saved = 0]
    and [total_cost_saved = 0], and the hit rate of an owner without
    logged requests is 0, not an error of division. *)
Theorem hit_statistics_are_zero
    (requests : list (World * ChatCompletionRequest.t * string)) (user_id : string) :
  let db := serve empty_database requests in
  Forall hit_is_free (usage_logs db)
  /\ exists total_requests cache_hits cache_hit_rate,
       get_cache_stats false db user_id
       = inr (CacheStats.Make total_requests cache_hits cache_hit_rate 0%Q 0)
       /\ total_requests
          = Z.of_nat (List.length
              (List.filter (fun l => String.eqb (UsageLog.user_id l) user_id)
                 (usage_logs db)))
       /\ (total_requests = 0 -> cache_hit_rate = 0%Q).
Proof.
  intros db.
  assert (Hfree : Forall hit_is_free (usage_logs db))
    by (apply serve_hit_is_free; constructor).
  split; [exact Hfree|].
  unfold get_cache_stats. do 3 eexists. split; [|split; [reflexivity|]].
  - do 2 f_equal.
    + apply sum_Q_free. now apply Forall_filter_bool.
    + apply sum_Z_free. now apply Forall_filter_bool.
  - now intros ->.
Qed.

End Stats.

(** ** Admission: the quota *)

Section Quota.

Import SubscriptionService FeatureGates.

(** The row of the owner for the month is read. *)
Definition usage_read (w : SubscriptionWorld) (monthly_usage : list MonthlyUsage.t)
    (user_id : string) (row : MonthlyUsage.t) : Prop :=
  Db.single (select_usage_fault w)
    (List.filter (usage_row user_id (current_month w)) monthly_usage) = Db.Data row.

Lemma check_usage_limits_read w monthly_usage user_id row :
  usage_read w monthly_usage user_id row ->
  check_usage_limits w monthly_usage user_id
  = let plan := Subscription.plan (get_user_subscription w user_id) in
    let current_usage := MonthlyUsage.requests_used row in
    let monthly_limit := Plan.monthly_requests plan in
    UsageStatus.Make
      (match monthly_limit with
       | None => true
       | Some limit => current_usage <? limit
       end)
      current_usage monthly_limit
      (match monthly_limit with
       | Some limit => if limit =? 0 then 0 else Z.max 0 (current_usage - limit)
       | None => 0
       end)
      (default "free" (Plan.name plan)).
Proof. unfold usage_read, check_usage_limits. now intros ->. Qed.

(** C2, as the code has it.  With the subscription and the usage of
    the month read, [within_limits] is [current_usage < Q] on a plan
    with the quota [Q] and true on a plan without one.  An owner at or
    over a finite quota is denied, with status 429 and the usage and
    the limit, when the plan is named "free"; on a plan of another name
    the request is admitted and flagged as overage.  Below the quota,
    and on a plan without a quota whatever the usage and the name, the
    request is admitted. *)
Theorem quota_denies_free_plan_only
    (w : SubscriptionWorld) (monthly_usage : list MonthlyUsage.t) (user_id : string)
    (subscription : Subscription.t) (plan : Plan.t) (row : MonthlyUsage.t) :
  select_subscription w = Db.Data subscription ->
  Subscription.subscription_plans subscription = Some plan ->
  usage_read w monthly_usage user_id row ->
  let current_usage := MonthlyUsage.requests_used row in
  let plan_name := default "free" (Plan.name plan) in
  UsageStatus.within_limits (check_usage_limits w monthly_usage user_id)
  = match Plan.monthly_requests plan with
    | None => true
    | Some Q => current_usage <? Q
    end
  /\ (forall Q : Z, Plan.monthly_requests plan = Some Q -> Q <= current_usage ->
     (plan_name = "free" ->
      check_usage_limit w monthly_usage user_id
      = inl {| status_code := 429; detail := MonthlyLimit current_usage (Some Q) |})
     /\ (plan_name <> "free" ->
         check_usage_limit w monthly_usage user_id
         = inr (Admission.Make true true
                  (Some (if Q =? 0 then 0 else current_usage - Q)))))
  /\ (forall Q : Z, Plan.monthly_requests plan = Some Q -> current_usage < Q ->
        check_usage_limit w monthly_usage user_id = inr (Admission.Make true false None))
  /\ (Plan.monthly_requests plan = None ->
        check_usage_limit w monthly_usage user_id = inr (Admission.Make true false None)).
Proof.
  intros Hsub Hplan Hread current_usage plan_name.
  unfold check_usage_limit. rewrite (check_usage_limits_read _ _ _ _ Hread).
  unfold get_user_subscription, Subscription.plan. rewrite Hsub, Hplan. simpl.
  fold current_usage. fold plan_name.
  split; [reflexivity|]. split; [|split].
  - intros Q HQ Hover. rewrite HQ.
    assert (Hlt : (current_usage <? Q) = false) by (apply Z.ltb_ge; lia).
    rewrite Hlt. simpl. split.
    + intros ->. reflexivity.
    + intros Hname. apply String.eqb_neq in Hname. rewrite Hname.
      do 3 f_equal. destruct (Q =? 0); [reflexivity|lia].
  - intros Q HQ Hunder. rewrite HQ.
    assert (Hlt : (current_usage <? Q) = true) by (apply Z.ltb_lt; lia).
    now rewrite Hlt.
  - intros ->. reflexivity.
Qed.

(** A paid plan at its quota. *)
Definition startup_plan : Plan.t :=
  Plan.Make (Some "startup") (Some 10000) (Some 5)
    true true false false false false true ∅.

Definition startup_world : SubscriptionWorld :=
  {| current_month := "2024-05";
     select_subscription := Db.Data (Subscription.Make "active" (Some startup_plan));
     select_free_plan := Db.NoData;
     select_existing := Db.NoData;
     insert_subscription_fault := false;
     select_usage_fault := false;
     write_usage_fault := false;
     select_user_feature := fun _ _ => Db.NoData |}.

Definition may_usage : list MonthlyUsage.t :=
  [MonthlyUsage.Make 1 "owner-1" "2024-05" 10000 4000 6000 0 0%Q].

(** C2 does not hold as stated: an owner of the startup plan, quota
    10000, with 10000 requests this month is admitted. *)
Lemma paid_plan_over_quota_is_admitted :
  Plan.monthly_requests startup_plan = Some 10000
  /\ UsageStatus.current_usage (check_usage_limits startup_world may_usage "owner-1") = 10000
  /\ check_usage_limit startup_world may_usage "owner-1"
     = inr (Admission.Make true true (Some 0)).
Proof. repeat split; vm_compute; reflexivity. Qed.

End Quota.

(** ** Usage accounting *)

Section Accounting.

Import SubscriptionService UsageTrackingMiddleware.

Lemma bind_is_cache_hit (kw : kwargs) (user_id : string) (hit : value) :
  bind_increment_usage (("user_id", Str user_id) :: ("is_cache_hit", hit) :: kw) = None.
Proof. reflexivity. Qed.

(** C9, on the code.  [_track_usage] calls [increment_usage] with the
    keyword [is_cache_hit] (and, for a hit, [tokens_saved] and
    [cost_saved]), none of which is a parameter of
    [increment_usage(user_id, requests_count=1, cache_hit=False)]: the
    call raises, the handler swallows it, and no row of the month is
    created or updated, nor is a log row written. *)
Theorem track_usage_records_nothing
    (w : SubscriptionWorld) (insert_fault : bool) (tables : Tables)
    (user_id : string) (api_key_id : option string) (is_cache_hit : bool)
    (tokens_saved : Z) (cost_saved : Q) (response_time_ms status_code : Z) :
  _track_usage w insert_fault tables user_id api_key_id is_cache_hit
    tokens_saved cost_saved response_time_ms status_code = tables.
Proof.
  unfold _track_usage, call_increment_usage.
  destruct is_cache_hit; now rewrite bind_is_cache_hit.
Qed.

(** A hit worth 120 tokens, reported for an owner whose row of the
    month exists: the row is as it was. *)
Example track_usage_of_a_hit :
  _track_usage
    {| current_month := "2024-05";
       select_subscription := Db.NoData; select_free_plan := Db.NoData;
       select_existing := Db.NoData; insert_subscription_fault := false;
       select_usage_fault := false; write_usage_fault := false;
       select_user_feature := fun _ _ => Db.NoData |}
    false
    {| monthly_usage := [MonthlyUsage.Make 1 "owner-1" "2024-05" 41 7 34 0 0%Q];
       detailed_logs := [] |}
    "owner-1" None true 120 (24 # 100) 40 200
  = {| monthly_usage := [MonthlyUsage.Make 1 "owner-1" "2024-05" 41 7 34 0 0%Q];
       detailed_logs := [] |}.
Proof. reflexivity. Qed.

(** Called with its own parameters, [increment_usage] counts the
    request and the hit or the miss, and never rewrites the totals of
    tokens and cost saved. *)
Lemma increment_usage_keeps_totals w monthly_usage user_id requests_count cache_hit r' :
  In r' (increment_usage w monthly_usage user_id requests_count cache_hit) ->
  (exists r, In r monthly_usage
             /\ MonthlyUsage.id r = MonthlyUsage.id r'
             /\ MonthlyUsage.tokens_saved r = MonthlyUsage.tokens_saved r'
             /\ MonthlyUsage.cost_saved r = MonthlyUsage.cost_saved r')
  \/ (MonthlyUsage.tokens_saved r' = 0 /\ MonthlyUsage.cost_saved r' = 0%Q).
Proof.
  unfold increment_usage.
  destruct (Db.single _ _) as [| |existing]; destruct (write_usage_fault w);
    try (intros Hin; left; exists r'; now auto).
  - rewrite List.in_app_iff. intros [Hin | [<- | []]].
    + left. exists r'. auto.
    + right. simpl. auto.
  - rewrite List.in_map_iff. intros (r & <- & Hin). left. exists r.
    split; [exact Hin|].
    now destruct (MonthlyUsage.id r =? MonthlyUsage.id existing).
Qed.

End Accounting.

(** ** Keys of the rate limiter *)

Section Keys.

(** The characters of a string. *)
Fixpoint all_chars (p : ascii -> bool) (s : string) : bool :=
  match s with
  | EmptyString => true
  | String c rest => p c && all_chars p rest
  end.

Definition not_colon (c : ascii) : bool := negb (Ascii.eqb c ":").

(** An identifier without a colon, as the identifiers of the users
    are: the text of a UUID. *)
Definition no_colon (s : string) : bool := all_chars not_colon s.

Lemma digit_facts (c : ascii) :
  Py.is_digit c = true ->
  Py.is_space c = false /\ Ascii.eqb c "-" = false /\ Ascii.eqb c "+" = false
  /\ not_colon c = true.
Proof.
  unfold Py.is_digit, Py.is_space, not_colon. intros H.
  apply andb_true_iff in H as [H1 H2]. apply Z.leb_le in H1, H2.
  repeat split.
  - repeat (apply orb_false_iff; split);
      try (apply andb_false_iff);
      try (left; apply Z.leb_gt; lia);
      try (right; apply Z.leb_gt; lia);
      try (apply Z.eqb_neq; lia).
  - destruct (Ascii.eqb_spec c "-") as [->|]; [vm_compute in H1; now elim H1 | easy].
  - destruct (Ascii.eqb_spec c "+") as [->|]; [vm_compute in H1; now elim H1 | easy].
  - destruct (Ascii.eqb_spec c ":") as [->|]; [vm_compute in H2; now elim H2 | easy].
Qed.

Lemma string_of_uint_digits (d : Decimal.uint) :
  all_chars Py.is_digit (NilEmpty.string_of_uint d) = true.
Proof. induction d; simpl; auto. Qed.

Lemma rstrip_digits (s : string) :
  all_chars Py.is_digit s = true -> Py.rstrip s = s.
Proof.
  induction s as [|c s IH]; simpl; [reflexivity|].
  intros H. apply andb_true_iff in H as [Hc Hs]. rewrite (IH Hs).
  destruct s; [|reflexivity].
  now rewrite (proj1 (digit_facts c Hc)).
Qed.

Lemma ungroup_digits (s : string) :
  all_chars Py.is_digit s = true -> Py.ungroup true s = Some s.
Proof.
  induction s as [|c s IH]; simpl; [reflexivity|].
  intros H. apply andb_true_iff in H as [Hc Hs]. now rewrite Hc, (IH Hs).
Qed.

Lemma no_colon_digits (s : string) :
  all_chars Py.is_digit s = true -> no_colon s = true.
Proof.
  unfold no_colon. induction s as [|c s IH]; simpl; [reflexivity|].
  intros H. apply andb_true_iff in H as [Hc Hs].
  now rewrite (IH Hs), (proj2 (proj2 (proj2 (digit_facts c Hc)))).
Qed.

(** A numeral of digits reads as the number it writes. *)
Lemma int_digits (c : ascii) (s : string) (d : Decimal.uint) :
  all_chars Py.is_digit (String c s) = true ->
  NilEmpty.uint_of_string (String c s) = Some d ->
  Py.int (String c s) = Some (Z.of_uint d)
  /\ Py.int (String "-" (String c s)) = Some (- Z.of_uint d).
Proof.
  intros Hall Hd.
  assert (Hc : Py.is_digit c = true) by (simpl in Hall; now apply andb_true_iff in Hall).
  destruct (digit_facts c Hc) as (Hsp & Hminus & Hplus & _).
  assert (Hun : Py.ungroup false (String c s) = Some (String c s)).
  { simpl. rewrite Hc. simpl in Hall. apply andb_true_iff in Hall as [_ Hs].
    now rewrite (ungroup_digits s Hs). }
  split.
  - unfold Py.int.
    replace (Py.lstrip (String c s)) with (String c s) by (simpl; now rewrite Hsp).
    rewrite (rstrip_digits _ Hall). rewrite Hminus, Hplus, Hun, Hd. reflexivity.
  - unfold Py.int.
    replace (Py.lstrip (String "-" (String c s))) with (String "-" (String c s))
      by reflexivity.
    replace (Py.rstrip (String "-" (String c s))) with (String "-" (String c s)).
    2: { change (Py.rstrip (String "-" (String c s)))
           with (match Py.rstrip (String c s) with
                 | EmptyString =>
                     if Py.is_space "-" then EmptyString else String "-" EmptyString
                 | rest' => String "-" rest'
                 end).
         now rewrite (rstrip_digits _ Hall). }
    change (Ascii.eqb "-" "-") with true. cbv iota. rewrite Hun, Hd. reflexivity.
Qed.

(** What [str] writes for a number. *)
Lemma str_uint (d : Decimal.uint) :
  exists (c : ascii) (s : string) (d' : Decimal.uint),
    NilZero.string_of_uint d = String c s
    /\ all_chars Py.is_digit (String c s) = true
    /\ NilEmpty.uint_of_string (String c s) = Some d'
    /\ Z.of_uint d' = Z.of_uint d.
Proof.
  destruct d.
  1: { exists "0"%char, EmptyString, (Decimal.D0 Decimal.Nil). now repeat split. }
  all: do 3 eexists; split; [reflexivity|]; split;
    [simpl; now rewrite string_of_uint_digits|];
    split; [simpl; rewrite NilEmpty.usu; reflexivity | reflexivity].
Qed.

Lemma int_str (n : Z) : Py.int (Py.str n) = Some n.
Proof.
  unfold Py.str. rewrite <- (DecimalZ.of_to n) at 2.
  destruct (Z.to_int n) as [d|d]; simpl;
    destruct (str_uint d) as (c & s & d' & -> & Hall & Hd & <-);
    now apply int_digits.
Qed.

Lemma no_colon_str (n : Z) : no_colon (Py.str n) = true.
Proof.
  unfold Py.str.
  destruct (Z.to_int n) as [d|d]; simpl;
    destruct (str_uint d) as (c & s & d' & -> & Hall & _);
    [|change (no_colon (String "-" (String c s))) with (no_colon (String c s))];
    now apply no_colon_digits.
Qed.

Lemma split_colon_no_colon (s : string) :
  no_colon s = true -> Py.split_colon s = [s].
Proof.
  unfold no_colon. induction s as [|c s IH]; simpl; [reflexivity|].
  intros H. apply andb_true_iff in H as [Hc Hs]. unfold not_colon in Hc.
  apply negb_true_iff in Hc. now rewrite Hc, (IH Hs).
Qed.

Lemma split_colon_key (u t : string) :
  no_colon u = true -> no_colon t = true ->
  Py.split_colon (u ++ ":" ++ t) = [u; t].
Proof.
  unfold no_colon at 1. intros Hu Ht. induction u as [|c u IH]; simpl.
  - change (EmptyString ++ t)%string with t.
    now rewrite (split_colon_no_colon t Ht).
  - simpl in Hu. apply andb_true_iff in Hu as [Hc Hu]. unfold not_colon in Hc.
    apply negb_true_iff in Hc. now rewrite Hc, (IH Hu).
Qed.

(** The key the limiter counts an owner's requests of a minute under. *)
Definition key (user_id : string) (minute : Z) : string :=
  (user_id ++ ":" ++ Py.str minute)%string.

Lemma minute_of_key_key (u : string) (m : Z) :
  no_colon u = true -> RateLimitMiddleware.minute_of_key (key u m) = Some m.
Proof.
  intros Hu. unfold RateLimitMiddleware.minute_of_key, key.
  rewrite (split_colon_key u _ Hu (no_colon_str m)). simpl. apply int_str.
Qed.

Lemma key_minute_inj (u : string) (m m' : Z) :
  no_colon u = true -> key u m = key u m' -> m = m'.
Proof.
  intros Hu Heq. apply (f_equal RateLimitMiddleware.minute_of_key) in Heq.
  rewrite !minute_of_key_key in Heq by exact Hu. congruence.
Qed.

Lemma no_colon_app_colon (r t : string) : no_colon (r ++ ":" ++ t) = false.
Proof.
  unfold no_colon. induction r as [|c r IH].
  - reflexivity.
  - change (String c r ++ ":" ++ t)%string with (String c (r ++ ":" ++ t)).
    simpl. rewrite IH. apply andb_false_r.
Qed.

(** The key of an owner without a colon is the key of nobody else. *)
Lemma key_inj (u u' : string) (m m' : Z) :
  no_colon u = true -> key u' m' = key u m -> u' = u /\ m' = m.
Proof.
  intros Hu Heq. assert (Hu' : u' = u).
  { unfold key in Heq. pose proof (no_colon_str m) as Hm.
    revert Hu u' Heq. unfold no_colon at 1.
    induction u as [|a u IH]; intros Hu [|c r] Heq.
    - reflexivity.
    - change (String c r ++ ":" ++ Py.str m')%string
        with (String c (r ++ ":" ++ Py.str m')) in Heq.
      change (EmptyString ++ ":" ++ Py.str m)%string with (String ":" (Py.str m)) in Heq.
      injection Heq as _ Heq. rewrite <- Heq, no_colon_app_colon in Hm. discriminate.
    - change (String a u ++ ":" ++ Py.str m)%string
        with (String a (u ++ ":" ++ Py.str m)) in Heq.
      change (EmptyString ++ ":" ++ Py.str m')%string with (String ":" (Py.str m')) in Heq.
      injection Heq as <- _. simpl in Hu. discriminate.
    - change (String a u ++ ":" ++ Py.str m)%string
        with (String a (u ++ ":" ++ Py.str m)) in Heq.
      change (String c r ++ ":" ++ Py.str m')%string
        with (String c (r ++ ":" ++ Py.str m')) in Heq.
      injection Heq as -> Heq. simpl in Hu. apply andb_true_iff in Hu as [_ Hu].
      f_equal. now apply IH. }
  subst u'. split; [reflexivity|]. now apply (key_minute_inj u).
Qed.

End Keys.

(** ** Admission: the rate limit *)

Section RateLimit.

Import RateLimitMiddleware.

(** The 60-second bucket a reading of the clock falls in. *)
Definition bucket (time : Q) : Z := Qfloor (time / 60).

(** The cap of a plan: [self.rate_limits.get(plan_name, 10)]. *)
Definition rate_cap (plan_name : string) : Z := default 10 (rate_limits !! plan_name).

(** A path the limiter looks at. *)
Definition limited (path : string) : Prop :=
  bool_decide (path ∈ excluded_paths) = false /\ String.prefix "/api/" path = true.

(** The answer of the limiter to a request over the cap. *)
Definition too_many_requests : Response :=
  JSONResponse 429 "RATE_LIMIT_EXCEEDED" [("Retry-After", "60")].

(** A request as it reaches the limiter: what the subscription service
    says of its user, the reading of the clock, the path, the user. *)
Record Request := {
  details : Db.Result string;
  arrival : Q;
  path : string;
  user : option string
}.

(** The requests one after the other, of whatever users, on the one
    table of counters. *)
Fixpoint dispatch_each (requests : list Request) (request_counts : gmap string Z)
    : gmap string Z * list Response :=
  match requests with
  | [] => (request_counts, [])
  | r :: rest =>
      let '(request_counts, response) :=
        dispatch (details r) (arrival r) request_counts (path r) (user r) in
      let '(request_counts, responses) := dispatch_each rest request_counts in
      (request_counts, response :: responses)
  end.

Definition by_owner (u : string) (r : Request) : bool :=
  bool_decide (user r = Some u).

(** How many of the requests are the owner's. *)
Definition owner_count (u : string) (requests : list Request) : Z :=
  Z.of_nat (List.length (List.filter (by_owner u) requests)).

(** The request is checked in the bucket [b]; if it is the owner's, the
    owner is on the plan and the path is one the limiter looks at.
    That supposes a subscription service that delivers the name of the
    plan, which the one of this repository does not. *)
Definition in_bucket (u plan_name : string) (b : Z) (r : Request) : Prop :=
  bucket (arrival r) = b
  /\ (user r = Some u -> details r = Db.Data plan_name /\ limited (path r)).

Lemma rate_cap_cases (plan_name : string) :
  rate_cap plan_name = 10 \/ rate_cap plan_name = 100
  \/ rate_cap plan_name = 500 \/ rate_cap plan_name = -1.
Proof.
  unfold rate_cap, rate_limits. simpl.
  rewrite !lookup_insert. repeat case_decide; simpl; auto.
Qed.

Lemma rate_cap_positive (plan_name : string) :
  rate_cap plan_name <> -1 -> 0 < rate_cap plan_name.
Proof.
  intros Hcap.
  destruct (rate_cap_cases plan_name) as [H | [H | [H | H]]];
    [rewrite H; reflexivity..|contradiction].
Qed.

(** The keys the clean-up removes are older than the previous minute. *)
Lemma keys_to_remove_stale (l : list string) (current_minute : Z) :
  forall ks, keys_to_remove l current_minute = Some ks ->
  forall k, k ∈ ks -> exists m, minute_of_key k = Some m /\ m < current_minute - 1.
Proof.
  induction l as [|k l IH]; simpl.
  - intros ks [= <-] k Hk. now apply elem_of_nil in Hk.
  - destruct (minute_of_key k) as [m|] eqn:Hm; [|discriminate].
    destruct (keys_to_remove l current_minute) as [ks'|]; [|discriminate].
    intros ks [= <-] k'. specialize (IH ks' eq_refl k').
    destruct (Z.ltb_spec m (current_minute - 1)); [|exact IH].
    intros Hk'. apply elem_of_cons in Hk' as [-> | Hk']; eauto.
Qed.

Lemma lookup_foldr_delete_Some (m : gmap string Z) (js : list string) (k : string) (v : Z) :
  foldr delete m js !! k = Some v -> m !! k = Some v.
Proof.
  induction js as [|j js IH]; simpl; [easy|].
  intros H. apply lookup_delete_Some in H as [_ H]. auto.
Qed.

Lemma lookup_foldr_delete_None (m : gmap string Z) (js : list string) (k : string) :
  m !! k = None -> foldr delete m js !! k = None.
Proof.
  intros Hnone. destruct (foldr delete m js !! k) as [v|] eqn:Hk; [|reflexivity].
  apply lookup_foldr_delete_Some in Hk. congruence.
Qed.

(** From here on: an owner whose identifier has no colon, on a plan
    with a cap. *)
Section Owner.

Variables u plan_name : string.
Hypothesis owner_has_no_colon : no_colon u = true.
Hypothesis owner_is_named : u <> EmptyString.
Hypothesis plan_is_capped : rate_cap plan_name <> -1.

(** The clean-up in the bucket [current_minute] keeps the keys of the
    owner for that bucket and the one before. *)
Lemma clean_up_keeps (m current_minute : Z) (table : gmap string Z)
    (l ks : list string) :
  current_minute <= m + 1 ->
  keys_to_remove l current_minute = Some ks ->
  foldr delete table ks !! key u m = table !! key u m.
Proof using owner_has_no_colon.
  intros Hle Hks. apply lookup_foldr_delete_not_elem_of. intros Hin.
  destruct (keys_to_remove_stale _ _ _ Hks _ Hin) as (m' & Hm' & Hold).
  rewrite minute_of_key_key in Hm' by exact owner_has_no_colon.
  injection Hm' as <-. lia.
Qed.

(** Under the cap: the request is admitted and counted. *)
Lemma check_admits (time : Q) (request_counts : gmap string Z) :
  default 0 (request_counts !! key u (bucket time)) < rate_cap plan_name ->
  exists request_counts',
    _check_rate_limit (Db.Data plan_name) time request_counts u
    = (request_counts', true)
    /\ request_counts' !! key u (bucket time)
       = Some (default 0 (request_counts !! key u (bucket time)) + 1)
    /\ forall k, k <> key u (bucket time) ->
         request_counts !! k = None -> request_counts' !! k = None.
Proof using owner_has_no_colon plan_is_capped.
  intros Hlt. unfold _check_rate_limit.
  fold (rate_cap plan_name). fold (bucket time). fold (key u (bucket time)).
  set (k := key u (bucket time)) in *.
  set (c := default 0 (request_counts !! k)) in *.
  rewrite (proj2 (Z.eqb_neq _ _) plan_is_capped).
  rewrite (proj2 (Z.leb_gt _ _) Hlt).
  destruct (keys_to_remove (keys (<[k := c + 1]> request_counts)) (bucket time))
    as [ks|] eqn:Hks; eexists; (split; [reflexivity|]); split.
  - unfold k.
    rewrite (clean_up_keeps _ _ _ _ _ (Z.le_succ_diag_r _) Hks).
    apply lookup_insert_eq.
  - intros k' Hne Hnone. apply lookup_foldr_delete_None.
    now rewrite lookup_insert_ne by congruence.
  - apply lookup_insert_eq.
  - intros k' Hne Hnone. now rewrite lookup_insert_ne by congruence.
Qed.

(** At the cap: the request is refused and the table is left alone. *)
Lemma check_denies (time : Q) (request_counts : gmap string Z) :
  rate_cap plan_name <= default 0 (request_counts !! key u (bucket time)) ->
  _check_rate_limit (Db.Data plan_name) time request_counts u = (request_counts, false).
Proof using plan_is_capped.
  intros Hge. unfold _check_rate_limit.
  fold (rate_cap plan_name). fold (bucket time). fold (key u (bucket time)).
  rewrite (proj2 (Z.eqb_neq _ _) plan_is_capped).
  now rewrite (proj2 (Z.leb_le _ _) Hge).
Qed.

(** The check of another user leaves the counters of the owner alone,
    as long as it is not made later than the bucket after theirs. *)
Lemma check_other (u' : string) (d : Db.Result string) (time : Q)
    (request_counts request_counts' : gmap string Z) (ok : bool) :
  u' <> u ->
  _check_rate_limit d time request_counts u' = (request_counts', ok) ->
  forall m : Z,
    (bucket time <= m + 1 -> request_counts' !! key u m = request_counts !! key u m)
    /\ (request_counts !! key u m = None -> request_counts' !! key u m = None).
Proof using owner_has_no_colon.
  intros Hne. unfold _check_rate_limit.
  destruct d as [| |other_plan]; try (intros [= <- <-]; now auto).
  fold (rate_cap other_plan). fold (bucket time). fold (key u' (bucket time)).
  destruct (rate_cap other_plan =? -1); [intros [= <- <-]; now auto|].
  destruct (rate_cap other_plan <=? _); [intros [= <- <-]; now auto|].
  assert (Hkey : forall m, key u' (bucket time) <> key u m).
  { intros m Heq. now apply key_inj in Heq as [? _]. }
  destruct (keys_to_remove _ _) as [ks|] eqn:Hks; intros [= <- <-] m; split.
  - intros Hle. rewrite (clean_up_keeps _ _ _ _ _ Hle Hks).
    now apply lookup_insert_ne.
  - intros Hnone. apply lookup_foldr_delete_None.
    now rewrite lookup_insert_ne.
  - intros _. now apply lookup_insert_ne.
  - intros Hnone. now rewrite lookup_insert_ne.
Qed.

Lemma dispatch_limited d time request_counts p :
  limited p ->
  dispatch d time request_counts p (Some u)
  = let '(request_counts', can_proceed) :=
      _check_rate_limit d time request_counts u in
    if can_proceed then (request_counts', CallNext)
    else (request_counts', too_many_requests).
Proof using owner_is_named.
  intros [Hex Hapi]. unfold dispatch. rewrite Hex, Hapi. simpl.
  now rewrite (proj2 (String.eqb_neq _ _) owner_is_named).
Qed.

Lemma dispatch_other (d : Db.Result string) (time : Q) (p : string)
    (who : option string) (request_counts request_counts' : gmap string Z)
    (response : Response) :
  who <> Some u ->
  dispatch d time request_counts p who = (request_counts', response) ->
  forall m : Z,
    (bucket time <= m + 1 -> request_counts' !! key u m = request_counts !! key u m)
    /\ (request_counts !! key u m = None -> request_counts' !! key u m = None).
Proof using owner_has_no_colon.
  intros Hwho. unfold dispatch.
  destruct (bool_decide _); [intros [= <- <-]; now auto|].
  destruct (negb _); [intros [= <- <-]; now auto|].
  destruct who as [u'|]; simpl; [|intros [= <- <-]; now auto].
  destruct (String.eqb u' EmptyString); [intros [= <- <-]; now auto|].
  destruct (_check_rate_limit d time request_counts u') as [counts1 ok] eqn:Hcheck.
  assert (Hne : u' <> u) by congruence.
  pose proof (check_other u' d time _ _ _ Hne Hcheck) as Hkeep.
  destruct ok; intros [= <- <-]; exact Hkeep.
Qed.

Lemma owner_count_cons (r : Request) (requests : list Request) :
  owner_count u (r :: requests)
  = (if by_owner u r then 1 else 0) + owner_count u requests.
Proof using Type.
  unfold owner_count. simpl. destruct (by_owner u r); simpl; lia.
Qed.

Lemma owner_count_nonneg (requests : list Request) :
  0 <= owner_count u requests.
Proof using Type. unfold owner_count. lia. Qed.

(** One request of the trace: what it does to the counters of the
    owner. *)
Lemma dispatch_step (b : Z) (r : Request) (request_counts counts1 : gmap string Z)
    (response : Response) :
  in_bucket u plan_name b r ->
  request_counts !! key u (b + 1) = None ->
  dispatch (details r) (arrival r) request_counts (path r) (user r)
  = (counts1, response) ->
  counts1 !! key u (b + 1) = None
  /\ (user r = Some u ->
      response = (if default 0 (request_counts !! key u b) <? rate_cap plan_name
                  then CallNext else too_many_requests)
      /\ default 0 (counts1 !! key u b)
         = (if default 0 (request_counts !! key u b) <? rate_cap plan_name
            then default 0 (request_counts !! key u b) + 1
            else default 0 (request_counts !! key u b)))
  /\ (user r <> Some u -> counts1 !! key u b = request_counts !! key u b).
Proof using owner_has_no_colon owner_is_named plan_is_capped.
  intros [Hb Hown] Hnext Hstep.
  destruct (decide (user r = Some u)) as [Hmine|Hother].
  - destruct (Hown Hmine) as [Hdetails Hpath].
    rewrite Hmine, Hdetails, (dispatch_limited _ _ _ _ Hpath) in Hstep.
    rewrite <- Hb in *.
    destruct (Z.ltb_spec (default 0 (request_counts !! key u (bucket (arrival r))))
                (rate_cap plan_name)) as [Hlt|Hge].
    + destruct (check_admits (arrival r) request_counts Hlt)
        as (counts' & Hcheck & Hcount & Hfresh).
      rewrite Hcheck in Hstep. injection Hstep as <- <-.
      split; [|split; [|easy]].
      * apply Hfresh; [|exact Hnext]. intros Heq.
        apply key_minute_inj in Heq; [lia|exact owner_has_no_colon].
      * intros _. now rewrite Hcount.
    + rewrite (check_denies (arrival r) request_counts Hge) in Hstep.
      injection Hstep as <- <-. split; [exact Hnext|]. split; easy.
  - pose proof (dispatch_other _ _ _ _ _ _ _ Hother Hstep) as Hkeep.
    split; [now apply (Hkeep (b + 1))|]. split; [easy|].
    intros _. apply (Hkeep b). lia.
Qed.

(** A request of the owner is handed on exactly when the requests the
    owner made before it in the bucket, with those already counted, stay
    under the cap. *)
Lemma dispatch_each_counts (b : Z) (requests : list Request) :
  forall request_counts : gmap string Z,
    Forall (in_bucket u plan_name b) requests ->
    request_counts !! key u (b + 1) = None ->
    exists request_counts' responses,
      dispatch_each requests request_counts = (request_counts', responses)
      /\ request_counts' !! key u (b + 1) = None
      /\ forall (i : nat) (r : Request),
           requests !! i = Some r -> user r = Some u ->
           responses !! i
           = Some (if default 0 (request_counts !! key u b)
                      + owner_count u (take i requests) <? rate_cap plan_name
                   then CallNext else too_many_requests).
Proof using owner_has_no_colon owner_is_named plan_is_capped.
  induction requests as [|r requests IH]; intros request_counts Hall Hnext.
  - exists request_counts, []. repeat split; auto. intros i r Hi. discriminate.
  - apply Forall_cons in Hall as [Hr Hall]. simpl.
    destruct (dispatch (details r) (arrival r) request_counts (path r) (user r))
      as [counts1 response] eqn:Hstep.
    destruct (dispatch_step b r _ _ _ Hr Hnext Hstep) as (Hnext1 & Hmine & Hother).
    destruct (IH counts1 Hall Hnext1) as (counts2 & responses & -> & Hnext2 & Hresp).
    exists counts2, (response :: responses). split; [reflexivity|].
    split; [exact Hnext2|].
    intros [|i] r' Hi Hr'; simpl in *.
    + injection Hi as <-. destruct (Hmine Hr') as [-> _].
      unfold owner_count. simpl. now rewrite Z.add_0_r.
    + rewrite (Hresp i r' Hi Hr'). f_equal. rewrite owner_count_cons.
      pose proof (owner_count_nonneg (take i requests)) as Hpos.
      unfold by_owner. destruct (decide (user r = Some u)) as [Hu|Hu].
      * rewrite (bool_decide_eq_true_2 _ Hu). destruct (Hmine Hu) as [_ ->].
        destruct (Z.ltb_spec (default 0 (request_counts !! key u b))
                    (rate_cap plan_name)).
        -- now rewrite Z.add_assoc.
        -- rewrite (proj2 (Z.ltb_ge _ _)) by lia.
           now rewrite (proj2 (Z.ltb_ge _ _)) by lia.
      * rewrite (bool_decide_eq_false_2 _ Hu), (Hother Hu). now rewrite Z.add_0_l.
Qed.

(** The counting the limiter is written for, on a subscription
    service that delivers the name of the plan.  An owner whose plan
    has the cap [N] per minute, [N] other than
    -1, has no request counted yet in the bucket [b] nor in the next
    one.  Of the requests then checked in the bucket [b], the owner's
    among those of other users, an owner's request is handed on when
    fewer than [N] of the owner's came before it, and is otherwise
    answered with status 429, code RATE_LIMIT_EXCEEDED and the header
    Retry-After: 60: the first [N] are admitted, the next one is
    refused.  A request of the owner checked in the bucket [b + 1] is
    handed on again.  On a plan with the cap -1 no request is refused.
    The name of the plan is the one [get_subscription_details] gives;
    the identifier of the owner has no colon. *)
Theorem rate_cap_enforced_per_bucket
    (p : string) (b : Z) (requests : list Request) (next : Q)
    (request_counts : gmap string Z) :
  limited p ->
  request_counts !! key u b = None ->
  request_counts !! key u (b + 1) = None ->
  Forall (in_bucket u plan_name b) requests ->
  bucket next = b + 1 ->
  (exists (counts1 counts2 : gmap string Z) (responses : list Response),
      dispatch_each requests request_counts = (counts1, responses)
      /\ (forall (i : nat) (r : Request),
            requests !! i = Some r -> user r = Some u ->
            responses !! i
            = Some (if owner_count u (take i requests) <? rate_cap plan_name
                    then CallNext else too_many_requests))
      /\ dispatch (Db.Data plan_name) next counts1 p (Some u) = (counts2, CallNext))
  /\ (forall (unlimited_plan : string) (time : Q) (counts : gmap string Z),
        rate_cap unlimited_plan = -1 ->
        dispatch (Db.Data unlimited_plan) time counts p (Some u) = (counts, CallNext)).
Proof using owner_has_no_colon owner_is_named plan_is_capped.
  intros Hpath Hb Hb1 Hall Hnext. split.
  - destruct (dispatch_each_counts b requests request_counts Hall Hb1)
      as (counts1 & responses & Hrun & Hfresh & Hresp).
    destruct (check_admits next counts1) as (counts2 & Hcheck & _).
    { rewrite Hnext, Hfresh. simpl. now apply rate_cap_positive. }
    exists counts1, counts2, responses. split; [exact Hrun|]. split.
    + intros i r Hi Hr. rewrite (Hresp i r Hi Hr), Hb. simpl.
      now rewrite Z.add_0_l.
    + rewrite (dispatch_limited _ _ _ _ Hpath). now rewrite Hcheck.
  - intros unlimited_plan time counts Hunl.
    rewrite (dispatch_limited _ _ _ _ Hpath).
    unfold _check_rate_limit. fold (rate_cap unlimited_plan). now rewrite Hunl.
Qed.

End Owner.

End RateLimit.

(** ** Admission when a read fails *)

Section ReadFailures.

Import SubscriptionService FeatureGates.

(** No read of the store succeeds. *)
Definition blackout : SubscriptionWorld :=
  {| current_month := "2024-05";
     select_subscription := Db.Raised;
     select_free_plan := Db.Raised;
     select_existing := Db.Raised;
     insert_subscription_fault := true;
     select_usage_fault := true;
     write_usage_fault := true;
     select_user_feature := fun _ _ => Db.Raised |}.

Lemma subscription_fallback w user_id :
  select_subscription w = Db.Raised -> select_free_plan w = Db.Raised ->
  get_user_subscription w user_id = minimal_free_plan.
Proof.
  intros Hsub Hfree. unfold get_user_subscription, assign_free_plan.
  now rewrite Hsub, Hfree.
Qed.

Lemma has_feature_fallback w user_id feature :
  select_subscription w = Db.Raised -> select_free_plan w = Db.Raised ->
  select_user_feature w user_id feature = Db.Raised ->
  has_feature w user_id feature = false.
Proof.
  intros Hsub Hfree Hfeature. unfold has_feature.
  rewrite (subscription_fallback _ _ Hsub Hfree). simpl.
  repeat match goal with
         | |- context [String.eqb feature ?s] => destruct (String.eqb feature s)
         end; try reflexivity.
  now rewrite lookup_empty, Hfeature.
Qed.

(** C5, as the code has it.  The quota check allows when the usage of
    the month cannot be read, and the rate check allows when the
    details of the subscription cannot be read.  A subscription that
    cannot be read is replaced by the built-in free plan of 1000
    requests and no feature: the quota check then denies from 1000
    requests on, and the feature check, when the feature flag of the
    user cannot be read either, answers [False] and denies with status
    403. *)
Theorem read_failures_by_check :
  (forall (w : SubscriptionWorld) (monthly_usage : list MonthlyUsage.t) (user_id : string),
      select_usage_fault w = true ->
      UsageStatus.within_limits (check_usage_limits w monthly_usage user_id) = true
      /\ check_usage_limit w monthly_usage user_id
         = inr (Admission.Make true false None))
  /\ (forall (time : Q) (request_counts : gmap string Z) (path : string)
             (user_id : option string),
        RateLimitMiddleware.dispatch Db.Raised time request_counts path user_id
        = (request_counts, CallNext))
  /\ (forall (w : SubscriptionWorld) (monthly_usage : list MonthlyUsage.t)
             (user_id : string) (row : MonthlyUsage.t),
        select_subscription w = Db.Raised -> select_free_plan w = Db.Raised ->
        usage_read w monthly_usage user_id row ->
        check_usage_limit w monthly_usage user_id
        = if MonthlyUsage.requests_used row <? 1000
          then inr (Admission.Make true false None)
          else inl {| status_code := 429;
                      detail := MonthlyLimit (MonthlyUsage.requests_used row)
                                  (Some 1000) |})
  /\ (forall (w : SubscriptionWorld) (user_id feature : string),
        select_subscription w = Db.Raised -> select_free_plan w = Db.Raised ->
        select_user_feature w user_id feature = Db.Raised ->
        user_id <> EmptyString ->
        has_feature w user_id feature = false
        /\ requires_feature feature w (Some user_id)
           = Some {| status_code := 403; detail := FeatureUpgrade feature |}
        /\ forall path : string,
             FeatureGateMiddleware.required_feature path = Some feature ->
             FeatureGateMiddleware.dispatch w path (Some user_id)
             = JSONResponse 403 "FEATURE_NOT_AVAILABLE" []).
Proof.
  split; [|split; [|split]].
  - intros w monthly_usage user_id Hfault.
    unfold check_usage_limit, check_usage_limits, Db.single. now rewrite Hfault.
  - intros time request_counts path user_id. unfold RateLimitMiddleware.dispatch.
    destruct (bool_decide _); [reflexivity|].
    destruct (negb _); [reflexivity|].
    now destruct (no_user user_id).
  - intros w monthly_usage user_id row Hsub Hfree Hread.
    unfold check_usage_limit. rewrite (check_usage_limits_read _ _ _ _ Hread).
    rewrite (subscription_fallback _ _ Hsub Hfree). simpl.
    now destruct (MonthlyUsage.requests_used row <? 1000).
  - intros w user_id feature Hsub Hfree Hfeature Hne.
    pose proof (has_feature_fallback w user_id feature Hsub Hfree Hfeature) as Hno.
    apply String.eqb_neq in Hne.
    split; [exact Hno|]. split.
    + unfold requires_feature. now rewrite Hne, Hno.
    + intros path Hpath. unfold FeatureGateMiddleware.dispatch.
      rewrite Hpath. unfold no_user. simpl. now rewrite Hne, Hno.
Qed.

(** C5 does not hold as stated: with no read of the store succeeding,
    the feature check denies. *)
Lemma feature_check_fails_closed :
  select_subscription blackout = Db.Raised
  /\ select_user_feature blackout "owner-1" "custom_models" = Db.Raised
  /\ has_feature blackout "owner-1" "custom_models" = false
  /\ FeatureGateMiddleware.dispatch blackout "/api/models/custom" (Some "owner-1")
     = JSONResponse 403 "FEATURE_NOT_AVAILABLE" [].
Proof. repeat split; vm_compute; reflexivity. Qed.

End ReadFailures.

(** ** The properties at work on concrete requests *)

Section Witnesses.

Import CacheService Proxy SubscriptionService FeatureGates RateLimitMiddleware.

(** The table after [hello] was served from upstream in the quiet
    world, and the answer the owner got. *)
Definition stocked : Database :=
  Eval vm_compute in fst (chat_completions quiet_world empty_database hello "owner-1").

Definition first_answer : ChatCompletionResponse.t :=
  ChatCompletionResponse.Make ["Hi there"] false None None (Some (Usage.Make 9 3 12)).

Lemma empty_database_well_formed : well_formed empty_database.
Proof. split; [constructor|]. intros h u. simpl. lia. Qed.

Lemma repeated_request_hits_exact_witness :
  exists (e : CacheEntry.t) (db2 : Database) (r2 : ChatCompletionResponse.t),
    get_exact_match quiet_world stocked (query_hash_of hello) "owner-1" = Some e
    /\ chat_completions quiet_world stocked hello "owner-1" = (db2, inr r2)
    /\ ChatCompletionResponse.cached r2 = true
    /\ ChatCompletionResponse.cache_type r2 = Some "exact"
    /\ ChatCompletionResponse.choices r2 = [CacheEntry.response_text e]
    /\ hit_count_of stocked (CacheEntry.id e) = Some (CacheEntry.hit_count e)
    /\ hit_count_of db2 (CacheEntry.id e) = Some (CacheEntry.hit_count e + 1).
Proof.
  apply (repeated_request_hits_exact quiet_world quiet_world empty_database stocked
           hello "owner-1" first_answer).
  - exact empty_database_well_formed.
  - reflexivity.
  - vm_compute. reflexivity.
  - discriminate.
  - reflexivity.
  - reflexivity.
  - reflexivity.
Defined.

Lemma store_then_exact_lookup_witness :
  exists e : CacheEntry.t,
    get_exact_match quiet_world
      (fst (store_cache_entry quiet_world empty_database "owner-1" "abc123"
              "[]" "Hi there" "gpt-3.5-turbo" 12 (24 # 1000000)))
      "abc123" "owner-1" = Some e
    /\ CacheEntry.response_text e = "Hi there"
    /\ CacheEntry.model_used e = "gpt-3.5-turbo".
Proof.
  apply (store_then_exact_lookup quiet_world quiet_world empty_database _
           "owner-1" "abc123" "[]" "Hi there" "gpt-3.5-turbo" 12 (24 # 1000000)
           (CacheEntry.Make 1 "owner-1" "abc123" "[]" [1%Q; 0%Q] "Hi there"
              "gpt-3.5-turbo" 12 (24 # 1000000) (1700000000 + 24 * 3600) 0)).
  - reflexivity.
  - vm_compute. reflexivity.
  - reflexivity.
Defined.

Lemma store_failure_is_internal_error_witness :
  chat_completions store_down empty_database hello "owner-1"
  = (empty_database, inl internal_error).
Proof.
  apply (store_failure_is_internal_error store_down empty_database hello "owner-1"
           upstream_answer).
  - reflexivity.
  - reflexivity.
  - reflexivity.
  - reflexivity.
  - right. reflexivity.
Defined.

Lemma embedding_failure_degrades_lookup_only_witness :
  (forall (query_text : string) (threshold : Q),
      get_semantic_matches embedding_down query_text "owner-1" threshold = [])
  /\ (store_embedding embedding_down <> None ->
      store_insert_fault embedding_down = false ->
      exists db',
        chat_completions embedding_down empty_database hello "owner-1"
        = (db', inr (ChatCompletionResponse.Make (LlmResponse.choices upstream_answer)
                       false None None (Some (LlmResponse.usage upstream_answer)))))
  /\ (store_embedding embedding_down = None ->
      chat_completions embedding_down empty_database hello "owner-1"
      = (empty_database, inl internal_error)).
Proof.
  apply (embedding_failure_degrades_lookup_only embedding_down empty_database hello
           "owner-1" upstream_answer).
  - reflexivity.
  - reflexivity.
  - reflexivity.
  - reflexivity.
Defined.

Definition two_hellos : list (World * ChatCompletionRequest.t * string) :=
  [(quiet_world, hello, "owner-1"); (quiet_world, hello, "owner-1")].

Lemma hit_statistics_are_zero_witness :
  Forall hit_is_free (usage_logs (serve empty_database two_hellos))
  /\ exists total_requests cache_hits cache_hit_rate,
       get_cache_stats false (serve empty_database two_hellos) "owner-1"
       = inr (CacheStats.Make total_requests cache_hits cache_hit_rate 0%Q 0)
       /\ total_requests
          = Z.of_nat (List.length
              (List.filter (fun l => String.eqb (UsageLog.user_id l) "owner-1")
                 (usage_logs (serve empty_database two_hellos))))
       /\ (total_requests = 0 -> cache_hit_rate = 0%Q).
Proof. exact (hit_statistics_are_zero two_hellos "owner-1"). Defined.

(** A free plan at its quota. *)
Definition free_plan : Plan.t :=
  Plan.Make (Some "free") (Some 1000) (Some 1)
    false false false false false false false ∅.

Definition free_world : SubscriptionWorld :=
  {| current_month := "2024-05";
     select_subscription := Db.Data (Subscription.Make "active" (Some free_plan));
     select_free_plan := Db.Data free_plan;
     select_existing := Db.NoData;
     insert_subscription_fault := false;
     select_usage_fault := false;
     write_usage_fault := false;
     select_user_feature := fun _ _ => Db.NoData |}.

Definition spent : MonthlyUsage.t :=
  MonthlyUsage.Make 1 "owner-1" "2024-05" 1000 300 700 0 0%Q.

Lemma quota_denies_free_plan_only_witness :
  check_usage_limit free_world [spent] "owner-1"
  = inl {| status_code := 429; detail := MonthlyLimit 1000 (Some 1000) |}.
Proof.
  apply (proj1 (proj2 (quota_denies_free_plan_only free_world [spent] "owner-1"
                         (Subscription.Make "active" (Some free_plan)) free_plan spent
                         eq_refl eq_refl eq_refl)) 1000 eq_refl).
  - simpl. lia.
  - reflexivity.
Defined.

Definition chat_path : string := "/api/v1/chat/completions".

(** Eleven requests of an owner of the free plan within one minute,
    with a request of another user among them. *)
Definition owner_request (second : Z) : Request :=
  {| details := Db.Data "free"; arrival := inject_Z (1700000000 + second);
     path := chat_path; user := Some "owner-1" |}.

Definition busy_minute : list Request :=
  List.map owner_request [0; 1; 2; 3; 4]
  ++ [{| details := Db.Data "startup"; arrival := inject_Z 1700000005;
         path := chat_path; user := Some "owner-2" |}]
  ++ List.map owner_request [6; 7; 8; 9; 10; 11].

Lemma rate_cap_enforced_per_bucket_witness :
  (exists (counts1 counts2 : gmap string Z) (responses : list Response),
      dispatch_each busy_minute ∅ = (counts1, responses)
      /\ (forall (i : nat) (r : Request),
            busy_minute !! i = Some r -> user r = Some "owner-1" ->
            responses !! i
            = Some (if owner_count "owner-1" (take i busy_minute) <? rate_cap "free"
                    then CallNext else too_many_requests))
      /\ dispatch (Db.Data "free") (inject_Z 1700000040) counts1 chat_path
           (Some "owner-1") = (counts2, CallNext))
  /\ (forall (unlimited_plan : string) (time : Q) (counts : gmap string Z),
        rate_cap unlimited_plan = -1 ->
        dispatch (Db.Data unlimited_plan) time counts chat_path (Some "owner-1")
        = (counts, CallNext)).
Proof.
  apply (rate_cap_enforced_per_bucket "owner-1" "free") with (b := 28333333).
  - reflexivity.
  - discriminate.
  - vm_compute. discriminate.
  - split; vm_compute; reflexivity.
  - apply lookup_empty.
  - apply lookup_empty.
  - repeat constructor; try discriminate; try (vm_compute; reflexivity).
  - reflexivity.
Defined.

(** The same minute, run: the owner's first ten requests and the one
    of the other user handed on, the owner's eleventh refused. *)
Example busy_minute_responses :
  snd (dispatch_each busy_minute ∅)
  = (List.repeat CallNext 11 ++ [too_many_requests])%list.
Proof. vm_compute. reflexivity. Qed.

(** Why the identifier must have no colon: the clean-up reads the
    second field of a key as its minute, so the counter of a user
    named [team:1] is thrown away after every request and the twelve
    requests of one minute all pass. *)
Example colon_in_identifier_defeats_the_limit :
  snd (dispatch_each
         (List.map (fun second =>
                      {| details := Db.Data "free";
                         arrival := inject_Z (1700000000 + second);
                         path := chat_path; user := Some "team:1" |})
            [0; 1; 2; 3; 4; 5; 6; 7; 8; 9; 10; 11]) ∅)
  = List.repeat CallNext 12.
Proof. vm_compute. reflexivity. Qed.

Lemma read_failures_by_check_witness :
  check_usage_limit blackout [spent] "owner-1" = inr (Admission.Make true false None)
  /\ has_feature blackout "owner-1" "custom_models" = false.
Proof.
  split.
  - apply (proj1 read_failures_by_check blackout [spent] "owner-1"). reflexivity.
  - apply (proj2 (proj2 (proj2 read_failures_by_check)) blackout "owner-1"
             "custom_models"); try reflexivity. discriminate.
Defined.

End Witnesses.

(** ** What a request leaves behind *)

Section Traces.

Import CacheService Proxy.

(** The four ways [chat_completions] ends. *)
Inductive Served_as (w : World) (db : Database) (request : ChatCompletionRequest.t)
    (user_id : string) : Database -> HTTPException + ChatCompletionResponse.t -> Prop :=
| Exact_hit e :
    get_exact_match w db (query_hash_of request) user_id = Some e ->
    Served_as w db request user_id
      (log_usage w (update_hit_count w db (CacheEntry.id e)) user_id None true 0 0%Q
         (ChatCompletionRequest.model request) (response_time w))
      (inr (ChatCompletionResponse.Make [CacheEntry.response_text e] true
              (Some "exact") None None))
| Semantic_hit best rest :
    get_exact_match w db (query_hash_of request) user_id = None ->
    get_semantic_matches w
      (Json.dumps_list false (ChatCompletionRequest.messages request)) user_id
      (85 # 100) = best :: rest ->
    Served_as w db request user_id
      (log_usage w (update_hit_count w db (CacheSearchResult.id best)) user_id None
         true 0 0%Q (ChatCompletionRequest.model request) (response_time w))
      (inr (ChatCompletionResponse.Make [CacheSearchResult.response_text best] true
              (Some "semantic") (Some (CacheSearchResult.similarity best)) None))
| Failed e :
    get_exact_match w db (query_hash_of request) user_id = None ->
    status_code e = 400 \/ status_code e = 500 ->
    (String.prefix "gpt" (ChatCompletionRequest.model request) = true ->
     status_code e = 500) ->
    Served_as w db request user_id db (inl e)
| Miss llm db1 entry :
    get_exact_match w db (query_hash_of request) user_id = None ->
    String.prefix "gpt" (ChatCompletionRequest.model request) = true ->
    call_openai w = Some llm ->
    store_cache_entry w db user_id (query_hash_of request)
      (Json.dumps_list false (ChatCompletionRequest.messages request))
      (LlmResponse.content llm) (ChatCompletionRequest.model request)
      (Usage.total_tokens (LlmResponse.usage llm))
      (inject_Z (Usage.total_tokens (LlmResponse.usage llm)) * cost_per_token)%Q
    = (db1, inr entry) ->
    Served_as w db request user_id
      (log_usage w db1 user_id None false
         (Usage.total_tokens (LlmResponse.usage llm))
         (inject_Z (Usage.total_tokens (LlmResponse.usage llm)) * cost_per_token)%Q
         (ChatCompletionRequest.model request) (response_time w))
      (inr (ChatCompletionResponse.Make (LlmResponse.choices llm) false None None
              (Some (LlmResponse.usage llm)))).

Lemma chat_completions_served_as w db request user_id :
  Served_as w db request user_id
    (fst (chat_completions w db request user_id))
    (snd (chat_completions w db request user_id)).
Proof.
  unfold chat_completions. fold (query_hash_of request).
  destruct (get_exact_match w db (query_hash_of request) user_id) as [e|] eqn:Hget.
  { now apply Exact_hit. }
  destruct (get_semantic_matches w _ user_id _) as [|best rest] eqn:Hsem.
  2: { now apply (Semantic_hit _ _ _ _ best rest). }
  destruct (String.prefix "gpt" _) eqn:Hgpt.
  - destruct (call_openai w) as [llm|] eqn:Hllm.
    + destruct (store_cache_entry w db user_id (query_hash_of request) _ _ _ _ _)
        as [db1 [x|entry]] eqn:Hstore.
      * apply store_cache_entry_inl in Hstore as ->. simpl.
        apply Failed; auto.
      * simpl. now apply (Miss _ _ _ _ llm db1 entry).
    + simpl. apply Failed; auto.
  - destruct (String.prefix "claude" _); simpl; apply Failed.
    all: solve [assumption | intros ?; congruence | simpl; auto].
Qed.

Lemma chat_completions_inv w db request user_id db' r :
  chat_completions w db request user_id = (db', r) ->
  Served_as w db request user_id db' r.
Proof.
  intros H. pose proof (chat_completions_served_as w db request user_id) as Hs.
  now rewrite H in Hs.
Qed.

(** X1.  A request that ends in an error leaves both tables as they
    were, and the error is a 400 or a 500. *)
Theorem failed_request_writes_nothing
    (w : World) (db db' : Database) (request : ChatCompletionRequest.t)
    (user_id : string) (e : HTTPException) :
  chat_completions w db request user_id = (db', inl e) ->
  db' = db /\ (status_code e = 400 \/ status_code e = 500).
Proof.
  intros H. apply chat_completions_inv in H. inversion H; subst. auto.
Qed.

Lemma failed_request_writes_nothing_witness :
  fst (chat_completions store_down empty_database hello "owner-1") = empty_database.
Proof.
  destruct (chat_completions store_down empty_database hello "owner-1")
    as [db' [e|r]] eqn:H.
  - exact (proj1 (failed_request_writes_nothing _ _ _ _ _ _ H)).
  - vm_compute in H. discriminate.
Defined.

(** X2.  An answer marked as an exact hit is the response text of an
    entry of the table that belongs to the caller and is stored under
    the key of the request. *)
Theorem exact_hit_is_the_callers_entry
    (w : World) (db db' : Database) (request : ChatCompletionRequest.t)
    (user_id : string) (r : ChatCompletionResponse.t) :
  chat_completions w db request user_id = (db', inr r) ->
  ChatCompletionResponse.cache_type r = Some "exact" ->
  exists e : CacheEntry.t,
    In e (cache_entries db)
    /\ CacheEntry.user_id e = user_id
    /\ CacheEntry.query_hash e = query_hash_of request
    /\ ChatCompletionResponse.choices r = [CacheEntry.response_text e]
    /\ ChatCompletionResponse.cached r = true.
Proof.
  intros H Htype. apply chat_completions_inv in H.
  inversion H; subst; try discriminate.
  match goal with Hg : get_exact_match _ _ _ _ = Some _ |- _ =>
    apply get_exact_match_Some in Hg as [_ Hfilter] end.
  exists e.
  assert (Hin : In e (List.filter (matches (query_hash_of request) user_id)
                        (cache_entries db))) by (rewrite Hfilter; now left).
  apply List.filter_In in Hin as [Hin Hm]. apply matches_inv in Hm as [Hh Hu].
  auto.
Qed.

(** An entry as it was, but for its hit count, which is the old one or
    one more. *)
Definition same_but_hits (e e' : CacheEntry.t) : Prop :=
  CacheEntry.with_hit_count (CacheEntry.hit_count e) e' = e
  /\ (CacheEntry.hit_count e' = CacheEntry.hit_count e
      \/ CacheEntry.hit_count e' = CacheEntry.hit_count e + 1).

Lemma same_but_hits_refl e : same_but_hits e e.
Proof. destruct e. split; [reflexivity|now left]. Qed.

Lemma Forall2_map_In {A B : Type} (R : A -> B -> Prop) (g : A -> B) (l : list A) :
  (forall x, In x l -> R x (g x)) -> Forall2 R l (List.map g l).
Proof.
  induction l as [|a l IH]; intros H; simpl; constructor.
  - apply H. now left.
  - apply IH. intros x Hx. apply H. now right.
Qed.

Lemma update_hit_count_same w db cache_id :
  Forall2 same_but_hits (cache_entries db)
    (cache_entries (update_hit_count w db cache_id)).
Proof.
  assert (Hrefl : Forall2 same_but_hits (cache_entries db) (cache_entries db)).
  { rewrite <- (List.map_id (cache_entries db)) at 2.
    apply Forall2_map_In. intros; apply same_but_hits_refl. }
  unfold update_hit_count, Db.single.
  destruct (hit_select_fault w); [exact Hrefl|].
  destruct (List.filter (has_id cache_id) (cache_entries db)) as [|e [|e2 rest]] eqn:Hf;
    [exact Hrefl| |exact Hrefl].
  destruct (hit_update_fault w); [exact Hrefl|]. simpl.
  apply Forall2_map_In. intros x Hx. destruct (has_id cache_id x) eqn:Hid;
    [|apply same_but_hits_refl].
  assert (Hin : In x (List.filter (has_id cache_id) (cache_entries db)))
    by (apply List.filter_In; auto).
  rewrite Hf in Hin. destruct Hin as [<-|[]].
  destruct e. split; [reflexivity|now right].
Qed.

(** X3.  Serving a request never removes or rewrites a cache entry:
    the entries that were there are still there, in their order, each
    as it was but for a hit count that is the old one or one more; at
    most one entry is added, at the end, and it belongs to the caller,
    is stored under the key of the request and has hit count 0. *)
Theorem cache_entries_persist
    (w : World) (db : Database) (request : ChatCompletionRequest.t)
    (user_id : string) :
  exists kept added : list CacheEntry.t,
    cache_entries (fst (chat_completions w db request user_id))
    = (kept ++ added)%list
    /\ Forall2 same_but_hits (cache_entries db) kept
    /\ (List.length added <= 1)%nat
    /\ Forall (fun e => CacheEntry.user_id e = user_id
                        /\ CacheEntry.query_hash e = query_hash_of request
                        /\ CacheEntry.hit_count e = 0) added.
Proof.
  destruct (chat_completions_served_as w db request user_id).
  - eexists _, []. rewrite List.app_nil_r, log_usage_entries.
    split; [reflexivity|]. split; [apply update_hit_count_same|].
    split; [simpl; lia|constructor].
  - eexists _, []. rewrite List.app_nil_r, log_usage_entries.
    split; [reflexivity|]. split; [apply update_hit_count_same|].
    split; [simpl; lia|constructor].
  - exists (cache_entries db), []. rewrite List.app_nil_r.
    split; [reflexivity|]. split.
    + rewrite <- (List.map_id (cache_entries db)) at 2.
      apply Forall2_map_In. intros; apply same_but_hits_refl.
    + split; [simpl; lia|constructor].
  - match goal with Hs : store_cache_entry _ _ _ _ _ _ _ _ _ = _ |- _ =>
      apply store_cache_entry_inr in Hs as (He & _ & _ & Hu & Hh & _ & _ & Hc) end.
    exists (cache_entries db), [entry]. rewrite log_usage_entries.
    split; [exact He|]. split.
    + rewrite <- (List.map_id (cache_entries db)) at 2.
      apply Forall2_map_In. intros; apply same_but_hits_refl.
    + split; [simpl; lia|]. constructor; auto.
Qed.

Lemma log_usage_logs w db u k hit t c m r :
  exists added,
    usage_logs (log_usage w db u k hit t c m r) = (usage_logs db ++ added)%list
    /\ (List.length added <= 1)%nat
    /\ Forall (fun l => l = UsageLog.Make u k hit t c m r) added
    /\ (log_insert_fault w = false -> List.length added = 1%nat).
Proof.
  unfold log_usage. destruct (log_insert_fault w).
  - exists []. rewrite List.app_nil_r. repeat split; auto. discriminate.
  - eexists [_]. simpl. repeat split; auto.
Qed.

(** X4.  The usage log only grows, by at most one row a request: the
    rows that were there stay as they were, and a row that is added
    names the caller and the model of the request, and says whether the
    answer came from the cache.  A failed request adds none; a served
    one adds one unless the insert of the log failed. *)
Theorem usage_logs_append_only
    (w : World) (db : Database) (request : ChatCompletionRequest.t)
    (user_id : string) :
  exists added : list UsageLog.t,
    usage_logs (fst (chat_completions w db request user_id))
    = (usage_logs db ++ added)%list
    /\ (List.length added <= 1)%nat
    /\ Forall (fun l =>
                 UsageLog.user_id l = user_id
                 /\ UsageLog.model_used l = ChatCompletionRequest.model request
                 /\ exists r, snd (chat_completions w db request user_id) = inr r
                              /\ UsageLog.cache_hit l = ChatCompletionResponse.cached r)
         added
    /\ (forall e, snd (chat_completions w db request user_id) = inl e -> added = [])
    /\ (forall r, snd (chat_completions w db request user_id) = inr r ->
        log_insert_fault w = false -> List.length added = 1%nat).
Proof.
  destruct (chat_completions_served_as w db request user_id).
  - destruct (log_usage_logs w (update_hit_count w db (CacheEntry.id e)) user_id None
                true 0 0%Q (ChatCompletionRequest.model request) (response_time w))
      as (added & Heq & Hlen & Hall & Hone).
    exists added. rewrite Heq, update_hit_count_logs.
    split; [reflexivity|]. split; [exact Hlen|]. split; [|split].
    + eapply Forall_impl; [exact Hall|]. intros l ->. simpl. eauto.
    + discriminate.
    + auto.
  - destruct (log_usage_logs w (update_hit_count w db (CacheSearchResult.id best))
                user_id None true 0 0%Q (ChatCompletionRequest.model request)
                (response_time w))
      as (added & Heq & Hlen & Hall & Hone).
    exists added. rewrite Heq, update_hit_count_logs.
    split; [reflexivity|]. split; [exact Hlen|]. split; [|split].
    + eapply Forall_impl; [exact Hall|]. intros l ->. simpl. eauto.
    + discriminate.
    + auto.
  - exists []. rewrite List.app_nil_r. repeat split; auto. discriminate.
  - match goal with Hs : store_cache_entry _ _ _ _ _ _ _ _ _ = _ |- _ =>
      apply store_cache_entry_inr in Hs as (_ & Hlogs & _) end.
    destruct (log_usage_logs w db1 user_id None false
                (Usage.total_tokens (LlmResponse.usage llm))
                (inject_Z (Usage.total_tokens (LlmResponse.usage llm)) * cost_per_token)%Q
                (ChatCompletionRequest.model request) (response_time w))
      as (added & Heq & Hlen & Hall & Hone).
    exists added. rewrite Heq, Hlogs.
    split; [reflexivity|]. split; [exact Hlen|]. split; [|split].
    + eapply Forall_impl; [exact Hall|]. intros l ->. simpl. eauto.
    + discriminate.
    + auto.
Qed.

Lemma update_hit_count_filter w db cache_id h u :
  List.length (List.filter (matches h u) (cache_entries (update_hit_count w db cache_id)))
  = List.length (List.filter (matches h u) (cache_entries db)).
Proof.
  destruct (update_hit_count_entries w db cache_id) as [_ [-> | [n ->]]]; [reflexivity|].
  rewrite filter_map_commute by (intros; apply touch_matches).
  apply List.length_map.
Qed.

(** X5.  An answer that came from a semantic match is not stored under
    the key of the request: the table has as many entries as before,
    and the exact lookup of the same request by the same caller still
    finds nothing afterwards. *)
Theorem semantic_hit_is_not_stored
    (w w' : World) (db db' : Database) (request : ChatCompletionRequest.t)
    (user_id : string) (r : ChatCompletionResponse.t) :
  exact_select_fault w = false ->
  chat_completions w db request user_id = (db', inr r) ->
  ChatCompletionResponse.cache_type r = Some "semantic" ->
  List.length (cache_entries db') = List.length (cache_entries db)
  /\ get_exact_match w' db' (query_hash_of request) user_id = None.
Proof.
  intros Hf H Htype. apply chat_completions_inv in H.
  inversion H; subst; try discriminate.
  rewrite log_usage_entries. split.
  - destruct (update_hit_count_entries w db (CacheSearchResult.id best))
      as [_ [-> | [n ->]]]; [reflexivity|apply List.length_map].
  - match goal with Hg : get_exact_match _ _ _ _ = None |- _ => rename Hg into Hget end.
    pose proof (update_hit_count_filter w db (CacheSearchResult.id best)
                  (query_hash_of request) user_id) as Hlen.
    unfold get_exact_match, Db.single in *. rewrite Hf in Hget.
    rewrite log_usage_entries.
    destruct (exact_select_fault w'); [reflexivity|].
    destruct (List.filter _ (cache_entries db)) as [|a [|b l]];
      destruct (List.filter _ (cache_entries (update_hit_count _ _ _))) as [|a' [|b' l']];
      simpl in Hlen; try discriminate; reflexivity.
Qed.

(** X6.  A model whose name does not start with gpt is answered from
    the cache or not at all: the request adds no entry, an answer is
    a cache hit, and without a hit the request fails, with 500 for a
    name that starts with claude (the Anthropic call is not
    implemented) and with 400 otherwise. *)
Theorem other_models_are_served_from_cache_only
    (w : World) (db : Database) (request : ChatCompletionRequest.t)
    (user_id : string) :
  String.prefix "gpt" (ChatCompletionRequest.model request) = false ->
  List.length (cache_entries (fst (chat_completions w db request user_id)))
  = List.length (cache_entries db)
  /\ (forall r, snd (chat_completions w db request user_id) = inr r ->
      ChatCompletionResponse.cached r = true)
  /\ (forall e, snd (chat_completions w db request user_id) = inl e ->
      status_code e
      = if String.prefix "claude" (ChatCompletionRequest.model request)
        then 500 else 400).
Proof.
  intros Hgpt. unfold chat_completions. rewrite Hgpt.
  assert (Hlen : forall c u k hit t q m rt,
             List.length (cache_entries (log_usage w (update_hit_count w db c)
                                           u k hit t q m rt))
             = List.length (cache_entries db)).
  { intros. rewrite log_usage_entries.
    destruct (update_hit_count_entries w db c) as [_ [-> | [n ->]]];
      [reflexivity|apply List.length_map]. }
  destruct (get_exact_match w db _ user_id) as [e0|]; simpl.
  { split; [apply Hlen|]. split; [now intros r [= <-]|discriminate]. }
  destruct (get_semantic_matches w _ user_id _) as [|best rest]; simpl.
  2: { split; [apply Hlen|]. split; [now intros r [= <-]|discriminate]. }
  destruct (String.prefix "claude" _); simpl;
    (split; [reflexivity|]); (split; [discriminate|]); now intros e [= <-].
Qed.

(** X7.  A miss that is answered stores the answer of the upstream
    model for the caller under the key of the request, for 24 hours
    and with hit count 0, with the tokens the upstream model counted;
    the row it logs carries the same tokens and the same cost as the
    entry, the cost being computed once. *)
Theorem served_miss_is_stored_and_logged
    (w : World) (db db' : Database) (request : ChatCompletionRequest.t)
    (user_id : string) (r : ChatCompletionResponse.t) :
  chat_completions w db request user_id = (db', inr r) ->
  ChatCompletionResponse.cached r = false ->
  exists (llm : LlmResponse.t) (e : CacheEntry.t),
    call_openai w = Some llm
    /\ ChatCompletionResponse.choices r = [LlmResponse.content llm]
    /\ ChatCompletionResponse.usage r = Some (LlmResponse.usage llm)
    /\ cache_entries db' = (cache_entries db ++ [e])%list
    /\ CacheEntry.user_id e = user_id
    /\ CacheEntry.query_hash e = query_hash_of request
    /\ CacheEntry.response_text e = LlmResponse.content llm
    /\ CacheEntry.model_used e = ChatCompletionRequest.model request
    /\ CacheEntry.expires_at e = now w + 86400
    /\ CacheEntry.hit_count e = 0
    /\ CacheEntry.tokens_saved e = Usage.total_tokens (LlmResponse.usage llm)
    /\ (log_insert_fault w = false ->
        usage_logs db'
        = (usage_logs db
           ++ [UsageLog.Make user_id None false (CacheEntry.tokens_saved e)
                 (CacheEntry.cost_saved e) (ChatCompletionRequest.model request)
                 (response_time w)])%list).
Proof.
  intros H Hcached. apply chat_completions_inv in H.
  inversion H; subst; try discriminate.
  match goal with Hs : store_cache_entry _ _ _ _ _ _ _ _ _ = _ |- _ =>
    rename Hs into Hstore end.
  unfold store_cache_entry in Hstore.
  destruct (store_embedding w) as [embedding|]; [|discriminate].
  destruct (store_insert_fault w); [discriminate|].
  injection Hstore as <- <-.
  exists llm. eexists. split; [assumption|].
  rewrite log_usage_entries. simpl.
  repeat (split; [reflexivity|]).
  intros Hlog. unfold log_usage. rewrite Hlog. reflexivity.
Qed.

(** The same request once more, answered from the table. *)
Definition stocked_and_hit : Database :=
  Eval vm_compute in fst (chat_completions quiet_world stocked hello "owner-1").

Definition second_answer : ChatCompletionResponse.t :=
  ChatCompletionResponse.Make ["Hi there"] true (Some "exact") None None.

Lemma exact_hit_is_the_callers_entry_witness :
  exists e : CacheEntry.t,
    In e (cache_entries stocked)
    /\ CacheEntry.user_id e = "owner-1"
    /\ CacheEntry.query_hash e = query_hash_of hello
    /\ ChatCompletionResponse.choices second_answer = [CacheEntry.response_text e]
    /\ ChatCompletionResponse.cached second_answer = true.
Proof.
  apply (exact_hit_is_the_callers_entry quiet_world stocked stocked_and_hit hello
           "owner-1" second_answer).
  - vm_compute. reflexivity.
  - reflexivity.
Defined.

(** A world in which the similarity search finds the entry 1 of
    another wording of the question. *)
Definition neighbour : CacheSearchResult.t :=
  CacheSearchResult.Make 1 "[{'role': 'user', 'content': 'Hello'}]" "Hi there"
    (9 # 10) 0 "gpt-3.5-turbo".

Definition neighbour_world : World :=
  {| now := 1700000100; response_time := 35;
     exact_select_fault := false; hit_select_fault := false;
     hit_update_fault := false; log_insert_fault := false;
     lookup_embedding := Some [1%Q; 0%Q];
     match_cache_entries := fun _ _ _ _ => Db.Data [neighbour];
     call_openai := Some upstream_answer;
     store_embedding := Some [1%Q; 0%Q];
     store_insert_fault := false |}.

Definition hello_again : ChatCompletionRequest.t :=
  ChatCompletionRequest.Make [[("role", "user"); ("content", "Hello!")]]
    "gpt-3.5-turbo" None (Some 1%Q) false.

Definition stocked_and_matched : Database :=
  Eval vm_compute in
    fst (chat_completions neighbour_world stocked hello_again "owner-1").

Lemma semantic_hit_is_not_stored_witness :
  List.length (cache_entries stocked_and_matched) = List.length (cache_entries stocked)
  /\ get_exact_match quiet_world stocked_and_matched (query_hash_of hello_again)
       "owner-1" = None.
Proof.
  apply (semantic_hit_is_not_stored neighbour_world quiet_world stocked
           stocked_and_matched hello_again "owner-1"
           (ChatCompletionResponse.Make ["Hi there"] true (Some "semantic")
              (Some (9 # 10)) None)).
  - reflexivity.
  - vm_compute. reflexivity.
  - reflexivity.
Defined.

Definition hello_claude : ChatCompletionRequest.t :=
  ChatCompletionRequest.Make [[("role", "user"); ("content", "Hello")]]
    "claude-3-sonnet-20240229" None (Some 1%Q) false.

Lemma other_models_are_served_from_cache_only_witness :
  List.length (cache_entries (fst (chat_completions quiet_world stocked hello_claude
                                     "owner-1")))
  = List.length (cache_entries stocked)
  /\ (forall r, snd (chat_completions quiet_world stocked hello_claude "owner-1") = inr r ->
      ChatCompletionResponse.cached r = true)
  /\ (forall e, snd (chat_completions quiet_world stocked hello_claude "owner-1") = inl e ->
      status_code e = 500).
Proof.
  apply (other_models_are_served_from_cache_only quiet_world stocked hello_claude
           "owner-1").
  reflexivity.
Defined.

Lemma served_miss_is_stored_and_logged_witness :
  exists (llm : LlmResponse.t) (e : CacheEntry.t),
    call_openai quiet_world = Some llm
    /\ ChatCompletionResponse.choices first_answer = [LlmResponse.content llm]
    /\ ChatCompletionResponse.usage first_answer = Some (LlmResponse.usage llm)
    /\ cache_entries stocked = (cache_entries empty_database ++ [e])%list
    /\ CacheEntry.user_id e = "owner-1"
    /\ CacheEntry.query_hash e = query_hash_of hello
    /\ CacheEntry.response_text e = LlmResponse.content llm
    /\ CacheEntry.model_used e = ChatCompletionRequest.model hello
    /\ CacheEntry.expires_at e = now quiet_world + 86400
    /\ CacheEntry.hit_count e = 0
    /\ CacheEntry.tokens_saved e = Usage.total_tokens (LlmResponse.usage llm)
    /\ (log_insert_fault quiet_world = false ->
        usage_logs stocked
        = (usage_logs empty_database
           ++ [UsageLog.Make "owner-1" None false (CacheEntry.tokens_saved e)
                 (CacheEntry.cost_saved e) (ChatCompletionRequest.model hello)
                 (response_time quiet_world)])%list).
Proof.
  apply (served_miss_is_stored_and_logged quiet_world empty_database stocked hello
           "owner-1" first_answer).
  - vm_compute. reflexivity.
  - reflexivity.
Defined.

End Traces.

(** ** Counting hits, and the statistics of an owner *)

Section Counting.

Import CacheService Proxy.

(** The same request of the same owner, once in each of the worlds. *)
Definition again (request : ChatCompletionRequest.t) (user_id : string)
    (worlds : list World) : list (World * ChatCompletionRequest.t * string) :=
  List.map (fun w => (w, request, user_id)) worlds.

Definition reaches_the_table (w : World) : Prop :=
  exact_select_fault w = false /\ hit_select_fault w = false
  /\ hit_update_fault w = false.

Lemma exact_hit_entries w db request user_id e :
  unique_ids (cache_entries db) -> reaches_the_table w ->
  List.filter (matches (query_hash_of request) user_id) (cache_entries db) = [e] ->
  cache_entries (fst (chat_completions w db request user_id))
  = List.map (touch (CacheEntry.hit_count e + 1) (CacheEntry.id e)) (cache_entries db).
Proof.
  intros Hid (Hf & Hs & Hu) Hfilter.
  assert (Hget : get_exact_match w db (query_hash_of request) user_id = Some e)
    by now apply get_exact_match_Some.
  unfold chat_completions. fold (query_hash_of request). rewrite Hget. simpl.
  rewrite log_usage_entries.
  assert (Hin : In e (cache_entries db)).
  { eapply proj1. apply List.filter_In. rewrite Hfilter. now left. }
  unfold update_hit_count, Db.single. rewrite Hs, Hu.
  now rewrite (filter_has_id_unique _ _ Hid Hin).
Qed.

(** X8.  Hits are counted one by one: when an owner has one entry
    under the key of a request and repeats the request [n] times,
    each time with the table in reach, the hit count of that entry
    has grown by exactly [n]. *)
Theorem repeated_hits_are_counted
    (worlds : list World) (db : Database) (request : ChatCompletionRequest.t)
    (user_id : string) (e : CacheEntry.t) :
  unique_ids (cache_entries db) ->
  List.filter (matches (query_hash_of request) user_id) (cache_entries db) = [e] ->
  Forall reaches_the_table worlds ->
  hit_count_of (serve db (again request user_id worlds)) (CacheEntry.id e)
  = Some (CacheEntry.hit_count e + Z.of_nat (List.length worlds)).
Proof.
  intros Hid Hfilter Hall. revert db e Hid Hfilter.
  induction Hall as [|w worlds Hw _ IH]; intros db e Hid Hfilter.
  - simpl. unfold hit_count_of.
    assert (Hin : In e (cache_entries db)).
    { eapply proj1. apply List.filter_In. rewrite Hfilter. now left. }
    rewrite (filter_has_id_unique _ _ Hid Hin). f_equal. lia.
  - unfold again, serve in *. simpl.
    pose proof (exact_hit_entries w db request user_id e Hid Hw Hfilter) as Hentries.
    set (db1 := fst (chat_completions w db request user_id)) in *.
    set (e1 := touch (CacheEntry.hit_count e + 1) (CacheEntry.id e) e).
    assert (Hid1 : unique_ids (cache_entries db1)).
    { unfold unique_ids. rewrite Hentries, map_touch_ids. exact Hid. }
    assert (Hfilter1 : List.filter (matches (query_hash_of request) user_id)
                         (cache_entries db1) = [e1]).
    { rewrite Hentries, filter_map_commute by (intros; apply touch_matches).
      now rewrite Hfilter. }
    specialize (IH db1 e1 Hid1 Hfilter1).
    assert (He1 : CacheEntry.id e1 = CacheEntry.id e) by apply touch_id.
    assert (Hh1 : CacheEntry.hit_count e1 = CacheEntry.hit_count e + 1).
    { unfold e1, touch, has_id. now rewrite Z.eqb_refl. }
    rewrite He1, Hh1 in IH. rewrite IH. f_equal. lia.
Qed.

Lemma repeated_hits_are_counted_witness :
  hit_count_of (serve stocked (again hello "owner-1" [quiet_world; quiet_world; quiet_world]))
    1
  = Some 3.
Proof.
  apply (repeated_hits_are_counted [quiet_world; quiet_world; quiet_world] stocked hello
           "owner-1"
           (CacheEntry.Make 1 "owner-1" (query_hash_of hello)
              (Json.dumps_list false (ChatCompletionRequest.messages hello))
              [1%Q; 0%Q] "Hi there" "gpt-3.5-turbo" 12
              (inject_Z 12 * cost_per_token)%Q (1700000000 + 24 * 3600) 0)).
  - unfold unique_ids. simpl. constructor; [intros H; inversion H|constructor].
  - vm_compute. reflexivity.
  - repeat constructor.
Defined.

Lemma filter_length_le {A : Type} (p : A -> bool) (l : list A) :
  (List.length (List.filter p l) <= List.length l)%nat.
Proof.
  induction l as [|a l IH]; simpl; [lia|]. destruct (p a); simpl; lia.
Qed.

(** X9.  The statistics of an owner are consistent: the hits are at
    most the requests, and the hit rate lies between 0 and 1. *)
Theorem cache_stats_are_consistent
    (db : Database) (user_id : string) (stats : CacheStats.t) :
  get_cache_stats false db user_id = inr stats ->
  0 <= CacheStats.cache_hits stats <= CacheStats.total_requests stats
  /\ (0 <= CacheStats.cache_hit_rate stats)%Q
  /\ (CacheStats.cache_hit_rate stats <= 1)%Q.
Proof.
  unfold get_cache_stats. intros [= <-]. simpl.
  set (logs := List.filter _ (usage_logs db)).
  pose proof (filter_length_le UsageLog.cache_hit logs) as Hle.
  set (hits := List.length (List.filter UsageLog.cache_hit logs)) in *.
  set (total := List.length logs) in *.
  split; [lia|].
  destruct (0 <? Z.of_nat total) eqn:Hpos.
  - apply Z.ltb_lt in Hpos.
    assert (Htotal : (0 < inject_Z (Z.of_nat total))%Q)
      by (unfold Qlt, inject_Z; simpl; lia).
    split.
    + apply Qle_shift_div_l; [exact Htotal|].
      rewrite Qmult_0_l. unfold Qle, inject_Z. simpl. lia.
    + apply Qle_shift_div_r; [exact Htotal|].
      rewrite Qmult_1_l. unfold Qle, inject_Z. simpl. lia.
  - split; discriminate.
Qed.

Lemma cache_stats_are_consistent_witness :
  0 <= 1 <= 2 /\ (0 <= 1 # 2)%Q /\ (1 # 2 <= 1)%Q.
Proof.
  apply (cache_stats_are_consistent stocked_and_hit "owner-1"
           (CacheStats.Make 2 1 (1 # 2) 0%Q 0)).
  vm_compute. reflexivity.
Defined.

Lemma chat_completions_logs_of_caller w db request user_id :
  exists added,
    usage_logs (fst (chat_completions w db request user_id))
    = (usage_logs db ++ added)%list
    /\ Forall (fun l => UsageLog.user_id l = user_id) added.
Proof.
  destruct (chat_completions_served_as w db request user_id).
  - destruct (log_usage_logs w (update_hit_count w db (CacheEntry.id e)) user_id None
                true 0 0%Q (ChatCompletionRequest.model request) (response_time w))
      as (added & Heq & _ & Hall & _).
    exists added. rewrite Heq, update_hit_count_logs. split; [reflexivity|].
    eapply Forall_impl; [exact Hall|]. now intros l ->.
  - destruct (log_usage_logs w (update_hit_count w db (CacheSearchResult.id best))
                user_id None true 0 0%Q (ChatCompletionRequest.model request)
                (response_time w))
      as (added & Heq & _ & Hall & _).
    exists added. rewrite Heq, update_hit_count_logs. split; [reflexivity|].
    eapply Forall_impl; [exact Hall|]. now intros l ->.
  - exists []. rewrite List.app_nil_r. split; [reflexivity|constructor].
  - match goal with Hs : store_cache_entry _ _ _ _ _ _ _ _ _ = _ |- _ =>
      apply store_cache_entry_inr in Hs as (_ & Hlogs & _) end.
    destruct (log_usage_logs w db1 user_id None false
                (Usage.total_tokens (LlmResponse.usage llm))
                (inject_Z (Usage.total_tokens (LlmResponse.usage llm)) * cost_per_token)%Q
                (ChatCompletionRequest.model request) (response_time w))
      as (added & Heq & _ & Hall & _).
    exists added. rewrite Heq, Hlogs. split; [reflexivity|].
    eapply Forall_impl; [exact Hall|]. now intros l ->.
Qed.

Lemma serve_logs_of_others requests db user_id :
  Forall (fun wru => snd wru <> user_id) requests ->
  List.filter (fun l => String.eqb (UsageLog.user_id l) user_id)
    (usage_logs (serve db requests))
  = List.filter (fun l => String.eqb (UsageLog.user_id l) user_id) (usage_logs db).
Proof.
  unfold serve. intros Hall. revert db.
  induction Hall as [|[[w request] caller] requests Hne _ IH]; intros db; simpl.
  - reflexivity.
  - rewrite IH.
    destruct (chat_completions_logs_of_caller w db request caller)
      as (added & -> & Hcaller).
    rewrite List.filter_app.
    replace (List.filter _ added) with (@nil UsageLog.t);
      [now rewrite List.app_nil_r|].
    symmetry. induction Hcaller as [|l added Hl _ IHa]; simpl; [reflexivity|].
    rewrite Hl. simpl in Hne.
    destruct (String.eqb_spec caller user_id); [contradiction|exact IHa].
Qed.

(** X10.  The statistics of an owner do not see the requests of other
    owners: whatever requests of others are served, the answer of the
    statistics endpoint for this owner stays the same. *)
Theorem cache_stats_ignore_other_owners
    (requests : list (World * ChatCompletionRequest.t * string))
    (select_fault : bool) (db : Database) (user_id : string) :
  Forall (fun wru => snd wru <> user_id) requests ->
  get_cache_stats select_fault (serve db requests) user_id
  = get_cache_stats select_fault db user_id.
Proof.
  intros Hall. unfold get_cache_stats.
  now rewrite (serve_logs_of_others requests db user_id Hall).
Qed.

Lemma cache_stats_ignore_other_owners_witness :
  get_cache_stats false
    (serve stocked [(quiet_world, hello, "owner-2"); (quiet_world, hello, "owner-2")])
    "owner-1"
  = get_cache_stats false stocked "owner-1".
Proof.
  apply (cache_stats_ignore_other_owners
           [(quiet_world, hello, "owner-2"); (quiet_world, hello, "owner-2")]).
  repeat constructor; discriminate.
Defined.

End Counting.

(** ** The shape of a cache key *)

Section KeyShape.

Import Sha256.

Definition is_lower_hex (c : ascii) : bool :=
  let n := Json.ord c in
  ((48 <=? n) && (n <=? 57)) || ((97 <=? n) && (n <=? 102)).

Lemma hex_digit_lower d : 0 <= d < 16 -> is_lower_hex (hex_digit d) = true.
Proof.
  intros Hd. replace d with (Z.of_nat (Z.to_nat d)) by lia.
  assert (Hn : (Z.to_nat d < 16)%nat) by lia.
  generalize dependent (Z.to_nat d). clear d Hd. intros n Hn.
  do 16 (destruct n as [|n]; [reflexivity|]). lia.
Qed.

Lemma hex_shape (bs : list Z) :
  Forall (fun b => 0 <= b < 256) bs ->
  String.length (hex bs) = (2 * List.length bs)%nat
  /\ all_chars is_lower_hex (hex bs) = true.
Proof.
  induction 1 as [|b bs Hb _ [IHlen IHall]]; simpl; [auto|].
  split; [lia|].
  rewrite !hex_digit_lower, IHall; [reflexivity| |].
  - pose proof (Z.mod_pos_bound b 16). lia.
  - split; [apply Z.div_pos; lia|apply Z.div_lt_upper_bound; lia].
Qed.

Lemma digest_bytes (msg : list Z) :
  List.length (digest msg) = 32%nat /\ Forall (fun b => 0 <= b < 256) (digest msg).
Proof.
  unfold digest. generalize (blocks (Nat.div (List.length (pad msg)) 64) init (pad msg)).
  intros r. cbn [List.flat_map be_bytes List.app List.length].
  split; [reflexivity|].
  repeat constructor; apply Z.mod_pos_bound; lia.
Qed.

(** X11.  The key of a request is always 64 characters long, each a
    digit or one of the letters a to f: it is a hexadecimal SHA-256
    digest whatever the messages and the model are. *)
Theorem generate_query_hash_shape (messages : list Json.dict) (model : string) :
  String.length (CacheService.generate_query_hash messages model) = 64%nat
  /\ all_chars is_lower_hex (CacheService.generate_query_hash messages model) = true.
Proof.
  unfold CacheService.generate_query_hash, hexdigest.
  destruct (digest_bytes (encode (Json.dumps_normalized messages model))) as [Hlen Hall].
  destruct (hex_shape _ Hall) as [Hl Hc]. rewrite Hl, Hlen. auto.
Qed.

End KeyShape.

(** ** The usage of a month *)

Section MonthlyCounters.

Import SubscriptionService.

(** The counters of the owner for the month, zero without a row. *)
Definition month_counters (w : SubscriptionWorld) (monthly_usage : list MonthlyUsage.t)
    (user_id : string) : Z * Z * Z :=
  match List.filter (usage_row user_id (current_month w)) monthly_usage with
  | [r] => (MonthlyUsage.requests_used r, MonthlyUsage.cache_hits r,
            MonthlyUsage.cache_misses r)
  | _ => (0, 0, 0)
  end.

Definition store_answers (w : SubscriptionWorld) : Prop :=
  select_usage_fault w = false /\ write_usage_fault w = false.

(** The update of [increment_usage], as a function of a row. *)
Definition counted (existing : MonthlyUsage.t) (requests_count : Z) (cache_hit : bool)
    (r : MonthlyUsage.t) : MonthlyUsage.t :=
  if MonthlyUsage.id r =? MonthlyUsage.id existing then
    MonthlyUsage.Make (MonthlyUsage.id r) (MonthlyUsage.user_id r)
      (MonthlyUsage.month_year r)
      (MonthlyUsage.requests_used existing + requests_count)
      (if cache_hit then MonthlyUsage.cache_hits existing + 1
       else MonthlyUsage.cache_hits r)
      (if cache_hit then MonthlyUsage.cache_misses r
       else MonthlyUsage.cache_misses existing + 1)
      (MonthlyUsage.tokens_saved r) (MonthlyUsage.cost_saved r)
  else r.

Lemma counted_usage_row existing n hit u m r :
  usage_row u m (counted existing n hit r) = usage_row u m r.
Proof. unfold counted. now destruct (_ =? _). Qed.

Lemma increment_usage_rows w monthly_usage user_id requests_count cache_hit row :
  store_answers w ->
  List.filter (usage_row user_id (current_month w)) monthly_usage = [row] ->
  List.filter (usage_row user_id (current_month w))
    (increment_usage w monthly_usage user_id requests_count cache_hit)
  = [counted row requests_count cache_hit row].
Proof.
  intros [Hs Hw] Hf. unfold increment_usage, Db.single. rewrite Hs, Hw, Hf.
  fold (counted row requests_count cache_hit).
  rewrite filter_map_commute by (intros; apply counted_usage_row).
  now rewrite Hf.
Qed.

(** X12.  Called with its own parameters while the store answers,
    [increment_usage] counts a request for an owner who has a row for
    the month: the usage [check_usage_limits] reports for the owner
    grows by the number of requests counted, exactly one of the hit
    and miss counters of the month grows by one, and the owner still
    has one row.  For an owner without a row of the month the read of
    the single row raises, the handler swallows it, and the table
    stays as it was: the row of a month is never created here. *)
Theorem counted_request_is_seen_by_the_quota_check
    (w : SubscriptionWorld) (monthly_usage : list MonthlyUsage.t) (user_id : string)
    (requests_count : Z) (cache_hit : bool) :
  store_answers w ->
  let monthly_usage' :=
    increment_usage w monthly_usage user_id requests_count cache_hit in
  (forall row : MonthlyUsage.t,
      List.filter (usage_row user_id (current_month w)) monthly_usage = [row] ->
      UsageStatus.current_usage (check_usage_limits w monthly_usage' user_id)
      = UsageStatus.current_usage (check_usage_limits w monthly_usage user_id)
        + requests_count
      /\ month_counters w monthly_usage' user_id
         = (MonthlyUsage.requests_used row + requests_count,
            MonthlyUsage.cache_hits row + (if cache_hit then 1 else 0),
            MonthlyUsage.cache_misses row + (if cache_hit then 0 else 1))
      /\ List.length (List.filter (usage_row user_id (current_month w)) monthly_usage')
         = 1%nat)
  /\ (List.length (List.filter (usage_row user_id (current_month w)) monthly_usage)
      <> 1%nat ->
      monthly_usage' = monthly_usage).
Proof.
  intros Hw monthly_usage'. split.
  - intros row Hf.
    pose proof (increment_usage_rows w monthly_usage user_id requests_count cache_hit
                  row Hw Hf) as Hf'.
    fold monthly_usage' in Hf'. destruct Hw as [Hs Hw].
    assert (Hcounted : counted row requests_count cache_hit row
                       = MonthlyUsage.Make (MonthlyUsage.id row)
                           (MonthlyUsage.user_id row) (MonthlyUsage.month_year row)
                           (MonthlyUsage.requests_used row + requests_count)
                           (if cache_hit then MonthlyUsage.cache_hits row + 1
                            else MonthlyUsage.cache_hits row)
                           (if cache_hit then MonthlyUsage.cache_misses row
                            else MonthlyUsage.cache_misses row + 1)
                           (MonthlyUsage.tokens_saved row) (MonthlyUsage.cost_saved row))
      by (unfold counted; now rewrite Z.eqb_refl).
    split; [|split].
    + unfold check_usage_limits, Db.single. rewrite Hs, Hf', Hf, Hcounted. reflexivity.
    + unfold month_counters. rewrite Hf', Hcounted. simpl.
      destruct cache_hit; now rewrite Z.add_0_r.
    + now rewrite Hf'.
  - intros Hne. subst monthly_usage'. unfold increment_usage, Db.single.
    destruct (select_usage_fault w); [reflexivity|].
    destruct (List.filter _ monthly_usage) as [|r [|r2 rest]];
      [reflexivity|now contradiction Hne|reflexivity].
Qed.

Lemma counted_request_is_seen_by_the_quota_check_witness :
  UsageStatus.current_usage
    (check_usage_limits startup_world
       (increment_usage startup_world may_usage "owner-1" 1 true) "owner-1")
  = 10000 + 1
  /\ month_counters startup_world
       (increment_usage startup_world may_usage "owner-1" 1 true) "owner-1"
     = (10000 + 1, 4000 + 1, 6000 + 0)
  /\ List.length
       (List.filter (usage_row "owner-1" (current_month startup_world))
          (increment_usage startup_world may_usage "owner-1" 1 true)) = 1%nat.
Proof.
  apply (proj1 (counted_request_is_seen_by_the_quota_check startup_world may_usage
                  "owner-1" 1 true (conj eq_refl eq_refl))
           (MonthlyUsage.Make 1 "owner-1" "2024-05" 10000 4000 6000 0 0%Q)).
  reflexivity.
Defined.

(** The table of the month is well kept when its keys are distinct and
    an owner has at most one row a month. *)
Definition well_kept (monthly_usage : list MonthlyUsage.t) : Prop :=
  NoDup (List.map MonthlyUsage.id monthly_usage)
  /\ forall user_id month : string,
       (List.length (List.filter (usage_row user_id month) monthly_usage) <= 1)%nat.

Lemma same_id_same_row (monthly_usage : list MonthlyUsage.t) (a b : MonthlyUsage.t) :
  NoDup (List.map MonthlyUsage.id monthly_usage) ->
  In a monthly_usage -> In b monthly_usage ->
  MonthlyUsage.id a = MonthlyUsage.id b -> a = b.
Proof.
  induction monthly_usage as [|x l IH]; simpl; [easy|].
  intros Hnd Ha Hb Hid. apply NoDup_cons in Hnd as [Hx Hnd].
  assert (Hout : forall y, In y l -> MonthlyUsage.id x <> MonthlyUsage.id y).
  { intros y Hy Heq. apply Hx. rewrite Heq. apply list_elem_of_In.
    now apply List.in_map. }
  destruct Ha as [<- | Ha], Hb as [<- | Hb]; auto.
  - now apply Hout in Hb.
  - symmetry in Hid. now apply Hout in Ha.
Qed.

Lemma filter_map_fixed {A : Type} (p : A -> bool) (g : A -> A) (l : list A) :
  (forall x, In x l -> p (g x) = p x) ->
  (forall x, In x l -> p x = true -> g x = x) ->
  List.filter p (List.map g l) = List.filter p l.
Proof.
  induction l as [|a l IH]; intros Hp Hg; simpl; [reflexivity|].
  rewrite Hp by now left. destruct (p a) eqn:Hpa.
  - rewrite Hg by (auto; now left). f_equal. apply IH; intros; [apply Hp|apply Hg]; auto;
      now right.
  - apply IH; intros; [apply Hp|apply Hg]; auto; now right.
Qed.

(** X13.  [increment_usage] keeps the table of the month well kept,
    and changes no row but the one of the owner for the current month:
    the rows of other owners and of other months are as they were. *)
Theorem increment_usage_keeps_other_rows
    (w : SubscriptionWorld) (monthly_usage : list MonthlyUsage.t) (user_id : string)
    (requests_count : Z) (cache_hit : bool) :
  well_kept monthly_usage ->
  well_kept (increment_usage w monthly_usage user_id requests_count cache_hit)
  /\ List.filter (fun r => negb (usage_row user_id (current_month w) r))
       (increment_usage w monthly_usage user_id requests_count cache_hit)
     = List.filter (fun r => negb (usage_row user_id (current_month w) r)) monthly_usage.
Proof.
  intros [Hnd Hone]. unfold increment_usage, Db.single.
  destruct (select_usage_fault w); [now split|].
  destruct (List.filter (usage_row user_id (current_month w)) monthly_usage)
    as [|existing [|r2 rest]] eqn:Hf; [now split| |now split].
  destruct (write_usage_fault w); [now split|].
  fold (counted existing requests_count cache_hit).
  assert (Hin : In existing monthly_usage).
  { eapply proj1. apply List.filter_In. rewrite Hf. now left. }
  split; [split|].
  + rewrite List.map_map.
    replace (List.map _ monthly_usage) with (List.map MonthlyUsage.id monthly_usage);
      [exact Hnd|].
    apply List.map_ext. intros r. unfold counted. now destruct (_ =? _).
  + intros u m. rewrite filter_map_commute by (intros; apply counted_usage_row).
    rewrite List.length_map. apply Hone.
  + apply filter_map_fixed.
    * intros x _. now rewrite counted_usage_row.
    * intros x Hx Hneg. unfold counted.
      destruct (Z.eqb_spec (MonthlyUsage.id x) (MonthlyUsage.id existing)) as [Heq|];
        [|reflexivity].
      apply (same_id_same_row _ _ _ Hnd Hx Hin) in Heq. subst x.
      assert (Hrow : In existing
                       (List.filter (usage_row user_id (current_month w)) monthly_usage))
        by (rewrite Hf; now left).
      apply List.filter_In in Hrow as [_ Hrow]. rewrite Hrow in Hneg. discriminate.
Qed.

Lemma increment_usage_keeps_other_rows_witness :
  well_kept (increment_usage startup_world may_usage "owner-2" 1 false)
  /\ List.filter (fun r => negb (usage_row "owner-2" (current_month startup_world) r))
       (increment_usage startup_world may_usage "owner-2" 1 false)
     = List.filter (fun r => negb (usage_row "owner-2" (current_month startup_world) r))
         may_usage.
Proof.
  apply (increment_usage_keeps_other_rows startup_world may_usage "owner-2" 1 false).
  split.
  - simpl. apply NoDup_singleton.
  - intros u m. unfold may_usage. simpl. destruct (usage_row u m _); simpl; lia.
Defined.

Definition consistent (status : UsageStatus.t) : Prop :=
  0 <= UsageStatus.overage status
  /\ (UsageStatus.within_limits status = true -> UsageStatus.overage status = 0)
  /\ (forall limit, UsageStatus.monthly_limit status = Some limit -> limit <> 0 ->
      UsageStatus.within_limits status = false ->
      UsageStatus.current_usage status = limit + UsageStatus.overage status)
  /\ (UsageStatus.monthly_limit status = None ->
      UsageStatus.within_limits status = true)
  /\ (UsageStatus.monthly_limit status = Some 0 -> 0 <= UsageStatus.current_usage status ->
      UsageStatus.within_limits status = false /\ UsageStatus.overage status = 0).

Lemma status_of_usage_consistent (usage : Z) (monthly_limit : option Z) (name : string) :
  consistent
    (UsageStatus.Make
       (match monthly_limit with
        | None => true
        | Some limit => usage <? limit
        end)
       usage monthly_limit
       (match monthly_limit with
        | Some limit => if limit =? 0 then 0 else Z.max 0 (usage - limit)
        | None => 0
        end)
       name).
Proof.
  unfold consistent. destruct monthly_limit as [limit|]; simpl.
  - split; [destruct (Z.eqb_spec limit 0); lia|].
    split; [intros H%Z.ltb_lt; destruct (Z.eqb_spec limit 0); lia|].
    split.
    { intros l [= <-] Hne H%Z.ltb_ge. destruct (Z.eqb_spec limit 0); lia. }
    split; [discriminate|].
    intros [= ->] Hu. split; [apply Z.ltb_ge; lia|reflexivity].
  - split; [lia|]. split; [reflexivity|]. split; [discriminate|].
    split; [reflexivity|discriminate].
Qed.

(** X14.  The answer of [check_usage_limits] is consistent: the
    overage is never negative and is 0 within the limits; outside the
    limits of a quota other than 0 the usage is the quota plus the
    overage; a plan without a quota is always within its limits; and a
    quota of 0 is never within its limits, yet reports no overage. *)
Theorem usage_status_is_consistent
    (w : SubscriptionWorld) (monthly_usage : list MonthlyUsage.t) (user_id : string) :
  consistent (check_usage_limits w monthly_usage user_id).
Proof.
  unfold check_usage_limits.
  destruct (Db.single _ _) as [| |r]; [|apply status_of_usage_consistent..].
  unfold consistent. simpl.
  split; [lia|]. split; [reflexivity|]. split; [discriminate|].
  split; [discriminate|]. discriminate.
Qed.

End MonthlyCounters.

(** ** Features and plans *)

Section Gates.

Import SubscriptionService FeatureGates RequiresPlan.

(** The features [has_feature] reads from a column of the plan. *)
Definition built_in : list string :=
  ["custom_similarity"; "advanced_analytics"; "priority_support"; "sso";
   "white_label"; "ab_testing"; "webhooks"].

(** Two worlds that answer alike about subscriptions and plans. *)
Definition same_subscription (w1 w2 : SubscriptionWorld) : Prop :=
  select_subscription w1 = select_subscription w2
  /\ select_free_plan w1 = select_free_plan w2
  /\ select_existing w1 = select_existing w2
  /\ insert_subscription_fault w1 = insert_subscription_fault w2.

Lemma same_subscription_read w1 w2 user_id :
  same_subscription w1 w2 ->
  get_user_subscription w1 user_id = get_user_subscription w2 user_id.
Proof.
  intros (Hs & Hf & He & Hi). unfold get_user_subscription, assign_free_plan.
  now rewrite Hs, Hf, He, Hi.
Qed.

(** X15.  The plan decides before the flags of the user: for a
    feature that is a column of the plan, and for one the plan lists
    among its [features], the answer of [has_feature] does not depend
    on the table of user features, so a flag granted to the user
    cannot switch it on; the feature gate of the middleware answers
    alike. *)
Theorem plan_decides_before_user_flags
    (w1 w2 : SubscriptionWorld) (user_id feature : string) :
  same_subscription w1 w2 ->
  In feature built_in
  \/ is_Some (Plan.features (Subscription.plan (get_user_subscription w1 user_id))
              !! feature) ->
  has_feature w1 user_id feature = has_feature w2 user_id feature
  /\ requires_feature feature w1 (Some user_id) = requires_feature feature w2 (Some user_id)
  /\ forall path, FeatureGateMiddleware.required_feature path = Some feature ->
                  FeatureGateMiddleware.dispatch w1 path (Some user_id)
                  = FeatureGateMiddleware.dispatch w2 path (Some user_id).
Proof.
  intros Hsame Hplan.
  assert (Hhas : has_feature w1 user_id feature = has_feature w2 user_id feature).
  { unfold has_feature.
    rewrite <- (same_subscription_read w1 w2 user_id Hsame).
    destruct Hplan as [Hin | [b Hb]].
    - simpl in Hin.
      repeat (destruct Hin as [<- | Hin]; [reflexivity|]). contradiction.
    - rewrite Hb.
      repeat match goal with
             | |- context [String.eqb feature ?s] => destruct (String.eqb feature s)
             end; reflexivity. }
  split; [exact Hhas|]. split.
  - unfold requires_feature. now rewrite Hhas.
  - intros path Hpath. unfold FeatureGateMiddleware.dispatch. rewrite Hpath.
    simpl. now rewrite Hhas.
Qed.

(** The free plan, and a flag granted to every user for every
    feature. *)
Definition granted_world : SubscriptionWorld :=
  {| current_month := "2024-05";
     select_subscription := Db.Data (Subscription.Make "active" (Some free_plan));
     select_free_plan := Db.Data free_plan;
     select_existing := Db.NoData;
     insert_subscription_fault := false;
     select_usage_fault := false;
     write_usage_fault := false;
     select_user_feature := fun _ _ => Db.Data true |}.

Lemma plan_decides_before_user_flags_witness :
  has_feature free_world "owner-1" "advanced_analytics"
  = has_feature granted_world "owner-1" "advanced_analytics"
  /\ requires_feature "advanced_analytics" free_world (Some "owner-1")
     = requires_feature "advanced_analytics" granted_world (Some "owner-1")
  /\ forall path,
       FeatureGateMiddleware.required_feature path = Some "advanced_analytics" ->
       FeatureGateMiddleware.dispatch free_world path (Some "owner-1")
       = FeatureGateMiddleware.dispatch granted_world path (Some "owner-1").
Proof.
  apply (plan_decides_before_user_flags free_world granted_world "owner-1"
           "advanced_analytics").
  - repeat split.
  - left. simpl. auto.
Defined.

(** The rank [requires_plan] gives the plan of a user, and the rank it
    asks for. *)
Definition rank_of (user_plan : string) : Z := default 0 (plan_hierarchy !! user_plan).
Definition rank_for (min_plan : string) : Z := default 999 (plan_hierarchy !! min_plan).

Lemma plan_hierarchy_cases (plan : string) :
  plan_hierarchy !! plan
  = if decide (plan = "free") then Some 0
    else if decide (plan = "startup") then Some 1
    else if decide (plan = "business") then Some 2
    else if decide (plan = "enterprise") then Some 3
    else None.
Proof.
  unfold plan_hierarchy. simpl. rewrite !lookup_insert, lookup_empty.
  repeat case_decide; subst; try reflexivity; congruence.
Qed.

Lemma rank_of_bounds (plan : string) : 0 <= rank_of plan <= 3.
Proof.
  unfold rank_of. rewrite plan_hierarchy_cases. repeat case_decide; simpl; lia.
Qed.

Lemma requires_plan_admits min_plan w user_id :
  no_user (Some user_id) = false ->
  requires_plan min_plan w (Some user_id) = None
  <-> rank_for min_plan <= rank_of (user_plan (get_user_subscription w user_id)).
Proof.
  intros Huser. unfold requires_plan. rewrite Huser. simpl.
  fold (rank_of (user_plan (get_user_subscription w user_id))). fold (rank_for min_plan).
  destruct (Z.ltb_spec (rank_of (user_plan (get_user_subscription w user_id)))
              (rank_for min_plan)); split; try discriminate; try reflexivity; lia.
Qed.

(** X16.  The plan gate follows the hierarchy free, startup, business,
    enterprise: a user admitted at a gate is admitted at every gate
    that asks for no more, and a user of the enterprise plan is
    admitted at every gate that names a plan of the hierarchy. *)
Theorem requires_plan_follows_the_hierarchy
    (w : SubscriptionWorld) (user_id min_plan : string) :
  no_user (Some user_id) = false ->
  (forall lower : string,
      requires_plan min_plan w (Some user_id) = None ->
      rank_for lower <= rank_for min_plan ->
      requires_plan lower w (Some user_id) = None)
  /\ (user_plan (get_user_subscription w user_id) = "enterprise" ->
      is_Some (plan_hierarchy !! min_plan) ->
      requires_plan min_plan w (Some user_id) = None).
Proof.
  intros Huser. split.
  - intros lower Hadmitted Hle.
    apply (requires_plan_admits _ _ _ Huser) in Hadmitted.
    apply (requires_plan_admits _ _ _ Huser). lia.
  - intros Hplan [r Hr]. apply (requires_plan_admits _ _ _ Huser).
    rewrite Hplan. unfold rank_for, rank_of. rewrite Hr.
    rewrite plan_hierarchy_cases in Hr.
    repeat case_decide; try discriminate; injection Hr as <-; vm_compute; discriminate.
Qed.

Lemma requires_plan_follows_the_hierarchy_witness :
  (forall lower : string,
      requires_plan "startup" startup_world (Some "owner-1") = None ->
      rank_for lower <= rank_for "startup" ->
      requires_plan lower startup_world (Some "owner-1") = None)
  /\ (user_plan (get_user_subscription startup_world "owner-1") = "enterprise" ->
      is_Some (plan_hierarchy !! "startup") ->
      requires_plan "startup" startup_world (Some "owner-1") = None).
Proof.
  apply (requires_plan_follows_the_hierarchy startup_world "owner-1" "startup").
  reflexivity.
Defined.

Lemma rank_for_free (min_plan : string) : rank_for min_plan <= 0 <-> min_plan = "free".
Proof.
  unfold rank_for. rewrite plan_hierarchy_cases.
  repeat case_decide; simpl; split; intros; subst; try lia; congruence.
Qed.

(** X17.  Names outside the hierarchy: a gate whose plan is not one of
    the four admits nobody, whatever the plan of the user; a user whose
    plan is not one of the four is ranked as free, and so is a user
    whose subscription cannot be read: they pass the gate of the free
    plan and no other. *)
Theorem requires_plan_outside_the_hierarchy
    (w : SubscriptionWorld) (user_id min_plan : string) :
  no_user (Some user_id) = false ->
  (plan_hierarchy !! min_plan = None ->
   requires_plan min_plan w (Some user_id)
   = Some {| gate_status := 403;
             gate_detail :=
               PlanUpgrade (user_plan (get_user_subscription w user_id)) min_plan |})
  /\ (plan_hierarchy !! user_plan (get_user_subscription w user_id) = None ->
      (requires_plan min_plan w (Some user_id) = None <-> min_plan = "free"))
  /\ (select_subscription w = Db.Raised -> select_free_plan w = Db.Raised ->
      (requires_plan min_plan w (Some user_id) = None <-> min_plan = "free")).
Proof.
  intros Huser. split; [|split].
  - intros Hunknown. unfold requires_plan. rewrite Huser, Hunknown. simpl.
    pose proof (rank_of_bounds (user_plan (get_user_subscription w user_id))) as Hb.
    unfold rank_of in Hb.
    destruct (Z.ltb_spec (default 0 (plan_hierarchy
                                       !! user_plan (get_user_subscription w user_id)))
                999); [reflexivity|lia].
  - intros Hunknown. rewrite (requires_plan_admits _ _ _ Huser).
    unfold rank_of at 1. rewrite Hunknown. simpl. apply rank_for_free.
  - intros Hsub Hfree. rewrite (requires_plan_admits _ _ _ Huser).
    rewrite (subscription_fallback _ _ Hsub Hfree).
    change (rank_of (user_plan minimal_free_plan)) with 0. apply rank_for_free.
Qed.

Lemma requires_plan_outside_the_hierarchy_witness :
  requires_plan "bussiness" startup_world (Some "owner-1")
  = Some {| gate_status := 403; gate_detail := PlanUpgrade "startup" "bussiness" |}.
Proof.
  apply (requires_plan_outside_the_hierarchy startup_world "owner-1" "bussiness");
    reflexivity.
Defined.

End Gates.

(** ** API keys *)

Section KeyLimits.

Import SubscriptionService FeatureGates ApiKeys.

(** The number of active keys of a user. *)
Definition active_keys (user_id : string) (api_keys : list ApiKey.t) : Z :=
  Z.of_nat (List.length (List.filter (active_key user_id) api_keys)).

Lemma check_api_key_limit_None w kw api_keys user_id :
  check_api_key_limit w kw api_keys user_id = None
  <-> count_keys_fault kw = false
      /\ match max_api_keys (get_user_subscription w user_id) with
         | None => True
         | Some max => active_keys user_id api_keys < max
         end.
Proof.
  unfold check_api_key_limit, can_create_api_key, active_keys.
  destruct (count_keys_fault kw); simpl; [split; [discriminate|intros [[=] _]]|].
  destruct (max_api_keys _) as [max|]; simpl; [|easy].
  destruct (Z.ltb_spec (Z.of_nat (List.length (List.filter (active_key user_id) api_keys)))
              max); simpl; split; try discriminate; auto.
  intros [_ Hlt]. lia.
Qed.

(** X18.  The key limit fails closed and counts active keys only: when
    the keys cannot be counted the check refuses; when they can, it
    admits on a plan without a limit, and on a plan with the limit
    [max] exactly when the user has fewer than [max] active keys; a
    refusal has status 403 and names the limit. *)
Theorem api_key_limit_fails_closed
    (w : SubscriptionWorld) (kw : KeyWorld) (api_keys : list ApiKey.t)
    (user_id : string) :
  (forall e, check_api_key_limit w kw api_keys user_id = Some e ->
      gate_status e = 403
      /\ exists plan_name,
           gate_detail e
           = KeyLimit plan_name (max_api_keys (get_user_subscription w user_id)))
  /\ (count_keys_fault kw = true ->
      check_api_key_limit w kw api_keys user_id <> None)
  /\ (count_keys_fault kw = false ->
      max_api_keys (get_user_subscription w user_id) = None ->
      check_api_key_limit w kw api_keys user_id = None)
  /\ (count_keys_fault kw = false ->
      forall max, max_api_keys (get_user_subscription w user_id) = Some max ->
      (check_api_key_limit w kw api_keys user_id = None
       <-> active_keys user_id api_keys < max)).
Proof.
  unfold check_api_key_limit, can_create_api_key, active_keys.
  split; [|split; [|split]].
  - intros e. destruct (negb _); [|discriminate]. intros [= <-]. simpl. eauto.
  - intros ->. discriminate.
  - intros -> ->. reflexivity.
  - intros -> max ->.
    destruct (Z.ltb_spec (Z.of_nat (List.length (List.filter (active_key user_id) api_keys)))
                max); simpl; split; try discriminate; try reflexivity; lia.
Qed.

Lemma create_api_key_cases w kw api_keys user_id key_name :
  no_user (Some user_id) = false ->
  (check_api_key_limit w kw api_keys user_id = None
   /\ import_fault kw = false /\ insert_key_fault kw = false
   /\ create_api_key w kw api_keys (Some user_id) key_name
      = ((api_keys
          ++ [ApiKey.Make (new_key_id kw) user_id key_name
                ("sk-" ++ token_urlsafe kw)%string true])%list,
         Return ("sk-" ++ token_urlsafe kw)%string))
  \/ (exists outcome,
         create_api_key w kw api_keys (Some user_id) key_name = (api_keys, outcome)
         /\ forall key, outcome <> Return key).
Proof.
  intros Huser. unfold create_api_key. rewrite Huser. simpl.
  destruct (check_api_key_limit w kw api_keys user_id) as [e|];
    [right; eexists; split; [reflexivity|discriminate]|].
  destruct (import_fault kw); [right; eexists; split; [reflexivity|discriminate]|].
  destruct (insert_key_fault kw); [right; eexists; split; [reflexivity|discriminate]|].
  left. auto.
Qed.

(** X19.  Creating a key respects the limit of the plan: the rows
    that were there stay as they were, a key is added only when the
    user has fewer active keys than the plan allows, and so a user
    within the limit stays within it.  The key that is answered is the
    one stored, active and owned by the user. *)
Theorem create_api_key_respects_the_limit
    (w : SubscriptionWorld) (kw : KeyWorld) (api_keys : list ApiKey.t)
    (user_id key_name : string) (max : Z) :
  no_user (Some user_id) = false ->
  max_api_keys (get_user_subscription w user_id) = Some max ->
  let api_keys' := fst (create_api_key w kw api_keys (Some user_id) key_name) in
  let outcome := snd (create_api_key w kw api_keys (Some user_id) key_name) in
  (active_keys user_id api_keys <= max -> active_keys user_id api_keys' <= max)
  /\ (forall key, outcome = Return key ->
      active_keys user_id api_keys < max
      /\ api_keys'
         = (api_keys ++ [ApiKey.Make (new_key_id kw) user_id key_name key true])%list
      /\ active_keys user_id api_keys' = active_keys user_id api_keys + 1)
  /\ ((forall key, outcome <> Return key) -> api_keys' = api_keys).
Proof.
  intros Huser Hmax api_keys' outcome. subst api_keys' outcome.
  assert (Hone : forall key,
             active_keys user_id
               (api_keys ++ [ApiKey.Make (new_key_id kw) user_id key_name key true])
             = active_keys user_id api_keys + 1).
  { intros key. unfold active_keys. rewrite List.filter_app, List.length_app. simpl.
    unfold active_key at 2. simpl. rewrite String.eqb_refl. simpl. lia. }
  destruct (create_api_key_cases w kw api_keys user_id key_name Huser)
    as [(Hcheck & _ & _ & ->) | (outcome & -> & Hno)]; simpl.
  - apply check_api_key_limit_None in Hcheck as [_ Hlt]. rewrite Hmax in Hlt.
    split; [|split].
    + intros _. rewrite Hone. lia.
    + intros key [= <-]. auto.
    + intros Hno. now contradiction (Hno ("sk-" ++ token_urlsafe kw)%string).
  - split; [auto|]. split; [|auto].
    intros key ->. now contradiction (Hno key).
Qed.

Definition key_world : KeyWorld :=
  {| count_keys_fault := false; import_fault := false;
     token_urlsafe := "Zm9yLXRoZS1leGFtcGxlLW9ubHktbm90LWEta2V5LTAwMQ";
     new_key_id := "7d9c1a52-0000-4000-8000-000000000002";
     insert_key_fault := false; list_keys_fault := false;
     update_key_fault := false |}.

Definition first_key : ApiKey.t :=
  ApiKey.Make "7d9c1a52-0000-4000-8000-000000000001" "owner-1" "laptop"
    "sk-b2xkLWtleS1mb3ItdGhlLWV4YW1wbGUtb25seS0wMDAwMDE" true.

Lemma create_api_key_respects_the_limit_witness :
  (active_keys "owner-1" [first_key] <= 1 ->
   active_keys "owner-1"
     (fst (create_api_key free_world key_world [first_key] (Some "owner-1") "desk")) <= 1)
  /\ (forall key,
        snd (create_api_key free_world key_world [first_key] (Some "owner-1") "desk")
        = Return key ->
        active_keys "owner-1" [first_key] < 1
        /\ fst (create_api_key free_world key_world [first_key] (Some "owner-1") "desk")
           = ([first_key]
              ++ [ApiKey.Make (new_key_id key_world) "owner-1" "desk" key true])%list
        /\ active_keys "owner-1"
             (fst (create_api_key free_world key_world [first_key] (Some "owner-1") "desk"))
           = active_keys "owner-1" [first_key] + 1)
  /\ ((forall key,
         snd (create_api_key free_world key_world [first_key] (Some "owner-1") "desk")
         <> Return key) ->
      fst (create_api_key free_world key_world [first_key] (Some "owner-1") "desk")
      = [first_key]).
Proof.
  apply (create_api_key_respects_the_limit free_world key_world [first_key] "owner-1"
           "desk" 1); reflexivity.
Defined.

Definition key_store_answers (kw : KeyWorld) : Prop :=
  count_keys_fault kw = false /\ import_fault kw = false
  /\ update_key_fault kw = false.

Lemma delete_api_key_cases kw api_keys key_id user_id :
  no_user (Some user_id) = false ->
  let switched :=
    List.map (fun k => if own_key key_id user_id k then ApiKey.deactivate k else k)
      api_keys in
  (import_fault kw = false /\ update_key_fault kw = false
   /\ existsb (own_key key_id user_id) api_keys = true
   /\ delete_api_key kw api_keys key_id (Some user_id) = (switched, Return tt))
  \/ (exists outcome,
         delete_api_key kw api_keys key_id (Some user_id) = (api_keys, outcome)
         /\ outcome <> Return tt
         /\ (import_fault kw = false -> update_key_fault kw = false ->
             outcome = Raise not_found
             /\ existsb (own_key key_id user_id) api_keys = false)).
Proof.
  intros Huser switched. unfold delete_api_key. rewrite Huser. simpl.
  destruct (import_fault kw);
    [right; eexists; split; [reflexivity|split; [discriminate|discriminate]]|].
  destruct (update_key_fault kw);
    [right; eexists; split; [reflexivity|split; [discriminate|discriminate]]|].
  destruct (existsb _ _) eqn:Hex; [left; auto|].
  right. eexists. split; [reflexivity|]. split; [discriminate|auto].
Qed.

(** X20.  Deleting a key touches only keys of the caller with that
    id: every row is as it was or, when it has the id and belongs to
    the caller, the same row switched off.  For an id the caller owns
    no key under, the table is left alone and the answer is 404 when
    the store answers, also when the key exists and belongs to another
    user.  A key that is already switched off is deleted again
    with success. *)
Theorem delete_api_key_is_scoped_to_the_caller
    (kw : KeyWorld) (api_keys : list ApiKey.t) (key_id user_id : string) :
  no_user (Some user_id) = false ->
  let api_keys' := fst (delete_api_key kw api_keys key_id (Some user_id)) in
  let outcome := snd (delete_api_key kw api_keys key_id (Some user_id)) in
  Forall2 (fun k k' => k' = k
                       \/ (own_key key_id user_id k = true /\ k' = ApiKey.deactivate k))
    api_keys api_keys'
  /\ ((forall k, In k api_keys -> ApiKey.id k = key_id -> ApiKey.user_id k <> user_id) ->
      api_keys' = api_keys
      /\ (key_store_answers kw -> outcome = Raise not_found))
  /\ (forall k, In k api_keys -> own_key key_id user_id k = true ->
      key_store_answers kw ->
      outcome = Return tt
      /\ Forall (fun k' => own_key key_id user_id k' = true -> ApiKey.is_active k' = false)
           api_keys').
Proof.
  intros Huser api_keys' outcome. subst api_keys' outcome.
  assert (Hrefl : Forall2 (fun k k' => k' = k
                             \/ (own_key key_id user_id k = true
                                 /\ k' = ApiKey.deactivate k)) api_keys api_keys).
  { rewrite <- (List.map_id api_keys) at 2. apply Forall2_map_In. auto. }
  destruct (delete_api_key_cases kw api_keys key_id user_id Huser)
    as [(Hi & Hu & Hex & ->) | (outcome & -> & Hne & Hfound)]; simpl.
  - split; [|split].
    + apply Forall2_map_In. intros k _.
      destruct (own_key key_id user_id k) eqn:Hown; auto.
    + intros Hother. exfalso. apply List.existsb_exists in Hex as (k & Hin & Hown).
      unfold own_key in Hown. apply andb_prop in Hown as [Hid Huid].
      apply String.eqb_eq in Hid, Huid. exact (Hother k Hin Hid Huid).
    + intros k Hin Hown _. split; [reflexivity|].
      apply List.Forall_forall. intros k' Hin'.
      apply List.in_map_iff in Hin' as (k0 & <- & _).
      destruct (own_key key_id user_id k0) eqn:Hown0; [reflexivity|].
      intros Hagain. rewrite Hown0 in Hagain. discriminate.
  - split; [exact Hrefl|]. split.
    + intros _. split; [reflexivity|]. intros (_ & Hi & Hu). now apply Hfound.
    + intros k Hin Hown (_ & Hi & Hu). destruct (Hfound Hi Hu) as [_ Hex].
      assert (Hyes : existsb (own_key key_id user_id) api_keys = true)
        by (apply List.existsb_exists; eauto).
      congruence.
Qed.

Definition other_key : ApiKey.t :=
  ApiKey.Make "7d9c1a52-0000-4000-8000-000000000009" "owner-2" "server"
    "sk-YW5vdGhlci1rZXktZm9yLXRoZS1leGFtcGxlLW9ubHktMDk" true.

Lemma delete_api_key_is_scoped_to_the_caller_witness :
  fst (delete_api_key key_world [first_key; other_key] (ApiKey.id other_key)
         (Some "owner-1"))
  = [first_key; other_key]
  /\ (key_store_answers key_world ->
      snd (delete_api_key key_world [first_key; other_key] (ApiKey.id other_key)
             (Some "owner-1"))
      = Raise not_found).
Proof.
  apply (delete_api_key_is_scoped_to_the_caller key_world [first_key; other_key]
           (ApiKey.id other_key) "owner-1").
  - reflexivity.
  - intros k [<- | [<- | []]]; simpl; discriminate.
Defined.

Lemma deactivate_counts_less user_id key_id (api_keys : list ApiKey.t) :
  active_keys user_id
    (List.map (fun k => if own_key key_id user_id k then ApiKey.deactivate k else k)
       api_keys)
  <= active_keys user_id api_keys
  /\ ((exists k, In k api_keys /\ own_key key_id user_id k = true
                 /\ ApiKey.is_active k = true) ->
      active_keys user_id
        (List.map (fun k => if own_key key_id user_id k then ApiKey.deactivate k else k)
           api_keys)
      < active_keys user_id api_keys).
Proof.
  unfold active_keys. induction api_keys as [|a l [IHle IHlt]]; simpl.
  - split; [lia|]. now intros (k & [] & _).
  - assert (Hstep : own_key key_id user_id a = true /\ ApiKey.is_active a = true
                    /\ active_key user_id a = true
                    /\ active_key user_id (ApiKey.deactivate a) = false
                    \/ active_key user_id
                         (if own_key key_id user_id a then ApiKey.deactivate a else a)
                       = active_key user_id a
                       /\ (own_key key_id user_id a = true -> ApiKey.is_active a = false)).
    { unfold own_key, active_key, ApiKey.deactivate. destruct a as [i u n t act]. simpl.
      destruct (String.eqb i key_id), (String.eqb u user_id) eqn:Hu, act; simpl;
        rewrite ?Hu; simpl;
        first [ left; repeat split; reflexivity
              | right; split; [reflexivity|intros; first [discriminate|reflexivity]] ]. }
    destruct Hstep as [(Hown & Hact & Ha & Hd) | [Hsame Hoff]].
    + rewrite Hown, Ha, Hd. simpl. split; [lia|]. intros _. lia.
    + rewrite Hsame. destruct (active_key user_id a); simpl.
      * split; [lia|]. intros (k & [<- | Hin] & Hown & Hact).
        -- rewrite (Hoff Hown) in Hact. discriminate.
        -- assert (Hlt := IHlt (ex_intro _ k (conj Hin (conj Hown Hact)))). lia.
      * split; [lia|]. intros (k & [<- | Hin] & Hown & Hact).
        -- rewrite (Hoff Hown) in Hact. discriminate.
        -- exact (IHlt (ex_intro _ k (conj Hin (conj Hown Hact)))).
Qed.

(** X21.  Deleting frees a slot: when a user at the limit of the plan
    deletes one of their active keys, the key limit admits the next
    creation. *)
Theorem deleted_key_frees_a_slot
    (w : SubscriptionWorld) (kw : KeyWorld) (api_keys : list ApiKey.t)
    (k : ApiKey.t) (max : Z) :
  no_user (Some (ApiKey.user_id k)) = false ->
  key_store_answers kw ->
  In k api_keys -> ApiKey.is_active k = true ->
  max_api_keys (get_user_subscription w (ApiKey.user_id k)) = Some max ->
  active_keys (ApiKey.user_id k) api_keys <= max ->
  snd (delete_api_key kw api_keys (ApiKey.id k) (Some (ApiKey.user_id k))) = Return tt
  /\ check_api_key_limit w kw
       (fst (delete_api_key kw api_keys (ApiKey.id k) (Some (ApiKey.user_id k))))
       (ApiKey.user_id k) = None.
Proof.
  intros Huser (Hc & Hi & Hu) Hin Hact Hmax Hle.
  assert (Hown : own_key (ApiKey.id k) (ApiKey.user_id k) k = true)
    by (unfold own_key; now rewrite !String.eqb_refl).
  destruct (delete_api_key_cases kw api_keys (ApiKey.id k) (ApiKey.user_id k) Huser)
    as [(_ & _ & _ & ->) | (outcome & _ & _ & Hfound)]; simpl.
  - split; [reflexivity|]. apply check_api_key_limit_None. split; [exact Hc|].
    rewrite Hmax.
    pose proof (proj2 (deactivate_counts_less (ApiKey.user_id k) (ApiKey.id k) api_keys)
                  (ex_intro _ k (conj Hin (conj Hown Hact)))). lia.
  - destruct (Hfound Hi Hu) as [_ Hex].
    assert (Hyes : existsb (own_key (ApiKey.id k) (ApiKey.user_id k)) api_keys = true)
      by (apply List.existsb_exists; eauto).
    congruence.
Qed.

Lemma deleted_key_frees_a_slot_witness :
  snd (delete_api_key key_world [first_key; other_key] (ApiKey.id first_key)
         (Some "owner-1")) = Return tt
  /\ check_api_key_limit free_world key_world
       (fst (delete_api_key key_world [first_key; other_key] (ApiKey.id first_key)
               (Some "owner-1")))
       "owner-1" = None.
Proof.
  apply (deleted_key_frees_a_slot free_world key_world [first_key; other_key]
           first_key 1).
  - reflexivity.
  - repeat split.
  - now left.
  - reflexivity.
  - reflexivity.
  - vm_compute. discriminate.
Defined.

Lemma append_cons (c : ascii) (a s : string) :
  (String c a ++ s)%string = String c (a ++ s)%string.
Proof. reflexivity. Qed.

Lemma append_nil (s : string) : (EmptyString ++ s)%string = s.
Proof. reflexivity. Qed.

Lemma length_append (a s : string) :
  String.length (a ++ s)%string = (String.length a + String.length s)%nat.
Proof.
  induction a as [|c a IH]; [reflexivity|].
  rewrite append_cons. simpl. now rewrite IH.
Qed.

Lemma append_assoc (a b c : string) :
  (a ++ (b ++ c))%string = ((a ++ b) ++ c)%string.
Proof.
  induction a as [|x a IH]; [reflexivity|].
  rewrite !append_cons. now rewrite IH.
Qed.

Lemma substring_all (s : string) : String.substring 0 (String.length s) s = s.
Proof. induction s as [|c s IH]; simpl; [reflexivity|now rewrite IH]. Qed.

Lemma substring_head (a s : string) :
  String.substring 0 (String.length a) (a ++ s)%string = a.
Proof.
  induction a as [|c a IH].
  - rewrite append_nil. now destruct s.
  - rewrite append_cons. simpl. now rewrite IH.
Qed.

Lemma substring_tail (a s : string) (m : nat) :
  String.substring (String.length a) m (a ++ s)%string = String.substring 0 m s.
Proof.
  induction a as [|c a IH]; [reflexivity|].
  rewrite append_cons. simpl. exact IH.
Qed.

Lemma mask_two_ends (first middle last : string) :
  String.length first = 8%nat -> String.length last = 4%nat ->
  mask (first ++ middle ++ last) = Some (first ++ "..." ++ last)%string.
Proof.
  intros Hfirst Hlast. unfold mask.
  destruct first as [|c first]; [discriminate|]. rewrite append_cons.
  change (String.eqb (String c (first ++ middle ++ last)) EmptyString) with false.
  cbv iota. rewrite <- append_cons. f_equal.
  rewrite <- Hfirst at 1. rewrite substring_head. f_equal. f_equal.
  rewrite append_assoc, length_append, Hlast.
  replace (String.length (String c first ++ middle) + 4 - 4)%nat
    with (String.length (String c first ++ middle)) by lia.
  rewrite substring_tail. rewrite <- Hlast. apply substring_all.
Qed.

(** X22.  The list of keys shows the keys of the caller only, and of
    each key its first eight and its last four characters: what lies
    between them does not show. *)
Theorem listed_keys_are_masked
    (kw : KeyWorld) (api_keys : list ApiKey.t) (user_id : string)
    (listed : list (ApiKey.t * option string)) :
  list_api_keys kw api_keys (Some user_id) = Return listed ->
  Forall (fun shown =>
            In (fst shown) api_keys
            /\ ApiKey.user_id (fst shown) = user_id
            /\ forall first middle last : string,
                 ApiKey.api_key (fst shown) = (first ++ middle ++ last)%string ->
                 String.length first = 8%nat -> String.length last = 4%nat ->
                 snd shown = Some (first ++ "..." ++ last)%string)
    listed
  /\ List.map fst listed
     = List.filter (fun k => String.eqb (ApiKey.user_id k) user_id) api_keys.
Proof.
  unfold list_api_keys.
  destruct (no_user (Some user_id)); [discriminate|].
  destruct (import_fault kw); [discriminate|].
  destruct (list_keys_fault kw); [discriminate|].
  intros [= <-]. simpl. split.
  - apply List.Forall_forall. intros [k shown] Hin.
    apply List.in_map_iff in Hin as (k0 & [= <- <-] & Hin).
    apply List.filter_In in Hin as [Hin Hu]. apply String.eqb_eq in Hu.
    simpl. split; [exact Hin|]. split; [exact Hu|].
    intros first middle last -> Hfirst Hlast. now apply mask_two_ends.
  - rewrite List.map_map. simpl. apply List.map_id.
Qed.

Lemma listed_keys_are_masked_witness :
  Forall (fun shown =>
            In (fst shown) [first_key; other_key]
            /\ ApiKey.user_id (fst shown) = "owner-1"
            /\ forall first middle last : string,
                 ApiKey.api_key (fst shown) = (first ++ middle ++ last)%string ->
                 String.length first = 8%nat -> String.length last = 4%nat ->
                 snd shown = Some (first ++ "..." ++ last)%string)
    [(first_key, Some "sk-b2xkL...wMDE")]
  /\ List.map fst [(first_key, Some "sk-b2xkL...wMDE")]
     = List.filter (fun k => String.eqb (ApiKey.user_id k) "owner-1")
         [first_key; other_key].
Proof.
  apply (listed_keys_are_masked key_world [first_key; other_key] "owner-1").
  reflexivity.
Defined.

End KeyLimits.

(** ** The owner of a request *)

Section Owners.

Import FeatureGates ApiKeys Auth.

Definition not_space (c : ascii) : bool := negb (Ascii.eqb c " ").

Lemma prefix_bearer_has_space (s : string) :
  String.prefix "Bearer " s = true -> all_chars not_space s = false.
Proof.
  do 7 (destruct s as [|? s]; [discriminate|]; cbn [String.prefix];
        destruct (Ascii.ascii_dec _ _) as [<-|]; [|discriminate]).
  reflexivity.
Qed.

Lemma remove_bearer_no_space (s : string) :
  all_chars not_space s = true -> remove_bearer 0 s = s.
Proof.
  induction s as [|c s IH]; [reflexivity|]. intros Hs.
  change (remove_bearer 0 (String c s))
    with (if String.prefix "Bearer " (String c s) then remove_bearer 6 s
          else String c (remove_bearer 0 s)).
  destruct (String.prefix "Bearer " (String c s)) eqn:Hp.
  - apply prefix_bearer_has_space in Hp. congruence.
  - simpl in Hs. apply andb_prop in Hs as [_ Hs]. now rewrite IH.
Qed.

Lemma remove_bearer_scheme (s : string) :
  all_chars not_space s = true -> remove_bearer 0 ("Bearer " ++ s) = s.
Proof.
  intros Hs. cbv [String.append]. simpl.
  replace (String.prefix EmptyString s) with true by now destruct s.
  now apply remove_bearer_no_space.
Qed.

(** X23.  The owner of a request: without a header it is the test
    user; with one, a failing lookup also gives the test user, and so
    does a key that more than one active row carries.  The request is
    refused, with 401, only when the lookup answers and no active row
    carries the key; any other owner is the user of an active row that
    carries the key with every Bearer prefix taken out. *)
Theorem get_user_from_api_key_outcomes
    (lookup_fault : bool) (api_keys : list ApiKey.t) (authorization : option string) :
  let api_key := remove_bearer 0 (default EmptyString authorization) in
  (no_user authorization = true ->
   get_user_from_api_key lookup_fault api_keys authorization = inr test_user_id)
  /\ (lookup_fault = true ->
      get_user_from_api_key lookup_fault api_keys authorization = inr test_user_id)
  /\ (forall e, get_user_from_api_key lookup_fault api_keys authorization = inl e ->
      status_code e = 401 /\ lookup_fault = false
      /\ no_user authorization = false
      /\ Forall (fun k => presented api_key k = false) api_keys)
  /\ (forall user_id,
      get_user_from_api_key lookup_fault api_keys authorization = inr user_id ->
      user_id = test_user_id
      \/ exists k, In k api_keys /\ ApiKey.is_active k = true
                   /\ ApiKey.api_key k = api_key /\ ApiKey.user_id k = user_id).
Proof.
  intros api_key. unfold get_user_from_api_key, Db.single. fold api_key.
  split; [now intros ->|]. split.
  { intros ->. now destruct (no_user authorization). }
  destruct (no_user authorization); [split; [discriminate|intros u [= <-]; now left]|].
  destruct lookup_fault; [split; [discriminate|intros u [= <-]; now left]|].
  destruct (List.filter (presented api_key) api_keys) as [|k [|k2 rest]] eqn:Hf.
  - split; [discriminate|]. intros u [= <-]. now left.
  - split; [discriminate|]. intros u [= <-]. right. exists k.
    assert (Hk : In k (List.filter (presented api_key) api_keys))
      by (rewrite Hf; now left).
    apply List.filter_In in Hk as [Hin Hp]. unfold presented in Hp.
    apply andb_prop in Hp as [Hkey Hact]. apply String.eqb_eq in Hkey. auto.
  - split; [discriminate|]. intros u [= <-]. now left.
Qed.

Lemma filter_none {A : Type} (p : A -> bool) (l : list A) :
  (forall x, In x l -> p x = false) -> List.filter p l = [].
Proof.
  induction l as [|a l IH]; intros H; simpl; [reflexivity|].
  rewrite (H a) by now left. apply IH. intros x Hx. apply H. now right.
Qed.

(** X24.  A key that was created authenticates its owner: when
    [create_api_key] answers with a key that no row carried before,
    the request that presents it, with or without the Bearer prefix,
    is the request of the user who created it.  The token has no
    space, as the alphabet of [token_urlsafe] has none. *)
Theorem created_key_authenticates
    (w : SubscriptionWorld) (kw : KeyWorld) (api_keys api_keys' : list ApiKey.t)
    (user_id key_name key : string) :
  create_api_key w kw api_keys (Some user_id) key_name = (api_keys', Return key) ->
  all_chars not_space (token_urlsafe kw) = true ->
  Forall (fun k => ApiKey.api_key k <> key) api_keys ->
  get_user_from_api_key false api_keys' (Some ("Bearer " ++ key)%string) = inr user_id
  /\ get_user_from_api_key false api_keys' (Some key) = inr user_id.
Proof.
  intros Hcreate Htoken Hfresh. unfold create_api_key in Hcreate.
  destruct (no_user (Some user_id)); [discriminate|]. simpl in Hcreate.
  destruct (check_api_key_limit w kw api_keys user_id); [discriminate|].
  destruct (import_fault kw); [discriminate|].
  destruct (insert_key_fault kw); [discriminate|].
  injection Hcreate as <- <-.
  set (key := ("sk-" ++ token_urlsafe kw)%string).
  assert (Hkey : all_chars not_space key = true).
  { unfold key. cbv [String.append]. simpl. exact Htoken. }
  assert (Hfound : List.filter (presented key)
                     (api_keys ++ [ApiKey.Make (new_key_id kw) user_id key_name key true])
                   = [ApiKey.Make (new_key_id kw) user_id key_name key true]).
  { rewrite List.filter_app, filter_none.
    - simpl. unfold presented. simpl. now rewrite String.eqb_refl.
    - intros k Hin. unfold presented.
      destruct (String.eqb_spec (ApiKey.api_key k) key) as [Heq|]; [|reflexivity].
      exfalso. exact (proj1 (List.Forall_forall _ _) Hfresh k Hin Heq). }
  unfold get_user_from_api_key, Db.single. split.
  - change (no_user (Some ("Bearer " ++ key)%string)) with false. cbv iota.
    change (default EmptyString (Some ("Bearer " ++ key)%string))
      with ("Bearer " ++ key)%string.
    rewrite (remove_bearer_scheme key Hkey), Hfound. reflexivity.
  - change (no_user (Some key)) with false. cbv iota.
    change (default EmptyString (Some key)) with key.
    rewrite (remove_bearer_no_space key Hkey), Hfound. reflexivity.
Qed.

Lemma created_key_authenticates_witness :
  get_user_from_api_key false
    [first_key;
     ApiKey.Make (new_key_id key_world) "owner-2" "desk"
       "sk-Zm9yLXRoZS1leGFtcGxlLW9ubHktbm90LWEta2V5LTAwMQ" true]
    (Some "Bearer sk-Zm9yLXRoZS1leGFtcGxlLW9ubHktbm90LWEta2V5LTAwMQ")
  = inr "owner-2"
  /\ get_user_from_api_key false
       [first_key;
        ApiKey.Make (new_key_id key_world) "owner-2" "desk"
          "sk-Zm9yLXRoZS1leGFtcGxlLW9ubHktbm90LWEta2V5LTAwMQ" true]
       (Some "sk-Zm9yLXRoZS1leGFtcGxlLW9ubHktbm90LWEta2V5LTAwMQ")
     = inr "owner-2".
Proof.
  apply (created_key_authenticates free_world key_world [first_key]
           [first_key;
            ApiKey.Make (new_key_id key_world) "owner-2" "desk"
              "sk-Zm9yLXRoZS1leGFtcGxlLW9ubHktbm90LWEta2V5LTAwMQ" true]
           "owner-2" "desk" "sk-Zm9yLXRoZS1leGFtcGxlLW9ubHktbm90LWEta2V5LTAwMQ").
  - reflexivity.
  - reflexivity.
  - repeat constructor. discriminate.
Defined.

(** X25.  A deleted key is not refused: after the owner deleted it,
    with the store answering and no row of another id or owner
    carrying the same key, the read of the single active row finds no
    row and raises, and the handler answers with the test user.  So a
    request that presents the key, with or without the Bearer prefix,
    is the request of the test user, whether the lookup reaches the
    store or not: it is not the request of the owner any more, and it
    is not answered with 401. *)
Theorem deleted_key_falls_back_to_the_test_user
    (kw : KeyWorld) (lookup_fault : bool) (api_keys : list ApiKey.t) (k : ApiKey.t) :
  In k api_keys ->
  no_user (Some (ApiKey.user_id k)) = false ->
  key_store_answers kw ->
  all_chars not_space (ApiKey.api_key k) = true ->
  (forall k', In k' api_keys -> ApiKey.api_key k' = ApiKey.api_key k ->
              own_key (ApiKey.id k) (ApiKey.user_id k) k' = true) ->
  let api_keys' :=
    fst (delete_api_key kw api_keys (ApiKey.id k) (Some (ApiKey.user_id k))) in
  get_user_from_api_key lookup_fault api_keys'
    (Some ("Bearer " ++ ApiKey.api_key k)%string) = inr test_user_id
  /\ get_user_from_api_key lookup_fault api_keys' (Some (ApiKey.api_key k))
     = inr test_user_id.
Proof.
  intros Hin Huser (_ & Hi & Hu) Hkey Hunique api_keys'. subst api_keys'.
  assert (Hown : own_key (ApiKey.id k) (ApiKey.user_id k) k = true)
    by (unfold own_key; now rewrite !String.eqb_refl).
  destruct (delete_api_key_cases kw api_keys (ApiKey.id k) (ApiKey.user_id k) Huser)
    as [(_ & _ & _ & ->) | (outcome & _ & _ & Hfound)]; simpl.
  2: { destruct (Hfound Hi Hu) as [_ Hex].
       assert (Hyes : existsb (own_key (ApiKey.id k) (ApiKey.user_id k)) api_keys = true)
         by (apply List.existsb_exists; eauto).
       congruence. }
  assert (Hgone :
            List.filter (presented (ApiKey.api_key k))
              (List.map (fun k0 => if own_key (ApiKey.id k) (ApiKey.user_id k) k0
                                   then ApiKey.deactivate k0 else k0) api_keys) = []).
  { apply filter_none. intros k' Hin'.
    apply List.in_map_iff in Hin' as (k0 & <- & Hin0).
    destruct (own_key (ApiKey.id k) (ApiKey.user_id k) k0) eqn:Hown0.
    - unfold presented. simpl. apply andb_false_r.
    - unfold presented.
      destruct (String.eqb_spec (ApiKey.api_key k0) (ApiKey.api_key k)) as [Heq|];
        [|reflexivity].
      rewrite (Hunique k0 Hin0 Heq) in Hown0. discriminate. }
  unfold get_user_from_api_key, Db.single. split.
  - change (no_user (Some ("Bearer " ++ ApiKey.api_key k)%string)) with false. cbv iota.
    change (default EmptyString (Some ("Bearer " ++ ApiKey.api_key k)%string))
      with ("Bearer " ++ ApiKey.api_key k)%string.
    rewrite (remove_bearer_scheme _ Hkey), Hgone. now destruct lookup_fault.
  - destruct (no_user (Some (ApiKey.api_key k))); [reflexivity|]. simpl default.
    rewrite (remove_bearer_no_space _ Hkey), Hgone. now destruct lookup_fault.
Qed.

Lemma deleted_key_falls_back_to_the_test_user_witness :
  get_user_from_api_key false
    (fst (delete_api_key key_world [first_key; other_key] (ApiKey.id first_key)
            (Some (ApiKey.user_id first_key))))
    (Some ("Bearer " ++ ApiKey.api_key first_key)%string)
  = inr test_user_id
  /\ get_user_from_api_key false
       (fst (delete_api_key key_world [first_key; other_key] (ApiKey.id first_key)
               (Some (ApiKey.user_id first_key))))
       (Some (ApiKey.api_key first_key))
     = inr test_user_id.
Proof.
  apply (deleted_key_falls_back_to_the_test_user key_world false
           [first_key; other_key] first_key).
  - now left.
  - reflexivity.
  - repeat split.
  - reflexivity.
  - intros k' [<- | [<- | []]]; [reflexivity|discriminate].
Defined.

End Owners.

(** ** The usage tracking middleware *)

Section Tracking.

Import UsageTrackingMiddleware UsageTracking.

(** X26.  The usage tracking middleware never refuses a request and
    never records one.  For an identified user it unpacks the answer
    of [check_usage_limits], a dictionary of five keys, into two
    names; that raises, and the handler hands the request on.  So
    whatever the usage and the plan are, the request is handed to the
    application, once or twice, and the tables of the month and of the
    detailed log stay as they were. *)
Theorem usage_tracking_never_refuses
    (w : SubscriptionWorld) (insert_fault : bool) (tables : Tables)
    (path method : string) (user_id api_key_id : option string)
    (call_next : Outcome Served) (response_time_ms : Z) :
  exists calls : nat,
    dispatch w insert_fault tables path method user_id api_key_id call_next
      response_time_ms
    = (tables, Next calls)
    /\ (1 <= calls <= 2)%nat
    /\ (FeatureGates.no_user user_id = false -> calls = 1%nat).
Proof.
  unfold dispatch.
  destruct (bool_decide _); [exists 1%nat; auto with lia|].
  destruct (negb _); [exists 1%nat; auto with lia|].
  destruct (String.eqb method "OPTIONS"); [exists 1%nat; auto with lia|].
  destruct (FeatureGates.no_user user_id) eqn:Huser.
  - unfold after_call_next. rewrite Huser.
    destruct call_next as [e| |response].
    + exists 1%nat. split; [reflexivity|]. split; [lia|discriminate].
    + exists 2%nat. split; [reflexivity|]. split; [lia|discriminate].
    + destruct (match x_tokens_saved response with
                | Some v => Py.int v
                | None => Some 0
                end) as [tokens|], (cost_saved response) as [cost|].
      * exists 1%nat. split; [reflexivity|]. split; [lia|discriminate].
      * exists 2%nat. split; [reflexivity|]. split; [lia|discriminate].
      * exists 2%nat. split; [reflexivity|]. split; [lia|discriminate].
      * exists 2%nat. split; [reflexivity|]. split; [lia|discriminate].
  - exists 1%nat. simpl. split; [reflexivity|]. split; [lia|reflexivity].
Qed.

End Tracking.

(** ** The table of the rate limiter stays small *)

Section Pruning.

Import RateLimitMiddleware.

Lemma keys_to_remove_total (l : list string) (current_minute : Z) :
  (forall k, k ∈ l -> is_Some (minute_of_key k)) ->
  exists ks, keys_to_remove l current_minute = Some ks
             /\ forall k m, k ∈ l -> minute_of_key k = Some m ->
                            m < current_minute - 1 -> k ∈ ks.
Proof.
  induction l as [|k l IH]; intros Hparse; simpl.
  - exists []. split; [reflexivity|]. intros k m Hk. now apply elem_of_nil in Hk.
  - destruct (Hparse k) as [m Hm]; [now left|]. rewrite Hm.
    destruct IH as (ks & -> & Hold); [intros k' Hk'; apply Hparse; now right|].
    eexists. split; [reflexivity|].
    intros k' m' Hk' Hm' Hlt. apply elem_of_cons in Hk' as [-> | Hk'].
    + assert (m' = m) as -> by congruence.
      rewrite (proj2 (Z.ltb_lt _ _) Hlt). now left.
    + specialize (Hold k' m' Hk' Hm' Hlt).
      destruct (m <? current_minute - 1); [now right|exact Hold].
Qed.

Lemma lookup_foldr_delete_out (table : gmap string Z) (ks : list string) (k : string)
    (v : Z) :
  foldr delete table ks !! k = Some v -> k ∉ ks.
Proof.
  induction ks as [|j ks IH]; simpl; [intros _; apply not_elem_of_nil|].
  intros H. apply lookup_delete_Some in H as [Hne H].
  apply not_elem_of_cons. split; [congruence|auto].
Qed.

Lemma lookup_keys (table : gmap string Z) (k : string) (v : Z) :
  table !! k = Some v -> k ∈ keys table.
Proof.
  intros H. unfold keys. apply list_elem_of_fmap. exists (k, v).
  split; [reflexivity|]. now apply elem_of_map_to_list.
Qed.

(** The pruning the limiter is written for, on a subscription service
    that delivers the name of the plan: when the keys of the table are
    well formed, after a request of a capped plan is admitted no
    counter of a bucket older than the previous minute is left, for
    any owner. *)
Theorem admitted_check_prunes_old_buckets
    (plan_name : string) (time : Q) (request_counts request_counts' : gmap string Z)
    (user_id : string) :
  no_colon user_id = true ->
  rate_cap plan_name <> -1 ->
  (forall k, is_Some (request_counts !! k) -> is_Some (minute_of_key k)) ->
  _check_rate_limit (Db.Data plan_name) time request_counts user_id
  = (request_counts', true) ->
  forall k, is_Some (request_counts' !! k) ->
            exists m, minute_of_key k = Some m /\ bucket time - 1 <= m.
Proof.
  intros Hu Hcap Hparse. unfold _check_rate_limit.
  fold (rate_cap plan_name). fold (bucket time). fold (key user_id (bucket time)).
  rewrite (proj2 (Z.eqb_neq _ _) Hcap).
  set (own := key user_id (bucket time)).
  set (c := default 0 (request_counts !! own)).
  destruct (rate_cap plan_name <=? c); [discriminate|].
  assert (Hparse' : forall k, k ∈ keys (<[own := c + 1]> request_counts) ->
                              is_Some (minute_of_key k)).
  { intros k Hk. unfold keys in Hk. apply list_elem_of_fmap in Hk as ([k' v] & -> & Hkv).
    apply elem_of_map_to_list in Hkv. simpl.
    destruct (decide (k' = own)) as [->|Hne].
    - unfold own. rewrite minute_of_key_key by exact Hu. eauto.
    - rewrite lookup_insert_ne in Hkv by congruence. apply Hparse. eauto. }
  destruct (keys_to_remove_total _ (bucket time) Hparse') as (ks & -> & Hold).
  intros [= <-] k [v Hk].
  pose proof (lookup_foldr_delete_out _ _ _ _ Hk) as Hout.
  apply lookup_foldr_delete_Some in Hk. apply lookup_keys in Hk.
  destruct (Hparse' k Hk) as [m Hm]. exists m. split; [exact Hm|].
  destruct (Z.lt_ge_cases m (bucket time - 1)) as [Hlt|]; [|assumption].
  now contradiction (Hout (Hold k m Hk Hm Hlt)).
Qed.

(** A table with a counter of owner-1 from minute 90 and one of
    owner-2 from minute 99, and a request of owner-1 in minute 100. *)
Definition old_counts : gmap string Z :=
  <[key "owner-1" 90 := 7]> (<[key "owner-2" 99 := 3]> ∅).

Lemma admitted_check_prunes_old_buckets_witness :
  fst (_check_rate_limit (Db.Data "free") (6000 # 1) old_counts "owner-1")
  !! key "owner-1" 90 = None.
Proof.
  destruct (fst (_check_rate_limit (Db.Data "free") (6000 # 1) old_counts "owner-1")
            !! key "owner-1" 90) as [v|] eqn:Hv; [exfalso|reflexivity].
  destruct (admitted_check_prunes_old_buckets "free" (6000 # 1) old_counts
              (fst (_check_rate_limit (Db.Data "free") (6000 # 1) old_counts "owner-1"))
              "owner-1") with (k := key "owner-1" 90) as (m & Hm & Hle).
  - reflexivity.
  - vm_compute. discriminate.
  - intros k [c Hk]. unfold old_counts in Hk.
    apply lookup_insert_Some in Hk as [[<- _] | [_ Hk]]; [vm_compute; eauto|].
    apply lookup_insert_Some in Hk as [[<- _] | [_ Hk]]; [vm_compute; eauto|].
    now rewrite lookup_empty in Hk.
  - vm_compute. reflexivity.
  - rewrite Hv. eauto.
  - vm_compute in Hm. injection Hm as <-. vm_compute in Hle. now apply Hle.
Defined.

End Pruning.

(** ** Changing the plan *)

Section Upgrades.

Import FeatureGates Upgrade.

Definition paid_plans : list string := ["startup"; "business"; "enterprise"].

Definition subscribed (user_id : string) (r : SubscriptionRow.t) : bool :=
  String.eqb (SubscriptionRow.user_id r) user_id.

Lemma moved_subscribed user_id new_plan stripe u r :
  subscribed u (moved user_id new_plan stripe r) = subscribed u r.
Proof. unfold moved, subscribed. now destruct (String.eqb _ user_id). Qed.

Lemma moved_others user_id new_plan stripe (subscriptions : list SubscriptionRow.t) :
  List.filter (subscribed user_id) subscriptions = [] ->
  List.map (moved user_id new_plan stripe) subscriptions = subscriptions.
Proof.
  induction subscriptions as [|r l IH]; simpl; [reflexivity|].
  unfold subscribed at 1, moved at 1.
  destruct (String.eqb (SubscriptionRow.user_id r) user_id); [discriminate|].
  intros H. now rewrite IH.
Qed.

Lemma upgrade_plan_cases select_fault update_fault plans subscriptions user_id
    plan_name stripe :
  (exists new_plan updated rest,
      List.filter (named plan_name) plans = [new_plan]
      /\ List.filter (subscribed user_id)
           (List.map (moved user_id new_plan stripe) subscriptions) = updated :: rest
      /\ upgrade_plan select_fault update_fault plans subscriptions user_id plan_name
           stripe
         = (List.map (moved user_id new_plan stripe) subscriptions,
            Some (updated, PlanRow.plan new_plan)))
  \/ upgrade_plan select_fault update_fault plans subscriptions user_id plan_name stripe
     = (subscriptions, None).
Proof.
  unfold upgrade_plan, Db.single.
  destruct select_fault; [now right|].
  destruct (List.filter (named plan_name) plans) as [|new_plan [|p2 rest]];
    [now right| |now right].
  destruct update_fault; [now right|].
  fold (subscribed user_id).
  destruct (List.filter (subscribed user_id)
              (List.map (moved user_id new_plan stripe) subscriptions))
    as [|updated rest] eqn:Hf.
  - right. rewrite filter_map_commute in Hf by (intros; apply moved_subscribed).
    apply List.map_eq_nil in Hf. now rewrite (moved_others _ _ _ _ Hf).
  - left. exists new_plan, updated, rest. auto.
Qed.

(** X28.  The upgrade endpoint changes the rows of the caller or
    nothing.  A name other than startup, business and enterprise is
    refused with 400; every refusal leaves the table of subscriptions
    as it was, and a caller without a subscription row is always
    refused.  When the upgrade is answered, the plan that is answered
    has the name asked for, every row of the caller points to it and
    is active, and the rows of the other users are as they were. *)
Theorem upgrade_changes_the_callers_rows_only
    (select_fault update_fault : bool) (plans : list PlanRow.t)
    (subscriptions : list SubscriptionRow.t) (user_id plan_name : string) :
  no_user (Some user_id) = false ->
  let subscriptions' :=
    fst (create_upgrade_session select_fault update_fault plans subscriptions
           (Some user_id) plan_name) in
  let outcome :=
    snd (create_upgrade_session select_fault update_fault plans subscriptions
           (Some user_id) plan_name) in
  (forall e, outcome = Raise e ->
      subscriptions' = subscriptions
      /\ (gate_status e = 400 \/ gate_status e = 500)
      /\ (gate_status e = 400 <-> ~ In plan_name paid_plans))
  /\ ((forall r, In r subscriptions -> SubscriptionRow.user_id r <> user_id) ->
      exists e, outcome = Raise e)
  /\ (forall updated plan, outcome = Return (updated, plan) ->
      In plan_name paid_plans
      /\ Plan.name plan = Some plan_name
      /\ (exists new_plan,
             In new_plan plans /\ PlanRow.plan new_plan = plan
             /\ Forall (fun r => SubscriptionRow.user_id r = user_id ->
                                 SubscriptionRow.plan_id r = PlanRow.id new_plan
                                 /\ SubscriptionRow.status r = "active")
                  subscriptions')
      /\ In updated subscriptions'
      /\ List.filter (fun r => negb (subscribed user_id r)) subscriptions'
         = List.filter (fun r => negb (subscribed user_id r)) subscriptions).
Proof.
  intros Huser subscriptions' outcome. subst subscriptions' outcome.
  unfold create_upgrade_session. rewrite Huser. fold paid_plans.
  destruct (bool_decide (plan_name ∈ paid_plans)) eqn:Hpaid; simpl.
  2: { apply bool_decide_eq_false in Hpaid. rewrite list_elem_of_In in Hpaid.
       split; [|split].
       - intros e [= <-]. simpl. split; [reflexivity|]. split; [now left|].
         split; auto.
       - intros _. eauto.
       - discriminate. }
  apply bool_decide_eq_true in Hpaid. rewrite list_elem_of_In in Hpaid.
  destruct (upgrade_plan_cases select_fault update_fault plans subscriptions user_id
              plan_name None)
    as [(new_plan & updated & rest & Hplan & Hrows & ->) | ->]; simpl.
  - split; [discriminate|]. split.
    + intros Hnone. exfalso.
      assert (Hin : In updated (List.filter (subscribed user_id)
                                  (List.map (moved user_id new_plan None) subscriptions)))
        by (rewrite Hrows; now left).
      rewrite filter_map_commute in Hin by (intros; apply moved_subscribed).
      apply List.in_map_iff in Hin as (r & _ & Hin).
      apply List.filter_In in Hin as [Hin Hsub]. apply String.eqb_eq in Hsub.
      exact (Hnone r Hin Hsub).
    + intros updated' plan [= <- <-].
      assert (Hnew : In new_plan (List.filter (named plan_name) plans))
        by (rewrite Hplan; now left).
      apply List.filter_In in Hnew as [Hnew Hname]. unfold named in Hname.
      destruct (Plan.name (PlanRow.plan new_plan)) as [name|] eqn:Hn; [|discriminate].
      apply String.eqb_eq in Hname. subst name.
      split; [exact Hpaid|]. split; [reflexivity|]. split; [|split].
      * exists new_plan. split; [exact Hnew|]. split; [reflexivity|].
        apply List.Forall_forall. intros r' Hin'.
        apply List.in_map_iff in Hin' as (r & <- & _). unfold moved.
        destruct (String.eqb_spec (SubscriptionRow.user_id r) user_id);
          simpl; [auto|contradiction].
      * eapply proj1. apply List.filter_In. rewrite Hrows. now left.
      * apply filter_map_fixed.
        -- intros r _. now rewrite moved_subscribed.
        -- intros r _ Hother. unfold moved. unfold subscribed in Hother.
           now destruct (String.eqb (SubscriptionRow.user_id r) user_id).
  - split; [|split].
    + intros e [= <-]. simpl. split; [reflexivity|]. split; [now right|].
      split; [discriminate|contradiction].
    + intros _. eauto.
    + discriminate.
Qed.

Definition plan_table : list PlanRow.t :=
  [PlanRow.Make 1 free_plan; PlanRow.Make 2 startup_plan].

Definition subscription_table : list SubscriptionRow.t :=
  [SubscriptionRow.Make "owner-1" 1 "active" None;
   SubscriptionRow.Make "owner-2" 1 "past_due" None].

Lemma upgrade_changes_the_callers_rows_only_witness :
  fst (create_upgrade_session false false plan_table subscription_table
         (Some "owner-3") "startup")
  = subscription_table
  /\ exists e,
       snd (create_upgrade_session false false plan_table subscription_table
              (Some "owner-3") "startup") = Raise e.
Proof.
  destruct (upgrade_changes_the_callers_rows_only false false plan_table
              subscription_table "owner-3" "startup" eq_refl) as (Hraise & Hnone & _).
  destruct Hnone as [e He].
  - intros r [<- | [<- | []]]; simpl; discriminate.
  - split; [exact (proj1 (Hraise e He))|]. now exists e.
Defined.

End Upgrades.

(** ** The rate limiter never refuses *)

Section LimiterAsRun.

Import RateLimitMiddleware.

Lemma dispatch_hands_on (time : Q) (request_counts : gmap string Z) (path : string)
    (user_id : option string) :
  Limiter.dispatch time request_counts path user_id = (request_counts, CallNext).
Proof.
  unfold Limiter.dispatch, Limiter.get_subscription_details, dispatch.
  destruct (bool_decide _); [reflexivity|].
  destruct (negb _); [reflexivity|].
  now destruct (FeatureGates.no_user user_id).
Qed.

(** C4, on the code.  The check asks [subscription_service] for
    [get_subscription_details], a method the service does not have:
    the call raises, the handler of [_check_rate_limit] answers
    [True], and the request is handed on.  So whatever requests
    arrive, of whatever users and however many in one bucket, every
    one of them is handed on and no counter is written: the request
    after the [N] of the cap is admitted like the others. *)
Theorem rate_limit_never_refuses
    (requests : list (Q * string * option string)) (request_counts : gmap string Z) :
  Limiter.serve requests request_counts
  = (request_counts, List.map (fun _ => CallNext) requests).
Proof.
  induction requests as [|[[time path] user_id] requests IH]; simpl; [reflexivity|].
  now rewrite dispatch_hands_on, IH.
Qed.

(** Eleven requests of one user of the free plan, whose cap is 10, in
    one minute: the eleventh is handed on, and the table is empty. *)
Example eleventh_request_is_handed_on :
  Limiter.serve
    (List.repeat ((1700000000 # 1)%Q, "/api/v1/chat/completions", Some "owner-1") 11) ∅
  = (∅, List.repeat CallNext 11).
Proof. reflexivity. Qed.

End LimiterAsRun.
